(** * FileOps MCP server: sandbox resolver and request dispatcher

    A shallow embedding of [src/fileops_server.py].  The server keeps every
    file operation below a temporary directory [TEMP_DIR]; a request names
    one of five operations and carries a JSON object of parameters.

    The development follows the layers of the program:
    - Python strings and the [posixpath] functions the handler calls
      ([join], [normpath], [dirname], [split], [relpath]);
    - [fnmatch] and [glob] (non-recursive);
    - a tree-shaped file system with the system calls the handler issues
      ([stat], [mkdir], [open], [listdir], [unlink], [rmdir]) and the
      library calls built on them ([os.makedirs], [shutil.rmtree]);
    - the handler [handle_mcp_request] itself, in a state-and-exception
      monad, with the [try]/[except] boundary of the source, and the
      replies of [GET /] and [GET /health].

    Modelling conventions.  The library functions follow CPython 3.11.  A
    Python [str] is the [string] of the bytes of its UTF-8 encoding, so
    every text that UTF-8 can encode is covered; the names of the file
    system are such texts.  The host is POSIX ([os.sep] is "/",
    [os.linesep] is a line feed) and text files are encoded in UTF-8.  The
    file system has directories and regular files only (no symbolic links,
    permissions or quotas).

    Limits.  [shutil.rmtree] is given the limit of the interpreter on
    nested calls ([Os.recursion_limit]).  The system calls of [Sys] and
    [os.makedirs] are written without the limits of the host on the
    length of a name and of a path and without the limit on nested
    calls: a property that creates names states them as a hypothesis
    ([Terms.within_limits]), as does one that removes a tree
    ([Terms.shallow]), with room for the calls that are open when the
    handler runs. *)

From Stdlib Require Import ZArith Ascii String List Bool Lia.
From Stdlib Require Import SpecFloat.
From stdpp Require Import gmap strings list fin_maps.

Set Warnings "-register-all".

(** ** Python strings *)

Module Str.

Definition is_sep (a : ascii) : bool := bool_decide (a = "/"%char).

(** [s.lstrip("/")] *)
Fixpoint lstrip_sep (s : string) : string :=
  match s with
  | String a s' => if is_sep a then lstrip_sep s' else s
  | "" => ""
  end.

(** [s.rstrip("/")] *)
Fixpoint rstrip_sep (s : string) : string :=
  match s with
  | String a s' =>
      match rstrip_sep s' with
      | "" => if is_sep a then "" else String a ""
      | r => String a r
      end
  | "" => ""
  end.

(** [s == "/" * len(s)] *)
Fixpoint all_sep (s : string) : bool :=
  match s with
  | String a s' => is_sep a && all_sep s'
  | "" => true
  end.

Definition startswith (s p : string) : bool := String.prefix p s.

(** [s.endswith("/")] *)
Fixpoint endswith_sep (s : string) : bool :=
  match s with
  | String a "" => is_sep a
  | String _ s' => endswith_sep s'
  | "" => false
  end.

(** [c in s] for a character [c] *)
Fixpoint contains (c : ascii) (s : string) : bool :=
  match s with
  | String a s' => bool_decide (a = c) || contains c s'
  | "" => false
  end.

(** [s.split("/")]: never empty, the pieces hold no separator. *)
Fixpoint split_sep (s : string) : list string :=
  match s with
  | String a s' =>
      if is_sep a then "" :: split_sep s'
      else match split_sep s' with
           | h :: t => String a h :: t
           | [] => [String a ""]
           end
  | "" => [""]
  end.

(** ["/".join(l)] *)
Definition join_sep (l : list string) : string := String.concat "/" l.

(** [(s[:i], s[i:])] with [i = s.rfind("/") + 1] *)
Fixpoint rpartition_sep (s : string) : string * string :=
  match s with
  | String a s' =>
      match rpartition_sep s' with
      | ("", t) => if is_sep a then ("/", t) else ("", String a t)
      | (h, t) => (String a h, t)
      end
  | "" => ("", "")
  end.

(** truth value of a [str] *)
Definition nonempty (s : string) : bool :=
  match s with "" => false | _ => true end.

End Str.

(** ** UTF-8 *)

Module Utf8.

Definition byte (a : ascii) : N := N_of_ascii a.

(** A byte [10xxxxxx], and the six bits it carries. *)
Definition continuation (a : ascii) : bool :=
  ((128 <=? byte a) && (byte a <? 192))%N.

Definition low (a : ascii) : N := (byte a - 128)%N.

(** The code point a text starts with and the text after it, as the
    decoder of CPython reads them: no overlong form, no surrogate,
    nothing above U+10FFFF. *)
Definition next_char (s : string) : option (N * string) :=
  match s with
  | String a s1 =>
      let b := byte a in
      if (b <? 128)%N then Some (b, s1)
      else if (b <? 194)%N then None
      else if (b <? 224)%N then
        match s1 with
        | String a1 s2 =>
            if continuation a1
            then Some (((b - 192) * 64 + low a1)%N, s2) else None
        | _ => None
        end
      else if (b <? 240)%N then
        match s1 with
        | String a1 (String a2 s3) =>
            if continuation a1 && continuation a2
               && negb ((b =? 224) && (byte a1 <? 160))%N
               && negb ((b =? 237) && (160 <=? byte a1))%N
            then Some ((((b - 224) * 64 + low a1) * 64 + low a2)%N, s3)
            else None
        | _ => None
        end
      else if (b <? 245)%N then
        match s1 with
        | String a1 (String a2 (String a3 s4)) =>
            if continuation a1 && continuation a2 && continuation a3
               && negb ((b =? 240) && (byte a1 <? 144))%N
               && negb ((b =? 244) && (144 <=? byte a1))%N
            then Some (((((b - 240) * 64 + low a1) * 64 + low a2) * 64
                        + low a3)%N, s4)
            else None
        | _ => None
        end
      else None
  | "" => None
  end.

Fixpoint valid_rec (fuel : nat) (s : string) : bool :=
  match fuel, s with
  | _, "" => true
  | S fuel', _ =>
      match next_char s with
      | Some (_, s') => valid_rec fuel' s'
      | None => false
      end
  | 0, _ => false
  end.

(** The bytes that [bytes.decode("utf-8")] accepts; every round consumes
    a byte. *)
Definition valid (s : string) : bool := valid_rec (String.length s) s.

Fixpoint points_rec (fuel : nat) (s : string) : list N :=
  match fuel, s with
  | S fuel', String a s1 =>
      match next_char s with
      | Some (c, s') => c :: points_rec fuel' s'
      | None => (56320 + byte a)%N :: points_rec fuel' s1
      end
  | _, _ => []
  end.

(** The code points of a text; a byte that starts no code point is read
    as [os.fsdecode] reads it in a file name, as the surrogate U+DC00
    plus the byte. *)
Definition points (s : string) : list N := points_rec (String.length s) s.

Definition chr (n : N) : ascii := ascii_of_N n.

(** The UTF-8 form of one code point. *)
Definition encode_char (c : N) : string :=
  if (c <? 128)%N then String (chr c) ""
  else if (c <? 2048)%N then
    String (chr (192 + c / 64)) (String (chr (128 + c mod 64)) "")
  else if (c <? 65536)%N then
    String (chr (224 + c / 4096))
      (String (chr (128 + (c / 64) mod 64))
         (String (chr (128 + c mod 64)) ""))
  else
    String (chr (240 + c / 262144))
      (String (chr (128 + (c / 4096) mod 64))
         (String (chr (128 + (c / 64) mod 64))
            (String (chr (128 + c mod 64)) ""))).

(** A code point that [str.encode("utf-8")] accepts. *)
Definition scalar (c : N) : bool :=
  ((c <? 55296) || (57344 <=? c) && (c <? 1114112))%N.

(** [text.encode("utf-8")] of a text given by its code points; a
    surrogate raises [UnicodeEncodeError]. *)
Fixpoint encode (text : list N) : option string :=
  match text with
  | [] => Some ""
  | c :: text' =>
      if scalar c then
        match encode text' with
        | Some s => Some (encode_char c +:+ s)
        | None => None
        end
      else None
  end.

(** Universal newlines on the code points of a text. *)
Fixpoint newlines (text : list N) : list N :=
  match text with
  | c :: text' =>
      if (c =? 13)%N then
        10%N :: match text' with
                | d :: text'' =>
                    if (d =? 10)%N then newlines text'' else newlines text'
                | [] => []
                end
      else c :: newlines text'
  | [] => []
  end.

End Utf8.

(** ** [posixpath] *)

Module PosixPath.
Import Str.

(** [os.path.isabs] *)
Definition isabs (s : string) : bool := startswith s "/".

(** One round of the loop of [os.path.join(a, *p)]. *)
Definition join (path b : string) : string :=
  if startswith b "/" then b
  else if negb (nonempty path) || endswith_sep path then path +:+ b
  else path +:+ "/" +:+ b.

(** [os.path.join(a, *p)] *)
Definition join_all (a : string) (p : list string) : string :=
  fold_left join p a.

(** [os.path.split] *)
Definition split (p : string) : string * string :=
  let (head, tail) := rpartition_sep p in
  (if nonempty head && negb (all_sep head) then rstrip_sep head else head,
   tail).

(** [os.path.dirname] *)
Definition dirname (p : string) : string := fst (split p).

(** The number [initial_slashes] of [normpath]: POSIX keeps exactly two
    leading slashes apart and treats three or more as one. *)
Definition initial_slashes (path : string) : nat :=
  if startswith path "/" then
    if startswith path "//" && negb (startswith path "///") then 2 else 1
  else 0.

(** The body of the loop of [normpath] over the components. *)
Definition normpath_step (slashes : nat) (new_comps : list string)
    (comp : string) : list string :=
  if bool_decide (comp = "" ∨ comp = ".") then new_comps
  else if bool_decide (comp ≠ ".."
                       ∨ (slashes = 0 ∧ new_comps = [])
                       ∨ (new_comps ≠ [] ∧ last new_comps = Some ".."))
  then new_comps ++ [comp]
  else removelast new_comps.

Definition normpath_comps (path : string) : list string :=
  fold_left (normpath_step (initial_slashes path)) (split_sep path) [].

(** [os.path.normpath] *)
Definition normpath (path : string) : string :=
  if negb (nonempty path) then "."
  else
    let p := join_sep (normpath_comps path) in
    let p := match initial_slashes path with
             | 0 => p
             | 1 => "/" +:+ p
             | _ => "//" +:+ p
             end in
    if nonempty p then p else ".".

(** [os.path.abspath], with the working directory as an argument *)
Definition abspath (cwd path : string) : string :=
  normpath (if isabs path then path else join cwd path).

(** [len(commonprefix([l1, l2]))] on two lists of components *)
Fixpoint common_prefix_length (l1 l2 : list string) : nat :=
  match l1, l2 with
  | a :: l1', b :: l2' =>
      if bool_decide (a = b) then S (common_prefix_length l1' l2') else 0
  | _, _ => 0
  end.

(** [os.path.relpath(path, start)] for a non-empty [path] *)
Definition relpath (cwd path start : string) : string :=
  let start_list := filter (λ x, x ≠ "") (split_sep (abspath cwd start)) in
  let path_list := filter (λ x, x ≠ "") (split_sep (abspath cwd path)) in
  let i := common_prefix_length start_list path_list in
  let rel_list :=
    replicate (length start_list - i) ".." ++ drop i path_list in
  match rel_list with
  | [] => "."
  | a :: p => join_all a p
  end.

End PosixPath.

(** ** Python values and exceptions *)

(** The values [json.loads] builds and the handler returns; a [str] is
    held as the bytes of its UTF-8 encoding. *)
Inductive pyval :=
| PNone
| PBool (b : bool)
| PInt (z : Z)
| PFloat (x : spec_float)
| PStr (s : string)
| PList (l : list pyval)
| PDict (d : gmap string pyval).

Module Py.

(** [type(v).__name__] *)
Definition type_name (v : pyval) : string :=
  match v with
  | PNone => "NoneType"
  | PBool _ => "bool"
  | PInt _ => "int"
  | PFloat _ => "float"
  | PStr _ => "str"
  | PList _ => "list"
  | PDict _ => "dict"
  end.

(** [bool(v)] *)
Definition truthy (v : pyval) : bool :=
  match v with
  | PNone => false
  | PBool b => b
  | PInt z => negb (z =? 0)%Z
  | PFloat (S754_zero _) => false
  | PFloat _ => true
  | PStr s => Str.nonempty s
  | PList l => match l with [] => false | _ => true end
  | PDict d => negb (bool_decide (map_to_list d = []))
  end.

(** [v is None] *)
Definition is_none (v : pyval) : bool :=
  match v with PNone => true | _ => false end.

Definition hex_digit (n : N) : ascii :=
  ascii_of_N (if (n <? 10)%N then 48 + n else 87 + n).

(** [width] hexadecimal digits of [n], the most significant first *)
Fixpoint hex (width : nat) (n : N) : string :=
  match width with
  | 0 => ""
  | S width' => hex width' (n / 16) +:+ String (hex_digit (n mod 16)) ""
  end.

(** The code points for which [str.isprintable] holds (Unicode 14.0, the
    database of CPython 3.11), as ranges with both ends included. *)
Definition printable_ranges : list (N * N) :=
  [(32, 126); (161, 172); (174, 887); (890, 895); (900, 906); (908, 908);
   (910, 929); (931, 1327); (1329, 1366); (1369, 1418); (1421, 1423);
   (1425, 1479); (1488, 1514); (1519, 1524); (1542, 1563); (1565, 1756);
   (1758, 1805); (1808, 1866); (1869, 1969); (1984, 2042); (2045, 2093);
   (2096, 2110); (2112, 2139); (2142, 2142); (2144, 2154); (2160, 2190);
   (2200, 2273); (2275, 2435); (2437, 2444); (2447, 2448); (2451, 2472);
   (2474, 2480); (2482, 2482); (2486, 2489); (2492, 2500); (2503, 2504);
   (2507, 2510); (2519, 2519); (2524, 2525); (2527, 2531); (2534, 2558);
   (2561, 2563); (2565, 2570); (2575, 2576); (2579, 2600); (2602, 2608);
   (2610, 2611); (2613, 2614); (2616, 2617); (2620, 2620); (2622, 2626);
   (2631, 2632); (2635, 2637); (2641, 2641); (2649, 2652); (2654, 2654);
   (2662, 2678); (2689, 2691); (2693, 2701); (2703, 2705); (2707, 2728);
   (2730, 2736); (2738, 2739); (2741, 2745); (2748, 2757); (2759, 2761);
   (2763, 2765); (2768, 2768); (2784, 2787); (2790, 2801); (2809, 2815);
   (2817, 2819); (2821, 2828); (2831, 2832); (2835, 2856); (2858, 2864);
   (2866, 2867); (2869, 2873); (2876, 2884); (2887, 2888); (2891, 2893);
   (2901, 2903); (2908, 2909); (2911, 2915); (2918, 2935); (2946, 2947);
   (2949, 2954); (2958, 2960); (2962, 2965); (2969, 2970); (2972, 2972);
   (2974, 2975); (2979, 2980); (2984, 2986); (2990, 3001); (3006, 3010);
   (3014, 3016); (3018, 3021); (3024, 3024); (3031, 3031); (3046, 3066);
   (3072, 3084); (3086, 3088); (3090, 3112); (3114, 3129); (3132, 3140);
   (3142, 3144); (3146, 3149); (3157, 3158); (3160, 3162); (3165, 3165);
   (3168, 3171); (3174, 3183); (3191, 3212); (3214, 3216); (3218, 3240);
   (3242, 3251); (3253, 3257); (3260, 3268); (3270, 3272); (3274, 3277);
   (3285, 3286); (3293, 3294); (3296, 3299); (3302, 3311); (3313, 3314);
   (3328, 3340); (3342, 3344); (3346, 3396); (3398, 3400); (3402, 3407);
   (3412, 3427); (3430, 3455); (3457, 3459); (3461, 3478); (3482, 3505);
   (3507, 3515); (3517, 3517); (3520, 3526); (3530, 3530); (3535, 3540);
   (3542, 3542); (3544, 3551); (3558, 3567); (3570, 3572); (3585, 3642);
   (3647, 3675); (3713, 3714); (3716, 3716); (3718, 3722); (3724, 3747);
   (3749, 3749); (3751, 3773); (3776, 3780); (3782, 3782); (3784, 3789);
   (3792, 3801); (3804, 3807); (3840, 3911); (3913, 3948); (3953, 3991);
   (3993, 4028); (4030, 4044); (4046, 4058); (4096, 4293); (4295, 4295);
   (4301, 4301); (4304, 4680); (4682, 4685); (4688, 4694); (4696, 4696);
   (4698, 4701); (4704, 4744); (4746, 4749); (4752, 4784); (4786, 4789);
   (4792, 4798); (4800, 4800); (4802, 4805); (4808, 4822); (4824, 4880);
   (4882, 4885); (4888, 4954); (4957, 4988); (4992, 5017); (5024, 5109);
   (5112, 5117); (5120, 5759); (5761, 5788); (5792, 5880); (5888, 5909);
   (5919, 5942); (5952, 5971); (5984, 5996); (5998, 6000); (6002, 6003);
   (6016, 6109); (6112, 6121); (6128, 6137); (6144, 6157); (6159, 6169);
   (6176, 6264); (6272, 6314); (6320, 6389); (6400, 6430); (6432, 6443);
   (6448, 6459); (6464, 6464); (6468, 6509); (6512, 6516); (6528, 6571);
   (6576, 6601); (6608, 6618); (6622, 6683); (6686, 6750); (6752, 6780);
   (6783, 6793); (6800, 6809); (6816, 6829); (6832, 6862); (6912, 6988);
   (6992, 7038); (7040, 7155); (7164, 7223); (7227, 7241); (7245, 7304);
   (7312, 7354); (7357, 7367); (7376, 7418); (7424, 7957); (7960, 7965);
   (7968, 8005); (8008, 8013); (8016, 8023); (8025, 8025); (8027, 8027);
   (8029, 8029); (8031, 8061); (8064, 8116); (8118, 8132); (8134, 8147);
   (8150, 8155); (8157, 8175); (8178, 8180); (8182, 8190); (8208, 8231);
   (8240, 8286); (8304, 8305); (8308, 8334); (8336, 8348); (8352, 8384);
   (8400, 8432); (8448, 8587); (8592, 9254); (9280, 9290); (9312, 11123);
   (11126, 11157); (11159, 11507); (11513, 11557); (11559, 11559);
   (11565, 11565); (11568, 11623); (11631, 11632); (11647, 11670);
   (11680, 11686); (11688, 11694); (11696, 11702); (11704, 11710);
   (11712, 11718); (11720, 11726); (11728, 11734); (11736, 11742);
   (11744, 11869); (11904, 11929); (11931, 12019); (12032, 12245);
   (12272, 12283); (12289, 12351); (12353, 12438); (12441, 12543);
   (12549, 12591); (12593, 12686); (12688, 12771); (12784, 12830);
   (12832, 42124); (42128, 42182); (42192, 42539); (42560, 42743);
   (42752, 42954); (42960, 42961); (42963, 42963); (42965, 42969);
   (42994, 43052); (43056, 43065); (43072, 43127); (43136, 43205);
   (43214, 43225); (43232, 43347); (43359, 43388); (43392, 43469);
   (43471, 43481); (43486, 43518); (43520, 43574); (43584, 43597);
   (43600, 43609); (43612, 43714); (43739, 43766); (43777, 43782);
   (43785, 43790); (43793, 43798); (43808, 43814); (43816, 43822);
   (43824, 43883); (43888, 44013); (44016, 44025); (44032, 55203);
   (55216, 55238); (55243, 55291); (63744, 64109); (64112, 64217);
   (64256, 64262); (64275, 64279); (64285, 64310); (64312, 64316);
   (64318, 64318); (64320, 64321); (64323, 64324); (64326, 64450);
   (64467, 64911); (64914, 64967); (64975, 64975); (65008, 65049);
   (65056, 65106); (65108, 65126); (65128, 65131); (65136, 65140);
   (65142, 65276); (65281, 65470); (65474, 65479); (65482, 65487);
   (65490, 65495); (65498, 65500); (65504, 65510); (65512, 65518);
   (65532, 65533); (65536, 65547); (65549, 65574); (65576, 65594);
   (65596, 65597); (65599, 65613); (65616, 65629); (65664, 65786);
   (65792, 65794); (65799, 65843); (65847, 65934); (65936, 65948);
   (65952, 65952); (66000, 66045); (66176, 66204); (66208, 66256);
   (66272, 66299); (66304, 66339); (66349, 66378); (66384, 66426);
   (66432, 66461); (66463, 66499); (66504, 66517); (66560, 66717);
   (66720, 66729); (66736, 66771); (66776, 66811); (66816, 66855);
   (66864, 66915); (66927, 66938); (66940, 66954); (66956, 66962);
   (66964, 66965); (66967, 66977); (66979, 66993); (66995, 67001);
   (67003, 67004); (67072, 67382); (67392, 67413); (67424, 67431);
   (67456, 67461); (67463, 67504); (67506, 67514); (67584, 67589);
   (67592, 67592); (67594, 67637); (67639, 67640); (67644, 67644);
   (67647, 67669); (67671, 67742); (67751, 67759); (67808, 67826);
   (67828, 67829); (67835, 67867); (67871, 67897); (67903, 67903);
   (67968, 68023); (68028, 68047); (68050, 68099); (68101, 68102);
   (68108, 68115); (68117, 68119); (68121, 68149); (68152, 68154);
   (68159, 68168); (68176, 68184); (68192, 68255); (68288, 68326);
   (68331, 68342); (68352, 68405); (68409, 68437); (68440, 68466);
   (68472, 68497); (68505, 68508); (68521, 68527); (68608, 68680);
   (68736, 68786); (68800, 68850); (68858, 68903); (68912, 68921);
   (69216, 69246); (69248, 69289); (69291, 69293); (69296, 69297);
   (69376, 69415); (69424, 69465); (69488, 69513); (69552, 69579);
   (69600, 69622); (69632, 69709); (69714, 69749); (69759, 69820);
   (69822, 69826); (69840, 69864); (69872, 69881); (69888, 69940);
   (69942, 69959); (69968, 70006); (70016, 70111); (70113, 70132);
   (70144, 70161); (70163, 70206); (70272, 70278); (70280, 70280);
   (70282, 70285); (70287, 70301); (70303, 70313); (70320, 70378);
   (70384, 70393); (70400, 70403); (70405, 70412); (70415, 70416);
   (70419, 70440); (70442, 70448); (70450, 70451); (70453, 70457);
   (70459, 70468); (70471, 70472); (70475, 70477); (70480, 70480);
   (70487, 70487); (70493, 70499); (70502, 70508); (70512, 70516);
   (70656, 70747); (70749, 70753); (70784, 70855); (70864, 70873);
   (71040, 71093); (71096, 71133); (71168, 71236); (71248, 71257);
   (71264, 71276); (71296, 71353); (71360, 71369); (71424, 71450);
   (71453, 71467); (71472, 71494); (71680, 71739); (71840, 71922);
   (71935, 71942); (71945, 71945); (71948, 71955); (71957, 71958);
   (71960, 71989); (71991, 71992); (71995, 72006); (72016, 72025);
   (72096, 72103); (72106, 72151); (72154, 72164); (72192, 72263);
   (72272, 72354); (72368, 72440); (72704, 72712); (72714, 72758);
   (72760, 72773); (72784, 72812); (72816, 72847); (72850, 72871);
   (72873, 72886); (72960, 72966); (72968, 72969); (72971, 73014);
   (73018, 73018); (73020, 73021); (73023, 73031); (73040, 73049);
   (73056, 73061); (73063, 73064); (73066, 73102); (73104, 73105);
   (73107, 73112); (73120, 73129); (73440, 73464); (73648, 73648);
   (73664, 73713); (73727, 74649); (74752, 74862); (74864, 74868);
   (74880, 75075); (77712, 77810); (77824, 78894); (82944, 83526);
   (92160, 92728); (92736, 92766); (92768, 92777); (92782, 92862);
   (92864, 92873); (92880, 92909); (92912, 92917); (92928, 92997);
   (93008, 93017); (93019, 93025); (93027, 93047); (93053, 93071);
   (93760, 93850); (93952, 94026); (94031, 94087); (94095, 94111);
   (94176, 94180); (94192, 94193); (94208, 100343); (100352, 101589);
   (101632, 101640); (110576, 110579); (110581, 110587); (110589, 110590);
   (110592, 110882); (110928, 110930); (110948, 110951); (110960, 111355);
   (113664, 113770); (113776, 113788); (113792, 113800); (113808, 113817);
   (113820, 113823); (118528, 118573); (118576, 118598); (118608, 118723);
   (118784, 119029); (119040, 119078); (119081, 119154); (119163, 119274);
   (119296, 119365); (119520, 119539); (119552, 119638); (119648, 119672);
   (119808, 119892); (119894, 119964); (119966, 119967); (119970, 119970);
   (119973, 119974); (119977, 119980); (119982, 119993); (119995, 119995);
   (119997, 120003); (120005, 120069); (120071, 120074); (120077, 120084);
   (120086, 120092); (120094, 120121); (120123, 120126); (120128, 120132);
   (120134, 120134); (120138, 120144); (120146, 120485); (120488, 120779);
   (120782, 121483); (121499, 121503); (121505, 121519); (122624, 122654);
   (122880, 122886); (122888, 122904); (122907, 122913); (122915, 122916);
   (122918, 122922); (123136, 123180); (123184, 123197); (123200, 123209);
   (123214, 123215); (123536, 123566); (123584, 123641); (123647, 123647);
   (124896, 124902); (124904, 124907); (124909, 124910); (124912, 124926);
   (124928, 125124); (125127, 125142); (125184, 125259); (125264, 125273);
   (125278, 125279); (126065, 126132); (126209, 126269); (126464, 126467);
   (126469, 126495); (126497, 126498); (126500, 126500); (126503, 126503);
   (126505, 126514); (126516, 126519); (126521, 126521); (126523, 126523);
   (126530, 126530); (126535, 126535); (126537, 126537); (126539, 126539);
   (126541, 126543); (126545, 126546); (126548, 126548); (126551, 126551);
   (126553, 126553); (126555, 126555); (126557, 126557); (126559, 126559);
   (126561, 126562); (126564, 126564); (126567, 126570); (126572, 126578);
   (126580, 126583); (126585, 126588); (126590, 126590); (126592, 126601);
   (126603, 126619); (126625, 126627); (126629, 126633); (126635, 126651);
   (126704, 126705); (126976, 127019); (127024, 127123); (127136, 127150);
   (127153, 127167); (127169, 127183); (127185, 127221); (127232, 127405);
   (127462, 127490); (127504, 127547); (127552, 127560); (127568, 127569);
   (127584, 127589); (127744, 128727); (128733, 128748); (128752, 128764);
   (128768, 128883); (128896, 128984); (128992, 129003); (129008, 129008);
   (129024, 129035); (129040, 129095); (129104, 129113); (129120, 129159);
   (129168, 129197); (129200, 129201); (129280, 129619); (129632, 129645);
   (129648, 129652); (129656, 129660); (129664, 129670); (129680, 129708);
   (129712, 129722); (129728, 129733); (129744, 129753); (129760, 129767);
   (129776, 129782); (129792, 129938); (129940, 129994); (130032, 130041);
   (131072, 173791); (173824, 177976); (177984, 178205); (178208, 183969);
   (183984, 191456); (194560, 195101); (196608, 201546); (917760, 917999)]%N.

(** [str.isprintable] on one code point *)
Definition printable (c : N) : bool :=
  existsb (λ r, (r.1 <=? c) && (c <=? r.2))%N printable_ranges.

Definition repr_char (quote c : N) : string :=
  if (c =? quote)%N || (c =? 92)%N
  then String "\"%char (Utf8.encode_char c)
  else if (c =? 9)%N then "\t"
  else if (c =? 10)%N then "\n"
  else if (c =? 13)%N then "\r"
  else if printable c then Utf8.encode_char c
  else if (c <? 256)%N then "\x" +:+ hex 2 c
  else if (c <? 65536)%N then "\u" +:+ hex 4 c
  else "\U" +:+ hex 8 c.

Definition repr_body (quote : N) (s : string) : string :=
  String.concat "" (map (repr_char quote) (Utf8.points s)).

(** [repr(s)] of a [str] *)
Definition repr_str (s : string) : string :=
  let quote :=
    if Str.contains "'"%char s && negb (Str.contains "034"%char s)
    then "034"%char else "'"%char in
  String quote (repr_body (N_of_ascii quote) s +:+ String quote "").

End Py.

Inductive errno :=
  ENOENT | EBUSY | EEXIST | ENOTDIR | EISDIR | EINVAL | ENOTEMPTY.

(** The exceptions that can reach the [except] clauses of the handler. *)
Inductive exn :=
| JSONDecodeError (msg : string)
| UnicodeDecodeError (codec detail : string)
| RecursionError (detail : string)
| AttributeError (type_name attribute : string)
| TypeError_write (type_name : string)
| TypeError_join (type_name : string)
| ValueError_null_byte
| OSError (e : errno) (filename : string).

Module Exn.

Definition errno_number (e : errno) : string :=
  match e with
  | ENOENT => "2" | EBUSY => "16" | EEXIST => "17"
  | ENOTDIR => "20" | EISDIR => "21" | EINVAL => "22" | ENOTEMPTY => "39"
  end.

(** [os.strerror] *)
Definition strerror (e : errno) : string :=
  match e with
  | ENOENT => "No such file or directory"
  | EBUSY => "Device or resource busy"
  | EEXIST => "File exists"
  | ENOTDIR => "Not a directory"
  | EISDIR => "Is a directory"
  | EINVAL => "Invalid argument"
  | ENOTEMPTY => "Directory not empty"
  end.

(** [str(e)] *)
Definition str (e : exn) : string :=
  match e with
  | JSONDecodeError msg => msg
  | UnicodeDecodeError codec detail =>
      "'" +:+ codec +:+ "' codec can't decode " +:+ detail
  | RecursionError detail => "maximum recursion depth exceeded" +:+ detail
  | AttributeError ty attr =>
      "'" +:+ ty +:+ "' object has no attribute '" +:+ attr +:+ "'"
  | TypeError_write ty => "write() argument must be str, not " +:+ ty
  | TypeError_join ty =>
      "join() argument must be str, bytes, or os.PathLike object, not '"
      +:+ ty +:+ "'"
  | ValueError_null_byte => "embedded null byte"
  | OSError e filename =>
      "[Errno " +:+ errno_number e +:+ "] " +:+ strerror e +:+ ": "
      +:+ Py.repr_str filename
  end.

End Exn.

(** ** The file system *)

Inductive node :=
| File (content : string)
| Dir (entries : gmap string node).

Module Tree.

(** The node at a list of names below [n]. *)
Fixpoint lookup_node (n : node) (cs : list string) : option node :=
  match cs with
  | [] => Some n
  | c :: cs' =>
      match n with
      | Dir m => match m !! c with
                 | Some n' => lookup_node n' cs'
                 | None => None
                 end
      | File _ => None
      end
  end.

(** Put ([Some]) or remove ([None]) the entry at [cs]; the directory that
    holds it must exist, and the root itself is never replaced. *)
Fixpoint store_node (n : node) (cs : list string) (v : option node) : node :=
  match cs, n with
  | [c], Dir m =>
      Dir (match v with Some x => <[c:=x]> m | None => delete c m end)
  | c :: cs', Dir m =>
      match m !! c with
      | Some n' => Dir (<[c:=store_node n' cs' v]> m)
      | None => n
      end
  | _, _ => n
  end.

Definition is_dir (o : option node) : bool :=
  match o with Some (Dir _) => true | _ => false end.

Definition is_file (o : option node) : bool :=
  match o with Some (File _) => true | _ => false end.

End Tree.

(** What the kernel does with a path. *)
Module Sys.
Import Str Tree.

(** Path resolution from the directory [cur]: every component is looked
    up in a directory that exists; the last name itself need not. *)
Fixpoint walk (fs : node) (cur : list string) (comps : list string)
    : errno + list string :=
  match comps with
  | [] => inr cur
  | c :: rest =>
      match lookup_node fs cur with
      | Some (Dir _) =>
          if bool_decide (c = "" ∨ c = ".") then walk fs cur rest
          else if bool_decide (c = "..") then walk fs (removelast cur) rest
          else walk fs (cur ++ [c]) rest
      | Some (File _) => inl ENOTDIR
      | None => inl ENOENT
      end
  end.

Definition namei (fs : node) (cwd : list string) (path : string)
    : errno + list string :=
  if nonempty path
  then walk fs (if PosixPath.isabs path then [] else cwd) (split_sep path)
  else inl ENOENT.

Definition stat (fs : node) (cwd : list string) (path : string)
    : errno + node :=
  match namei fs cwd path with
  | inr cs => match lookup_node fs cs with
              | Some n => inr n
              | None => inl ENOENT
              end
  | inl e => inl e
  end.

(** [mkdir(2)]; a trailing slash is allowed.  The new name is taken
    whatever its length: the limits of the host are hypotheses of the
    properties ([Terms.within_limits]). *)
Definition mkdir (fs : node) (cwd : list string) (path : string)
    : errno + node :=
  match namei fs cwd (if all_sep path then path else rstrip_sep path) with
  | inr cs => match lookup_node fs cs with
              | Some _ => inl EEXIST
              | None => inr (store_node fs cs (Some (Dir ∅)))
              end
  | inl e => inl e
  end.

(** [open(2)] with [O_WRONLY|O_CREAT|O_TRUNC]: the location of the file,
    and the file system with the file empty.  A path that ends with a
    slash names a directory.  As for [mkdir], a new name is taken
    whatever its length. *)
Definition open_trunc (fs : node) (cwd : list string) (path : string)
    : errno + (list string * node) :=
  match namei fs cwd (if all_sep path then path else rstrip_sep path) with
  | inr cs =>
      if endswith_sep path then inl EISDIR
      else match lookup_node fs cs with
           | Some (Dir _) => inl EISDIR
           | _ => inr (cs, store_node fs cs (Some (File "")))
           end
  | inl e => inl e
  end.

(** [unlink(2)] *)
Definition unlink (fs : node) (cwd : list string) (path : string)
    : errno + node :=
  match namei fs cwd path with
  | inr cs => match lookup_node fs cs with
              | Some (File _) => inr (store_node fs cs None)
              | Some (Dir _) => inl EISDIR
              | None => inl ENOENT
              end
  | inl e => inl e
  end.

(** [rmdir(2)]: the last name of the path is neither "." nor "..", and
    the directory is empty and is not the root. *)
Definition rmdir (fs : node) (cwd : list string) (path : string)
    : errno + node :=
  let path := if all_sep path then path else rstrip_sep path in
  match namei fs cwd path with
  | inr cs =>
      let name := List.last (split_sep path) "" in
      if bool_decide (name = ".") then inl EINVAL
      else if bool_decide (name = "..") then inl ENOTEMPTY
      else match lookup_node fs cs, cs with
           | Some (Dir _), [] => inl EBUSY
           | Some (Dir m), _ =>
               if bool_decide (size m = 0) then inr (store_node fs cs None)
               else inl ENOTEMPTY
           | Some (File _), _ => inl ENOTDIR
           | None, _ => inl ENOENT
           end
  | inl e => inl e
  end.

(** [unlinkat(2)] on a name of the directory open at [loc] *)
Definition unlinkat (fs : node) (loc : list string) (name : string)
    : errno + node :=
  match lookup_node fs (loc ++ [name]) with
  | Some (File _) => inr (store_node fs (loc ++ [name]) None)
  | Some (Dir _) => inl EISDIR
  | None => inl ENOENT
  end.

(** [unlinkat(2)] with [AT_REMOVEDIR] *)
Definition rmdirat (fs : node) (loc : list string) (name : string)
    : errno + node :=
  match lookup_node fs (loc ++ [name]) with
  | Some (Dir m) =>
      if bool_decide (size m = 0)
      then inr (store_node fs (loc ++ [name]) None)
      else inl ENOTEMPTY
  | Some (File _) => inl ENOTDIR
  | None => inl ENOENT
  end.

(** The number of bytes of a text, which is held in UTF-8. *)
Definition utf8_length (s : string) : Z := Z.of_nat (String.length s).

(** A text file read with universal newlines: each of CR LF and CR
    becomes LF. *)
Fixpoint universal_newlines (s : string) : string :=
  match s with
  | String "013" s' =>
      String "010" (match s' with
                    | String "010" s'' => universal_newlines s''
                    | _ => universal_newlines s'
                    end)
  | String a s' => String a (universal_newlines s')
  | "" => ""
  end.

End Sys.

(** ** The handler's monad: a world, and exceptions *)

(** The resolver leaves a record of each path it computes. *)
Inductive event := Resolved (relative safe_path : string).

Record world := World {
  fs : node;
  cwd : list string;
  trace : list event
}.

Definition M (A : Type) : Type := world → (exn + A) * world.

Definition ret {A} (a : A) : M A := λ w, (inr a, w).

Definition bind {A B} (m : M A) (f : A → M B) : M B := λ w,
  match m w with
  | (inr a, w') => f a w'
  | (inl e, w') => (inl e, w')
  end.

Notation "'let*' x ':=' c1 'in' c2" := (bind c1 (λ x, c2))
  (at level 10, x name, c1 at level 100, c2 at level 200).
Notation "c1 ;; c2" := (bind c1 (λ _, c2))
  (at level 100, c2 at level 200, right associativity).

Definition raise {A} (e : exn) : M A := λ w, (inl e, w).

(** [try: body except <handler>] *)
Definition try_except {A} (body : M A) (handler : exn → M A) : M A := λ w,
  match body w with
  | (inl e, w') => handler e w'
  | r => r
  end.

Definition read_world {A} (f : world → A) : M A := λ w, (inr (f w), w).

Definition set_fs (fs' : node) : M unit := λ w,
  (inr (), World fs' (cwd w) (trace w)).

Definition log (ev : event) : M unit := λ w,
  (inr (), World (fs w) (cwd w) (trace w ++ [ev])).

Definition lift_errno {A} (filename : string) (r : errno + A) : M A :=
  match r with
  | inr a => ret a
  | inl e => raise (OSError e filename)
  end.

(** ** [os], [os.path] and file objects *)

Module Os.
Import Str Tree.

Definition has_null_byte (path : string) : bool := contains "000"%char path.

(** A system call on a path: [ValueError] before the kernel is reached
    when the path embeds a null byte, [OSError] when the call fails. *)
Definition syscall {A} (path : string)
    (call : node → list string → string → errno + A) : M A :=
  if has_null_byte path then raise ValueError_null_byte
  else let* r := read_world (λ w, call (fs w) (cwd w) path) in lift_errno path r.

(** [os.stat] inside [os.path.exists] and its kin, which answer [False]
    on [OSError] and [ValueError]. *)
Definition try_stat (w : world) (path : string) : option node :=
  if has_null_byte path then None
  else match Sys.stat (fs w) (cwd w) path with
       | inr n => Some n
       | inl _ => None
       end.

Definition exists_ (w : world) (path : string) : bool :=
  bool_decide (is_Some (try_stat w path)).

Definition isdir (w : world) (path : string) : bool :=
  is_dir (try_stat w path).

Definition isfile (w : world) (path : string) : bool :=
  is_file (try_stat w path).

Definition path_exists (path : string) : M bool :=
  read_world (λ w, exists_ w path).
Definition path_isdir (path : string) : M bool :=
  read_world (λ w, isdir w path).
Definition path_isfile (path : string) : M bool :=
  read_world (λ w, isfile w path).

(** [os.path.getsize] *)
Definition getsize (path : string) : M Z :=
  let* n := syscall path Sys.stat in
  ret (match n with File c => Sys.utf8_length c | Dir _ => 4096%Z end).

(** [os.listdir].  The host gives the names in an order of its own; the
    model gives them in the order of [map_to_list], and a property about
    a listing is stated for the names the call returns, or up to a
    permutation. *)
Definition listdir (path : string) : M (list string) :=
  let* n := syscall path Sys.stat in
  match n with
  | Dir m => ret (map_to_list m).*1
  | File _ => raise (OSError ENOTDIR path)
  end.

Definition mkdir (path : string) : M unit :=
  let* fs' := syscall path Sys.mkdir in set_fs fs'.

(** [os.makedirs(name, exist_ok=True)]; the recursion is on [head], a
    proper prefix of [name], so [length name] rounds are enough.  The
    limit of the interpreter on nested calls is not part of this
    function: a property that creates directories states it as a
    hypothesis ([Terms.within_limits]). *)
Fixpoint makedirs_rec (fuel : nat) (name : string) : M unit :=
  match fuel with
  | 0 => raise (RecursionError "")
  | S fuel' =>
      let (head, tail) := PosixPath.split name in
      let (head, tail) :=
        if nonempty tail then (head, tail) else PosixPath.split head in
      let* create :=
        (if nonempty head && nonempty tail then
           let* present := path_exists head in
           if present then ret true
           else
             try_except (makedirs_rec fuel' head)
               (λ e, match e with
                     | OSError EEXIST _ => ret ()
                     | _ => raise e
                     end);;
             ret (negb (bool_decide (tail = ".")))
         else ret true) in
      if create then
        try_except (mkdir name)
          (λ e, match e with
                | OSError _ _ =>
                    let* d := path_isdir name in
                    if d then ret () else raise e
                | _ => raise e
                end)
      else ret ()
  end.

Definition makedirs (name : string) : M unit :=
  makedirs_rec (S (String.length name)) name.

(** [open(path, "w")]: the handle is the location of the file. *)
Definition open_w (path : string) : M (list string) :=
  let* r := syscall path Sys.open_trunc in
  set_fs r.2;;
  ret r.1.

(** [f.write(content)] followed by the close that ends the [with]. *)
Definition file_write (f : list string) (content : pyval) : M unit :=
  match content with
  | PStr s =>
      let* fs0 := read_world fs in set_fs (store_node fs0 f (Some (File s)))
  | v => raise (TypeError_write (Py.type_name v))
  end.

(** [open(path, "r")] *)
Definition open_r (path : string) : M (list string) :=
  syscall path (λ fs cwd p,
    match Sys.namei fs cwd p with
    | inr cs => match lookup_node fs cs with
                | Some (File _) => inr cs
                | Some (Dir _) => inl EISDIR
                | None => inl ENOENT
                end
    | inl e => inl e
    end).

(** [f.read()] in text mode, on a file whose bytes are UTF-8; the
    [UnicodeDecodeError] of other bytes is not part of this function, and
    a property about reading a file that was not written by the handler
    states that its bytes are valid ([Utf8.valid]). *)
Definition file_read (f : list string) : M string :=
  read_world (λ w, match lookup_node (fs w) f with
                   | Some (File c) => Sys.universal_newlines c
                   | _ => ""
                   end).

(** [os.remove] *)
Definition remove (path : string) : M unit :=
  let* fs' := syscall path Sys.unlink in set_fs fs'.

Definition rmdir (path : string) : M unit :=
  let* fs' := syscall path Sys.rmdir in set_fs fs'.

(** A call on a name of the directory open at [loc]. *)
Definition at_fd (loc : list string) (name : string)
    (call : node → list string → string → errno + node) : M unit :=
  let* r := read_world (λ w, call (fs w) loc name) in
  let* fs' := lift_errno name r in
  set_fs fs'.

(** [list(os.scandir(fd))] on what is open at [loc]: the entries of the
    directory with what each one is, in the order of its table. *)
Definition scandir (loc : list string) (path : string)
    : M (list (string * node)) :=
  let* fs0 := read_world fs in
  match lookup_node fs0 loc with
  | Some (Dir m) => ret (map_to_list m)
  | Some (File _) => raise (OSError ENOTDIR path)
  | None => raise (OSError ENOENT path)
  end.

(** [for a in l: body(a)] *)
Fixpoint for_each {A} (l : list A) (body : A → M unit) : M unit :=
  match l with
  | [] => ret ()
  | a :: l' => body a;; for_each l' body
  end.

(** [sys.getrecursionlimit()], which the server leaves at its default.
    The calls that are already open when the handler runs take their
    part of it; they are not counted here. *)
Definition recursion_limit : nat := 1000.

(** [_rmtree_safe_fd(topfd, path, onerror)] with the [onerror] that
    raises: the function calls itself once for every level of the tree,
    and the interpreter refuses the call that exceeds its limit. *)
Fixpoint rmtree_safe_fd (calls : nat) (loc : list string) (path : string)
    : M unit :=
  match calls with
  | 0 => raise (RecursionError "")
  | S calls' =>
      let* entries := scandir loc path in
      for_each entries (λ entry,
        let fullname := PosixPath.join path entry.1 in
        match entry.2 with
        | Dir _ =>
            rmtree_safe_fd calls' (loc ++ [entry.1]) fullname;;
            at_fd loc entry.1 Sys.rmdirat
        | File _ => at_fd loc entry.1 Sys.unlinkat
        end)
  end.

(** [shutil.rmtree]: what the directory holds goes first, then
    [os.rmdir(path)] takes the directory itself; the root directory can be
    emptied but not removed. *)
Definition rmtree (path : string) : M unit :=
  let* cs := syscall path Sys.namei in
  let* fs0 := read_world fs in
  match lookup_node fs0 cs with
  | Some _ => rmtree_safe_fd recursion_limit cs path;; rmdir path
  | None => raise (OSError ENOENT path)
  end.

End Os.

(** ** [fnmatch] *)

Module Fnmatch.

(** A pattern as [fnmatch.translate] reads it; a set is a list of
    ranges, a single character being the range from itself to itself. *)
Inductive token :=
| Star
| AnyChar
| CharSet (negated : bool) (ranges : list (N * N))
| Literal (a : ascii).

(** The text up to the first "]" and the text after it. *)
Fixpoint until_close (s : string) : option (string * string) :=
  match s with
  | String a s' =>
      if bool_decide (a = "]"%char) then Some ("", s')
      else match until_close s' with
           | Some (b, r) => Some (String a b, r)
           | None => None
           end
  | "" => None
  end.

(** The text of a set up to its closing "]" (a "]" that comes first
    belongs to the set), and the text after it. *)
Definition set_body (s : string) : option (string * string) :=
  match s with
  | String a s' =>
      if bool_decide (a = "]"%char) then
        match until_close s' with
        | Some (b, r) => Some (String a b, r)
        | None => None
        end
      else until_close s
  | "" => None
  end.

(** After a "[": an optional "!", then the set, then the rest. *)
Definition bracket (s : string) : option (bool * string * string) :=
  match s with
  | String a s' =>
      if bool_decide (a = "!"%char) then
        match set_body s' with
        | Some (b, r) => Some (true, b, r)
        | None => None
        end
      else
        match set_body s with
        | Some (b, r) => Some (false, b, r)
        | None => None
        end
  | "" => None
  end.

(** The ranges of a set, given by its code points: a hyphen between two
    characters makes a range, unless its left neighbour already ends
    one. *)
Fixpoint ranges_of (set : list N) : list (N * N) :=
  match set with
  | c :: rest =>
      match rest with
      | h :: d :: rest' =>
          if (h =? 45)%N then (c, d) :: ranges_of rest'
          else (c, c) :: ranges_of rest
      | _ => (c, c) :: ranges_of rest
      end
  | [] => []
  end.

Fixpoint translate_rec (fuel : nat) (pat : string) : list token :=
  match fuel, pat with
  | S fuel', String c rest =>
      if bool_decide (c = "*"%char) then Star :: translate_rec fuel' rest
      else if bool_decide (c = "?"%char)
      then AnyChar :: translate_rec fuel' rest
      else if bool_decide (c = "["%char) then
        match bracket rest with
        | Some (negated, body, rest') =>
            CharSet negated (ranges_of (Utf8.points body))
            :: translate_rec fuel' rest'
        | None => Literal c :: translate_rec fuel' rest
        end
      else Literal c :: translate_rec fuel' rest
  | _, _ => []
  end.

(** [fnmatch.translate]; every round consumes a character. *)
Definition translate (pat : string) : list token :=
  translate_rec (String.length pat) pat.

Definition in_ranges (ranges : list (N * N)) (c : N) : bool :=
  existsb (λ r, (r.1 <=? c) && (c <=? r.2))%N ranges.

(** A full match of the name against the translated pattern.  A
    question mark and a set take one character of the name, that is one
    code point; a literal is compared byte by byte.  A star is tried at
    every byte: what follows it matches only where a character starts,
    since a literal begins with the first byte of a character and
    [Utf8.next_char] refuses a byte from the middle of one. *)
Fixpoint matches (ts : list token) (name : string) : bool :=
  match ts with
  | [] => negb (Str.nonempty name)
  | Star :: ts' =>
      (fix star (s : string) : bool :=
         matches ts' s
         || match s with String _ s' => star s' | "" => false end) name
  | AnyChar :: ts' =>
      match Utf8.next_char name with
      | Some (_, s') => matches ts' s'
      | None => false
      end
  | CharSet negated ranges :: ts' =>
      match Utf8.next_char name with
      | Some (c, s') => xorb negated (in_ranges ranges c) && matches ts' s'
      | None => false
      end
  | Literal c :: ts' =>
      match name with
      | String a s' => bool_decide (a = c) && matches ts' s'
      | "" => false
      end
  end.

(** [fnmatch.filter(names, pat)] on POSIX, where [normcase] is the
    identity. *)
Definition filter (names : list string) (pat : string) : list string :=
  List.filter (matches (translate pat)) names.

End Fnmatch.

(** ** [glob.glob], not recursive *)

Module Glob.
Import Str Tree.

Definition has_magic (s : string) : bool :=
  contains "*"%char s || contains "?"%char s || contains "["%char s.

(** [_ishidden]; the names and patterns it is given are not empty. *)
Definition ishidden (s : string) : bool := startswith s ".".

(** [glob._join] *)
Definition join (dirname basename : string) : string :=
  if negb (nonempty dirname) then basename
  else if negb (nonempty basename) then dirname
  else PosixPath.join dirname basename.

(** [list(_iterdir(dirname, None, dironly))]: [os.scandir] with every
    [OSError] swallowed, so that a missing directory lists nothing. *)
Definition listdir (w : world) (dirname : string) (dironly : bool)
    : exn + list string :=
  let arg := if nonempty dirname then dirname else "." in
  if Os.has_null_byte arg then inl ValueError_null_byte
  else match Sys.stat (fs w) (cwd w) arg with
       | inr (Dir m) =>
           inr (List.filter (λ e, negb dironly || is_dir (Some e.2))
                  (map_to_list m)).*1
       | _ => inr []
       end.

Definition glob1 (w : world) (dirname pattern : string) (dironly : bool)
    : exn + list string :=
  match listdir w dirname dironly with
  | inr names =>
      let names :=
        if ishidden pattern then names
        else List.filter (λ x, negb (ishidden x)) names in
      inr (Fnmatch.filter names pattern)
  | inl e => inl e
  end.

Definition glob0 (w : world) (dirname basename : string) (dironly : bool)
    : exn + list string :=
  if nonempty basename then
    inr (if Os.exists_ w (join dirname basename) then [basename] else [])
  else
    inr (if Os.isdir w dirname then [basename] else []).

(** The loop [for dirname in dirs: for name in glob_in_dir(...)] *)
Fixpoint in_dirs (glob_in_dir : string → exn + list string)
    (dirs : list string) : exn + list string :=
  match dirs with
  | [] => inr []
  | dirname :: dirs' =>
      match glob_in_dir dirname with
      | inr names =>
          match in_dirs glob_in_dir dirs' with
          | inr more => inr (map (PosixPath.join dirname) names ++ more)
          | inl e => inl e
          end
      | inl e => inl e
      end
  end.

(** [_iglob(pathname, "", None, False, dironly)]; the recursion is on
    [dirname], a proper prefix of [pathname]. *)
Fixpoint iglob (fuel : nat) (w : world) (pathname : string)
    (dironly : bool) : exn + list string :=
  match fuel with
  | 0 => inl (RecursionError "")
  | S fuel' =>
      let (dirname, basename) := PosixPath.split pathname in
      if negb (has_magic pathname) then
        if nonempty basename then
          inr (if Os.exists_ w pathname then [pathname] else [])
        else
          inr (if Os.isdir w dirname then [pathname] else [])
      else if negb (nonempty dirname) then glob1 w "" basename dironly
      else
        let dirs :=
          if negb (bool_decide (dirname = pathname)) && has_magic dirname
          then iglob fuel' w dirname true
          else inr [dirname] in
        let glob_in_dir :=
          if has_magic basename then glob1 else glob0 in
        match dirs with
        | inr dirs =>
            in_dirs (λ d, glob_in_dir w d basename dironly) dirs
        | inl e => inl e
        end
  end.

(** [glob.glob(pathname)] *)
Definition glob (pathname : string) : M (list string) := λ w,
  (iglob (S (String.length pathname)) w pathname false, w).

End Glob.

(** ** The server *)

Module Server.
Import Str.

Section Handler.

(** [TEMP_DIR = tempfile.mkdtemp(prefix="fileops_")] *)
Variable TEMP_DIR : string.

(** [json.loads], a function of the request body *)
Variable json_loads : string → exn + pyval.

(** [{"error": msg}] *)
Definition error (msg : string) : gmap string pyval :=
  {[ "error" := PStr msg ]}.

(** [parameters.get(key)] *)
Definition get (parameters : pyval) (key : string) : M pyval :=
  match parameters with
  | PDict d => ret (default PNone (d !! key))
  | v => raise (AttributeError (Py.type_name v) "get")
  end.

(** [f"{v}"] of a value that is a [str] *)
Definition format (v : pyval) : string :=
  match v with PStr s => s | _ => "" end.

(** The sandbox resolver:
    [os.path.normpath(os.path.join(TEMP_DIR, relative.lstrip("/")))]. *)
Definition resolve (relative : string) : string :=
  PosixPath.normpath (PosixPath.join TEMP_DIR (lstrip_sep relative)).

(** The resolver on a parameter; only a [str] has [lstrip]. *)
Definition safe_path_of (v : pyval) : M string :=
  match v with
  | PStr s => log (Resolved s (resolve s));; ret (resolve s)
  | _ => raise (AttributeError (Py.type_name v) "lstrip")
  end.

Definition write_file (parameters : pyval) : M (gmap string pyval) :=
  let* filepath := get parameters "filepath" in
  let* content := get parameters "content" in
  if negb (Py.truthy filepath) then
    ret (error "filepath parameter is required")
  else if Py.is_none content then
    ret (error "content parameter is required")
  else
    let* safe_path := safe_path_of filepath in
    Os.makedirs (PosixPath.dirname safe_path);;
    let* f := Os.open_w safe_path in
    Os.file_write f content;;
    ret {[ "success" := PBool true; "filepath" := filepath ]}.

Definition read_file (parameters : pyval) : M (gmap string pyval) :=
  let* filepath := get parameters "filepath" in
  if negb (Py.truthy filepath) then
    ret (error "filepath parameter is required")
  else
    let* safe_path := safe_path_of filepath in
    let* found := Os.path_isfile safe_path in
    if negb found then
      ret (error ("File " +:+ format filepath +:+ " not found"))
    else
      let* f := Os.open_r safe_path in
      let* content := Os.file_read f in
      ret {[ "content" := PStr content; "filepath" := filepath ]}.

(** The body of the loop over [os.listdir(safe_path)] *)
Definition list_item (safe_path item : string) : M pyval :=
  let item_path := PosixPath.join safe_path item in
  let* is_directory := Os.path_isdir item_path in
  let* is_file := Os.path_isfile item_path in
  let* size :=
    (if is_file then let* n := Os.getsize item_path in ret (PInt n)
     else ret PNone) in
  ret (PDict {[ "name" := PStr item;
                "is_directory" := PBool is_directory;
                "size" := size ]}).

Fixpoint list_items (safe_path : string) (names : list string)
    : M (list pyval) :=
  match names with
  | [] => ret []
  | item :: names' =>
      let* entry := list_item safe_path item in
      let* entries := list_items safe_path names' in
      ret (entry :: entries)
  end.

Definition list_directory (parameters : pyval) : M (gmap string pyval) :=
  let* directory_path := get parameters "directory_path" in
  if negb (Py.truthy directory_path) then
    ret (error "directory_path parameter is required")
  else
    let* safe_path := safe_path_of directory_path in
    let* found := Os.path_isdir safe_path in
    (if negb found then Os.makedirs safe_path else ret ());;
    let* names := Os.listdir safe_path in
    let* items := list_items safe_path names in
    ret {[ "items" := PList items; "directory_path" := directory_path ]}.

(** [os.path.join(safe_path, pattern)] *)
Definition join_pattern (safe_path : string) (pattern : pyval) : M string :=
  match pattern with
  | PStr p => ret (PosixPath.join safe_path p)
  | v => raise (TypeError_join (Py.type_name v))
  end.

Definition getcwd (w : world) : string := "/" +:+ join_sep (cwd w).

Definition search_files (parameters : pyval) : M (gmap string pyval) :=
  let* directory_path := get parameters "directory_path" in
  let* pattern := get parameters "pattern" in
  if negb (Py.truthy directory_path) then
    ret (error "directory_path parameter is required")
  else if negb (Py.truthy pattern) then
    ret (error "pattern parameter is required")
  else
    let* safe_path := safe_path_of directory_path in
    let* found := Os.path_isdir safe_path in
    if negb found then
      ret (error ("Directory " +:+ format directory_path +:+ " not found"))
    else
      let* search_pattern := join_pattern safe_path pattern in
      let* matches := Glob.glob search_pattern in
      let* here := read_world getcwd in
      let relative_matches :=
        map (λ m, PStr (PosixPath.relpath here m TEMP_DIR)) matches in
      ret {[ "matches" := PList relative_matches;
             "pattern" := pattern;
             "directory_path" := directory_path ]}.

Definition delete_file (parameters : pyval) : M (gmap string pyval) :=
  let* filepath := get parameters "filepath" in
  if negb (Py.truthy filepath) then
    ret (error "filepath parameter is required")
  else
    let* safe_path := safe_path_of filepath in
    let* found := Os.path_exists safe_path in
    if negb found then
      ret (error ("File or directory " +:+ format filepath +:+ " not found"))
    else
      let* d := Os.path_isdir safe_path in
      (if d then Os.rmtree safe_path else Os.remove safe_path);;
      ret {[ "success" := PBool true; "filepath" := filepath ]}.

(** The chain of [if function_name == ...] *)
Definition operation (function_name : string) (parameters : pyval)
    : M (gmap string pyval) :=
  if bool_decide (function_name = "write_file") then write_file parameters
  else if bool_decide (function_name = "read_file")
  then read_file parameters
  else if bool_decide (function_name = "list_directory")
  then list_directory parameters
  else if bool_decide (function_name = "search_files")
  then search_files parameters
  else if bool_decide (function_name = "delete_file")
  then delete_file parameters
  else ret (error ("Function " +:+ function_name +:+ " not supported")).

(** [json.loads(body) if body else {}] *)
Definition parse (body : string) : M pyval :=
  if nonempty body then
    match json_loads body with
    | inr v => ret v
    | inl e => raise e
    end
  else ret (PDict ∅).

(** The two [except] clauses of the handler. *)
Definition on_exception (e : exn) : gmap string pyval :=
  match e with
  | JSONDecodeError _ => error "Invalid JSON in request body"
  | _ => error (Exn.str e)
  end.

(** [try: ... except ...] around a computation of the handler: what the
    handler returns, and the world it leaves. *)
Definition guarded (m : M (gmap string pyval)) (w : world)
    : gmap string pyval * world :=
  match m w with
  | (inr result, w') => (result, w')
  | (inl e, w') => (on_exception e, w')
  end.

(** [POST /mcp/{function_name}] *)
Definition handle_mcp_request (function_name body : string)
    : world → gmap string pyval * world :=
  guarded (let* parameters := parse body in
           operation function_name parameters).

(** The handler from the parsed parameters on. *)
Definition dispatch (function_name : string) (parameters : pyval)
    : world → gmap string pyval * world :=
  guarded (operation function_name parameters).

End Handler.

(** [GET /] *)
Definition root : gmap string pyval :=
  {[ "name" := PStr "FileOps MCP Server";
     "version" := PStr "1.0.0";
     "description" := PStr "MCP server for file operations";
     "functions" := PList [PStr "write_file"; PStr "read_file";
                           PStr "list_directory"; PStr "search_files";
                           PStr "delete_file"] ]}.

(** [GET /health] *)
Definition health_check : gmap string pyval :=
  {[ "status" := PStr "healthy" ]}.

End Server.

(** ** Vocabulary of the statements *)

Module Spec.
Import Str.

(** An absolute path in normal form, from its components. *)
Definition render (cs : list string) : string := "/" +:+ join_sep cs.

(** A component of a normal path: a name, neither empty nor "." nor "..",
    with no separator in it. *)
Definition clean (c : string) : Prop :=
  c ≠ "" ∧ c ≠ "." ∧ c ≠ ".." ∧ contains "/"%char c = false.

(** A piece of a path: not empty, without separator. *)
Definition piece (c : string) : Prop := c ≠ "" ∧ contains "/"%char c = false.

(** What [join] appends for the pieces after the first. *)
Definition tails (p : list string) : string :=
  fold_right (λ c acc, "/" +:+ c +:+ acc) "" p.

(** What [mkdtemp] gives: an absolute path that does not start with the
    two slashes POSIX sets apart. *)
Definition rooted (TEMP_DIR : string) : bool :=
  PosixPath.isabs TEMP_DIR && negb (startswith TEMP_DIR "//").

(** Containment as the specification words it: the path is the sandbox
    root, or has the root and a separator as a prefix. *)
Definition contained (TEMP_DIR path : string) : bool :=
  bool_decide (path = TEMP_DIR) || startswith path (TEMP_DIR +:+ "/").

(** [post m Q E]: from any world, [m] returns a value in [Q] or raises an
    exception in [E]. *)
Definition post {A} (m : M A) (Q : A → Prop) (E : exn → Prop) : Prop :=
  ∀ w, match (m w).1 with inr a => Q a | inl e => E e end.

(** The two shapes of a reply. *)
Definition is_error (r : gmap string pyval) : Prop :=
  ∃ msg, r = Server.error msg.

Definition is_success (r : gmap string pyval) : Prop :=
  (∃ filepath, r = {[ "success" := PBool true; "filepath" := filepath ]})
  ∨ (∃ content filepath,
       r = {[ "content" := PStr content; "filepath" := filepath ]})
  ∨ (∃ items directory_path,
       r = {[ "items" := PList items; "directory_path" := directory_path ]})
  ∨ (∃ matches pattern directory_path,
       r = {[ "matches" := PList matches; "pattern" := pattern;
              "directory_path" := directory_path ]}).

Definition invalid_json : gmap string pyval :=
  Server.error "Invalid JSON in request body".

Definition is_json_error (e : exn) : bool :=
  match e with JSONDecodeError _ => true | _ => false end.

(** An exception of the operations: any but a [JSONDecodeError]. *)
Definition plain (e : exn) : Prop := is_json_error e = false.

Definition anything {A} (_ : A) : Prop := True.

(** A reply of the handler proper: of one of the two shapes, and not the
    reply to a body that is not JSON. *)
Definition well_shaped (r : gmap string pyval) : Prop :=
  (is_error r ∨ is_success r) ∧ r ≠ invalid_json.

(** An exception other than [RecursionError]. *)
Definition no_overflow (e : exn) : Prop :=
  match e with RecursionError _ => False | _ => True end.

(** The message of the validation error for a parameter. *)
Definition required (name : string) : gmap string pyval :=
  Server.error (name +:+ " parameter is required").

(** The parameters an operation refuses when they are false, in the order
    of its checks. *)
Definition checked_parameters (function_name : string) : list string :=
  if bool_decide (function_name = "write_file") then ["filepath"]
  else if bool_decide (function_name = "read_file") then ["filepath"]
  else if bool_decide (function_name = "list_directory")
  then ["directory_path"]
  else if bool_decide (function_name = "search_files")
  then ["directory_path"; "pattern"]
  else if bool_decide (function_name = "delete_file") then ["filepath"]
  else [].

(** [parameters.get(key)] on a mapping *)
Definition param (d : gmap string pyval) (key : string) : pyval :=
  default PNone (d !! key).

(** The components of the path the resolver gives. *)
Definition resolved_components (TEMP_DIR relative : string) : list string :=
  PosixPath.normpath_comps (PosixPath.join TEMP_DIR (lstrip_sep relative)).

(** No regular file stands where the path, or one of the directories
    above it, should be. *)
Definition no_file_on_path (fs : node) (cs : list string) : bool :=
  forallb (λ k, negb (Tree.is_file (Tree.lookup_node fs (take k cs))))
    (seq 0 (S (length cs))).


(** What a path holds, seen from outside: nothing, a directory, or a
    regular file with its content. *)
Definition kind (o : option node) : option (option string) :=
  match o with
  | Some (File c) => Some (Some c)
  | Some (Dir _) => Some None
  | None => None
  end.

End Spec.

(** ** More vocabulary *)

Module Terms.
Import Str Tree.

(** The names [GET /] gives under "functions". *)
Definition advertised : list string :=
  match Server.root !! "functions" with
  | Some (PList l) =>
      omap (λ v, match v with PStr s => Some s | _ => None end) l
  | _ => []
  end.

(** The reply to a name that is none of the five operations. *)
Definition not_supported (function_name : string) : gmap string pyval :=
  Server.error ("Function " +:+ function_name +:+ " not supported").

(** A reply that is not the one to an unknown name. *)
Definition known (r : gmap string pyval) : Prop :=
  ∀ name, r ≠ not_supported name.

(** The parameter an operation resolves. *)
Definition path_parameter (function_name : string) : string :=
  if bool_decide (function_name = "list_directory"
                  ∨ function_name = "search_files")
  then "directory_path" else "filepath".

(** The checks at the head of an operation all pass. *)
Definition validated (function_name : string) (d : gmap string pyval)
    : bool :=
  forallb (λ name, Py.truthy (Spec.param d name))
    (Spec.checked_parameters function_name)
  && (negb (bool_decide (function_name = "write_file"))
      || negb (Py.is_none (Spec.param d "content"))).

(** The message of an [AttributeError]. *)
Definition no_attribute (v : pyval) (attribute : string) : string :=
  "'" +:+ Py.type_name v +:+ "' object has no attribute '" +:+ attribute
  +:+ "'".

Definition is_str (v : pyval) : bool :=
  match v with PStr _ => true | _ => false end.

Definition is_dict (v : pyval) : bool :=
  match v with PDict _ => true | _ => false end.

(** A component that [normpath] keeps where it stands. *)
Definition kept (c : string) : Prop := c ≠ "" ∧ c ≠ ".".

(** A name a directory can hold. *)
Definition valid_name (c : string) : Prop :=
  Spec.clean c ∧ contains "000"%char c = false.

(** The item of [list_directory] for a child of the directory. *)
Definition entry (child : string * node) : pyval :=
  PDict {[ "name" := PStr child.1;
           "is_directory" := PBool (is_dir (Some child.2));
           "size" := match child.2 with
                     | File c => PInt (Sys.utf8_length c)
                     | Dir _ => PNone
                     end ]}.

Definition PATH_MAX : Z := 4096.

(** A depth of nesting that keeps the recursions of [os.makedirs] and
    [shutil.rmtree], one call for a level, well below the 1000 nested
    calls of the interpreter when the framework has called the handler,
    and [shutil.rmtree], which holds a directory open for every level,
    below the number of files a process is allowed. *)
Definition nesting_allowed : nat := 200.


(** A tree of at most [k] levels of directories. *)
Fixpoint nested_within (k : nat) (n : node) : bool :=
  match k, n with
  | _, File _ => true
  | 0, Dir _ => false
  | S k', Dir m => forallb (nested_within k') (map_to_list m).*2
  end.

(** What a path holds is not nested too deep. *)
Definition shallow (o : option node) : bool :=
  match o with
  | Some n => nested_within nesting_allowed n
  | None => true
  end.

(** A computation that leaves the file system and the working directory
    as they are, whatever it returns or raises. *)
Definition read_only {A} (m : M A) : Prop :=
  ∀ w, fs (m w).2 = fs w ∧ cwd (m w).2 = cwd w.

End Terms.

(** ** A sandbox to run the handler in *)

Module Fixture.

Definition TEMP_DIR : string := "/tmp/fileops_k3x9w2ab".

(** The sandbox holds a directory [d] with two files and a subdirectory,
    and a file [f.txt]; [/etc] is outside of it. *)
Definition sandbox : node :=
  Dir {[ "d" := Dir {[ "a.txt" := File "alpha";
                       "b.log" := File "beta";
                       "sub" := Dir {[ "c.txt" := File "gamma" ]} ]};
         "f.txt" := File "phi" ]}.

Definition root : node :=
  Dir {[ "tmp" := Dir {[ "fileops_k3x9w2ab" := sandbox ]};
         "etc" := Dir ∅ ]}.

Definition start : world := World root [] [].

(** A text with a carriage return in the middle. *)
Definition two_lines_cr : string := String "a" (String "013" (String "b" "")).

Definition two_lines_lf : string := String "a" (String "010" (String "b" "")).

(** The [str] of a text given by its code points. *)
Definition utf8 (text : list N) : string := default "" (Utf8.encode text).

(** A text of two lines with code points of two, three and four bytes
    (U+00E9, U+20AC, U+1F600), and its bytes. *)
Definition accents : list N := [233; 8364; 10; 128512]%N.

Definition accents_utf8 : string := utf8 accents.

Definition request (function_name : string) (parameters : gmap string pyval)
    : gmap string pyval * world :=
  Server.dispatch TEMP_DIR function_name (PDict parameters) start.

(** [n] directories, each one in the one before. *)
Definition chain (n : nat) : node :=
  Nat.iter n (λ inner, Dir {[ "a" := inner ]}) (Dir ∅).

(** A sandbox whose directory [deep] holds a chain of 1000 directories,
    as 1000 calls of [list_directory] can build it. *)
Definition deep : world :=
  World (Dir {[ "tmp" := Dir {[ "fileops_k3x9w2ab" :=
                                  Dir {[ "deep" := chain 1000 ]} ]} ]})
    [] [].

End Fixture.

(** * Properties *)

(** ** The monad *)

Module Logic.
Import Spec.

Lemma post_ret {A} (a : A) (Q : A → Prop) E : Q a → post (ret a) Q E.
Proof. intros H w. exact H. Qed.

Lemma post_raise {A} (e : exn) (Q : A → Prop) (E : exn → Prop) :
  E e → post (raise e) Q E.
Proof. intros H w. exact H. Qed.

Lemma post_bind {A B} (m : M A) (f : A → M B) (P : A → Prop) Q E :
  post m P E → (∀ a, P a → post (f a) Q E) → post (bind m f) Q E.
Proof.
  intros Hm Hf w. specialize (Hm w). unfold bind.
  destruct (m w) as [[e|a] w']; simpl in *; [exact Hm|].
  apply (Hf a Hm w').
Qed.

Lemma post_mono {A} (m : M A) (P Q : A → Prop) (E F : exn → Prop) :
  post m P E → (∀ a, P a → Q a) → (∀ e, E e → F e) → post m Q F.
Proof.
  intros Hm HQ HE w. specialize (Hm w).
  destruct ((m w).1); auto.
Qed.

Lemma post_try {A} (body : M A) (handler : exn → M A) Q E E' :
  post body Q E' → (∀ e, E' e → post (handler e) Q E) →
  post (try_except body handler) Q E.
Proof.
  intros Hb Hh w. specialize (Hb w). unfold try_except.
  destruct (body w) as [[e|a] w']; simpl in *; [|exact Hb].
  apply (Hh e Hb w').
Qed.

Lemma post_read_world {A} (f : world → A) (Q : A → Prop) E :
  (∀ w, Q (f w)) → post (read_world f) Q E.
Proof. intros H w. apply H. Qed.

Lemma post_set_fs fs' (Q : unit → Prop) E : Q () → post (set_fs fs') Q E.
Proof. intros H w. exact H. Qed.

Lemma post_log ev (Q : unit → Prop) E : Q () → post (log ev) Q E.
Proof. intros H w. exact H. Qed.

Lemma bind_inr {A B} (m : M A) (f : A → M B) w a w' :
  m w = (inr a, w') → bind m f w = f a w'.
Proof. intros H. unfold bind. by rewrite H. Qed.

Lemma bind_inl {A B} (m : M A) (f : A → M B) w e w' :
  m w = (inl e, w') → bind m f w = (inl e, w').
Proof. intros H. unfold bind. by rewrite H. Qed.

End Logic.

(** ** Which exceptions, which replies *)

Module Replies.
Import Spec Logic Server.

Create HintDb post.

#[local] Hint Unfold plain anything : core.

Ltac post_step :=
  lazymatch goal with
  | |- post (bind _ _) _ _ =>
      apply post_bind with (P := anything); [|intros ? _]
  | |- post (ret _) _ _ => apply post_ret; try exact I
  | |- post (raise _) _ _ => apply post_raise; try reflexivity
  | |- post (read_world _) _ _ => apply post_read_world; intros; try exact I
  | |- post (set_fs _) _ _ => apply post_set_fs; try exact I
  | |- post (log _) _ _ => apply post_log; try exact I
  | |- post (if ?b then _ else _) _ _ => destruct b
  | |- post (match ?x with _ => _ end) _ _ => destruct x
  end.

Ltac post_steps := repeat (first [solve [eauto with post]|post_step]); auto.

Lemma syscall_plain {A} path (call : node → list string → string → errno + A) :
  post (Os.syscall path call) anything plain.
Proof.
  unfold Os.syscall. destruct (Os.has_null_byte path).
  - by apply post_raise.
  - apply post_bind with (P := anything); [by apply post_read_world|].
    intros [e|a] _; simpl; [by apply post_raise|by apply post_ret].
Qed.

#[export] Hint Resolve syscall_plain : post.

Lemma get_plain parameters key : post (get parameters key) anything plain.
Proof. unfold get. post_steps. Qed.

Lemma safe_path_of_plain T v : post (safe_path_of T v) anything plain.
Proof. unfold safe_path_of. post_steps. Qed.

Lemma path_exists_plain p : post (Os.path_exists p) anything plain.
Proof. unfold Os.path_exists. post_steps. Qed.

Lemma path_isdir_plain p : post (Os.path_isdir p) anything plain.
Proof. unfold Os.path_isdir. post_steps. Qed.

Lemma path_isfile_plain p : post (Os.path_isfile p) anything plain.
Proof. unfold Os.path_isfile. post_steps. Qed.

#[export] Hint Resolve get_plain safe_path_of_plain path_exists_plain
  path_isdir_plain path_isfile_plain : post.

Lemma getsize_plain p : post (Os.getsize p) anything plain.
Proof. unfold Os.getsize. post_steps. Qed.

Lemma listdir_plain p : post (Os.listdir p) anything plain.
Proof. unfold Os.listdir. post_steps. Qed.

Lemma mkdir_plain p : post (Os.mkdir p) anything plain.
Proof. unfold Os.mkdir. post_steps. Qed.

#[export] Hint Resolve getsize_plain listdir_plain mkdir_plain : post.

Lemma makedirs_rec_plain fuel name :
  post (Os.makedirs_rec fuel name) anything plain.
Proof.
  revert name. induction fuel as [|fuel IH]; intros name; simpl.
  { by apply post_raise. }
  destruct (PosixPath.split name) as [head tail].
  destruct (if Str.nonempty tail then (head, tail) else PosixPath.split head)
    as [head' tail'].
  eapply post_bind with (P := anything).
  - destruct (Str.nonempty head' && Str.nonempty tail'); [|by apply post_ret].
    apply post_bind with (P := anything); [apply path_exists_plain|].
    intros [] _; [by apply post_ret|].
    eapply post_bind with (P := anything); [|intros; by apply post_ret].
    eapply post_try; [apply IH|].
    intros e He. destruct e as [| | | | | | |[] ?]; post_steps.
  - intros [] _; [|by apply post_ret].
    eapply post_try; [apply mkdir_plain|].
    intros e He. destruct e; post_steps.
Qed.

Lemma makedirs_plain name : post (Os.makedirs name) anything plain.
Proof. apply makedirs_rec_plain. Qed.

Lemma open_w_plain p : post (Os.open_w p) anything plain.
Proof. unfold Os.open_w. post_steps. Qed.

Lemma file_write_plain f c : post (Os.file_write f c) anything plain.
Proof. unfold Os.file_write. post_steps. Qed.

Lemma open_r_plain p : post (Os.open_r p) anything plain.
Proof. unfold Os.open_r. post_steps. Qed.

Lemma file_read_plain f : post (Os.file_read f) anything plain.
Proof. unfold Os.file_read. post_steps. Qed.

Lemma remove_plain p : post (Os.remove p) anything plain.
Proof. unfold Os.remove. post_steps. Qed.

Lemma rmdir_plain p : post (Os.rmdir p) anything plain.
Proof. unfold Os.rmdir. post_steps. Qed.

#[export] Hint Resolve rmdir_plain : post.

Lemma at_fd_plain loc name call : post (Os.at_fd loc name call) anything plain.
Proof. unfold Os.at_fd, lift_errno. post_steps. Qed.

Lemma scandir_plain loc path : post (Os.scandir loc path) anything plain.
Proof. unfold Os.scandir. post_steps. Qed.

Lemma for_each_plain {A} (l : list A) (body : A → M unit) :
  (∀ a, post (body a) anything plain) →
  post (Os.for_each l body) anything plain.
Proof.
  intros Hbody. induction l as [|a l IH]; simpl; [by apply post_ret|].
  apply post_bind with (P := anything); [apply Hbody|by intros].
Qed.

Lemma rmtree_safe_fd_plain calls loc path :
  post (Os.rmtree_safe_fd calls loc path) anything plain.
Proof.
  revert loc path. induction calls as [|calls IH]; intros loc path; simpl.
  { by apply post_raise. }
  apply post_bind with (P := anything); [apply scandir_plain|].
  intros entries _. apply for_each_plain. intros [name []]; simpl.
  - apply at_fd_plain.
  - apply post_bind with (P := anything); [apply IH|].
    intros. apply at_fd_plain.
Qed.

#[export] Hint Resolve rmtree_safe_fd_plain : post.

Lemma rmtree_plain p : post (Os.rmtree p) anything plain.
Proof. unfold Os.rmtree. post_steps. Qed.

#[export] Hint Resolve makedirs_plain open_w_plain file_write_plain
  open_r_plain file_read_plain remove_plain rmtree_plain : post.

Lemma glob_listdir_plain w dirname dironly e :
  Glob.listdir w dirname dironly = inl e → plain e.
Proof.
  unfold Glob.listdir. intros H.
  destruct (Os.has_null_byte _); [by inversion H|].
  destruct (Sys.stat _ _ _) as [|[]]; discriminate.
Qed.

Lemma glob1_plain w dirname pattern dironly e :
  Glob.glob1 w dirname pattern dironly = inl e → plain e.
Proof.
  unfold Glob.glob1. intros H.
  destruct (Glob.listdir _ _ _) eqn:Hl; [|discriminate].
  inversion H; subst. by eapply glob_listdir_plain.
Qed.

Lemma glob0_plain w dirname basename dironly e :
  Glob.glob0 w dirname basename dironly = inl e → plain e.
Proof. unfold Glob.glob0. destruct (Str.nonempty _); discriminate. Qed.

Lemma in_dirs_plain (g : string → exn + list string) dirs e :
  (∀ d e', g d = inl e' → plain e') →
  Glob.in_dirs g dirs = inl e → plain e.
Proof.
  intros Hg. induction dirs as [|d dirs IH]; simpl; [discriminate|].
  destruct (g d) eqn:Hd.
  - intros H. inversion H; subst. by eapply Hg.
  - destruct (Glob.in_dirs g dirs); [|discriminate].
    intros H. inversion H; subst. by apply IH.
Qed.

Lemma iglob_plain fuel w pathname dironly e :
  Glob.iglob fuel w pathname dironly = inl e → plain e.
Proof.
  revert pathname dironly e.
  induction fuel as [|fuel IH]; intros pathname dironly e; simpl.
  { intros H. by inversion H. }
  destruct (PosixPath.split pathname) as [dirname basename].
  destruct (negb (Glob.has_magic pathname)).
  { destruct (Str.nonempty basename); discriminate. }
  destruct (negb (Str.nonempty dirname)); [apply glob1_plain|].
  destruct (_ && Glob.has_magic dirname).
  - destruct (Glob.iglob fuel w dirname true) eqn:Hd.
    + intros H. inversion H; subst. by eapply IH.
    + apply in_dirs_plain. intros d e'.
      destruct (Glob.has_magic basename);
        [apply glob1_plain|apply glob0_plain].
  - apply in_dirs_plain. intros d e'.
    destruct (Glob.has_magic basename);
      [apply glob1_plain|apply glob0_plain].
Qed.

Lemma glob_plain pathname : post (Glob.glob pathname) anything plain.
Proof.
  intros w. unfold Glob.glob.
  destruct (Glob.iglob (S (String.length pathname)) w pathname false) eqn:H;
    cbn [fst]; [|exact I].
  by eapply iglob_plain.
Qed.

Lemma list_items_plain safe_path names :
  post (list_items safe_path names) anything plain.
Proof.
  induction names as [|item names IH]; simpl; [by apply post_ret|].
  eapply post_bind with (P := anything).
  - unfold list_item. post_steps.
  - intros. eapply post_bind; [apply IH|]. intros. by apply post_ret.
Qed.

Lemma join_pattern_plain safe_path pattern :
  post (join_pattern safe_path pattern) anything plain.
Proof. unfold join_pattern. post_steps. Qed.

#[export] Hint Resolve glob_plain list_items_plain join_pattern_plain : post.

End Replies.

(** ** The shape of a reply *)

Module Shape.
Import Spec Logic Server Replies.

Lemma append_cons a s t : String a s +:+ t = String a (s +:+ t).
Proof. reflexivity. Qed.

Lemma error_lookup msg : error msg !! "error" = Some (PStr msg).
Proof. reflexivity. Qed.

Lemma error_inj a b : error a = error b → a = b.
Proof.
  intros H. apply (f_equal (λ r : gmap string pyval, r !! "error")) in H.
  rewrite !error_lookup in H. congruence.
Qed.

Lemma success_lookup r : is_success r → r !! "error" = None.
Proof.
  intros [[? ->]|[(? & ? & ->)|[(? & ? & ->)|(? & ? & ? & ->)]]];
    reflexivity.
Qed.

Lemma error_not_success r : is_error r → is_success r → False.
Proof.
  intros [msg ->] H%success_lookup. by rewrite error_lookup in H.
Qed.

(** The first character of the message an exception is turned into. *)
Lemma on_exception_head e :
  ∃ a s, on_exception e = error (String a s)
         ∧ In a ["I"; "'"; "m"; "w"; "j"; "e"; "["]%char.
Proof.
  destruct e; simpl; do 2 eexists; (split; [reflexivity|]); simpl; tauto.
Qed.

Lemma on_exception_error e : is_error (on_exception e).
Proof. destruct e; simpl; eexists; reflexivity. Qed.

Lemma well_shaped_error msg :
  msg ≠ "Invalid JSON in request body" → well_shaped (error msg).
Proof.
  intros H. split; [left; by eexists|]. by intros ?%error_inj.
Qed.

Lemma well_shaped_success r : is_success r → well_shaped r.
Proof.
  intros H. split; [by right|]. intros ->.
  eapply error_not_success; [|exact H]. by eexists.
Qed.

Ltac shape_site :=
  first
    [ apply well_shaped_error; rewrite ?append_cons; discriminate
    | apply well_shaped_success; unfold is_success; eauto 10 ].

Ltac shape_steps :=
  repeat (first [solve [eauto with post]|post_step]); try shape_site.

Lemma write_file_shape T parameters :
  post (write_file T parameters) well_shaped plain.
Proof. unfold write_file. shape_steps. Qed.

Lemma read_file_shape T parameters :
  post (read_file T parameters) well_shaped plain.
Proof. unfold read_file. shape_steps. Qed.

Lemma list_directory_shape T parameters :
  post (list_directory T parameters) well_shaped plain.
Proof. unfold list_directory. shape_steps. Qed.

Lemma search_files_shape T parameters :
  post (search_files T parameters) well_shaped plain.
Proof. unfold search_files. shape_steps. Qed.

Lemma delete_file_shape T parameters :
  post (delete_file T parameters) well_shaped plain.
Proof. unfold delete_file. shape_steps. Qed.

Lemma operation_shape T function_name parameters :
  post (operation T function_name parameters) well_shaped plain.
Proof.
  unfold operation.
  repeat case_bool_decide;
    eauto using write_file_shape, read_file_shape, list_directory_shape,
      search_files_shape, delete_file_shape.
  apply post_ret. shape_site.
Qed.

Lemma parse_plain_or_json loads body w e w' :
  parse loads body w = (inl e, w') →
  w' = w ∧ body ≠ "" ∧ loads body = inl e.
Proof.
  unfold parse. destruct body as [|a body]; simpl; [discriminate|].
  destruct (loads (String a body)); unfold raise, ret; intros H;
    inversion H; by subst.
Qed.

Lemma parse_value loads body w v w' :
  parse loads body w = (inr v, w') →
  w' = w ∧ (body = "" ∧ v = PDict ∅ ∨ body ≠ "" ∧ loads body = inr v).
Proof.
  unfold parse. destruct body as [|a body]; simpl.
  - unfold ret. intros H. inversion H. auto.
  - destruct (loads (String a body)); unfold raise, ret; intros H;
      inversion H; subst. split; [done|]. by right.
Qed.

End Shape.

(** ** Validation and dispatch *)

Module Dispatch.
Import Spec Logic Server Replies Shape.

Lemma operation_write_file T p : operation T "write_file" p = write_file T p.
Proof. reflexivity. Qed.

Lemma operation_read_file T p : operation T "read_file" p = read_file T p.
Proof. reflexivity. Qed.

Lemma operation_list_directory T p :
  operation T "list_directory" p = list_directory T p.
Proof. reflexivity. Qed.

Lemma operation_search_files T p :
  operation T "search_files" p = search_files T p.
Proof. reflexivity. Qed.

Lemma operation_delete_file T p :
  operation T "delete_file" p = delete_file T p.
Proof. reflexivity. Qed.

Lemma get_dict d key : get (PDict d) key = ret (param d key).
Proof. reflexivity. Qed.

Lemma bind_ret {A B} (a : A) (f : A → M B) w : bind (ret a) f w = f a w.
Proof. reflexivity. Qed.

(** What [guarded] makes of a computation with a postcondition. *)
Lemma guarded_post m Q E w :
  post m Q E →
  Q (guarded m w).1 ∨ ∃ e, E e ∧ (guarded m w).1 = on_exception e.
Proof.
  intros H. specialize (H w). unfold guarded.
  destruct (m w) as [[e|r] w']; simpl in *; eauto.
Qed.

Lemma guarded_shape m w :
  post m well_shaped plain →
  (is_error (guarded m w).1 ∨ is_success (guarded m w).1)
  ∧ ¬ (is_error (guarded m w).1 ∧ is_success (guarded m w).1).
Proof.
  intros H. split.
  - destruct (guarded_post m _ _ w H) as [[? _]|(e & _ & ->)]; [done|].
    left. apply on_exception_error.
  - intros [? ?]. by eapply error_not_success.
Qed.

Lemma parse_operation_shape T loads function_name body :
  post (let* parameters := parse loads body in
        operation T function_name parameters) well_shaped anything.
Proof.
  apply post_bind with (P := anything).
  - intros w. unfold parse.
    destruct (Str.nonempty body); [destruct (loads body)|]; exact I.
  - intros p _. eapply post_mono; [apply operation_shape|done|done].
Qed.

(** C3. For every operation name and every value of the parameters,
    [dispatch] returns a reply that is an error mapping or has the shape of
    a success, and never both; the same holds for the handler from the
    request body on. An exception raised while the operation runs does not
    leave the handler: the reply is then the error mapping whose message
    is the message [str(e)] of the exception. From the request body on,
    the one exception that is not answered with its own message is the
    [JSONDecodeError] of a body that is not JSON, for which the reply is
    "Invalid JSON in request body". *)
Theorem dispatch_exactly_one_shape T loads function_name parameters body w :
  ((is_error (dispatch T function_name parameters w).1
    ∨ is_success (dispatch T function_name parameters w).1)
   ∧ ¬ (is_error (dispatch T function_name parameters w).1
        ∧ is_success (dispatch T function_name parameters w).1))
  ∧ ((is_error (handle_mcp_request T loads function_name body w).1
      ∨ is_success (handle_mcp_request T loads function_name body w).1)
     ∧ ¬ (is_error (handle_mcp_request T loads function_name body w).1
          ∧ is_success (handle_mcp_request T loads function_name body w).1))
  ∧ (∀ e w', operation T function_name parameters w = (inl e, w') →
       dispatch T function_name parameters w = (error (Exn.str e), w'))
  ∧ (∀ e w',
       (let* parameters := parse loads body in
        operation T function_name parameters) w = (inl e, w') →
       handle_mcp_request T loads function_name body w
       = (error (if is_json_error e then "Invalid JSON in request body"
                 else Exn.str e), w')).
Proof.
  split; [|split; [|split]].
  - apply guarded_shape, operation_shape.
  - unfold handle_mcp_request. split.
    + destruct (guarded_post _ _ _ w
                  (parse_operation_shape T loads function_name body))
        as [[? _]|(e & _ & ->)]; [done|].
      left. apply on_exception_error.
    + intros [? ?]. by eapply error_not_success.
  - intros e w' H. unfold dispatch, guarded. rewrite H.
    pose proof (operation_shape T function_name parameters w) as He.
    rewrite H in He. cbn [fst] in He. by destruct e.
  - intros e w' H. unfold handle_mcp_request, guarded. rewrite H.
    by destruct e.
Qed.

Lemma empty_parameters T function_name w :
  operation T function_name (PDict ∅) w
  = (inr (match checked_parameters function_name with
          | name :: _ => required name
          | [] => error ("Function " +:+ function_name +:+ " not supported")
          end), w).
Proof.
  unfold operation, checked_parameters.
  repeat case_bool_decide; reflexivity.
Qed.

(** C10. An empty request body is an empty mapping of parameters: the
    handler answers as [dispatch] does on the empty mapping, that is with
    the validation error of the first required parameter of the operation,
    or with the error of an operation that is not supported, and leaves
    the world as it was. The reply "Invalid JSON in request body" is given
    exactly when the body is not empty and [json.loads] raises
    [JSONDecodeError] on it. *)
Theorem empty_body_is_empty_mapping T loads function_name w :
  handle_mcp_request T loads function_name "" w
  = dispatch T function_name (PDict ∅) w
  ∧ handle_mcp_request T loads function_name "" w
    = (match checked_parameters function_name with
       | name :: _ => required name
       | [] => error ("Function " +:+ function_name +:+ " not supported")
       end, w)
  ∧ (handle_mcp_request T loads function_name "" w).1 ≠ invalid_json
  ∧ ∀ body,
      (handle_mcp_request T loads function_name body w).1 = invalid_json
      ↔ body ≠ "" ∧ ∃ msg, loads body = inl (JSONDecodeError msg).
Proof.
  assert (Hempty : handle_mcp_request T loads function_name "" w
                   = dispatch T function_name (PDict ∅) w) by reflexivity.
  assert (Hreply : dispatch T function_name (PDict ∅) w
            = (match checked_parameters function_name with
               | name :: _ => required name
               | [] => error ("Function " +:+ function_name
                              +:+ " not supported")
               end, w)).
  { unfold dispatch, guarded. by rewrite empty_parameters. }
  split; [done|]. split; [by rewrite Hempty|]. split.
  { rewrite Hempty, Hreply. simpl.
    unfold checked_parameters, required, invalid_json.
    repeat case_bool_decide; intros ?%error_inj; discriminate. }
  intros body. unfold handle_mcp_request, guarded, bind. split.
  - destruct (parse loads body w) as [[e|p] w1] eqn:Hp.
    + apply parse_plain_or_json in Hp as (-> & Hb & Hl). simpl.
      destruct e; simpl; intros H; try (apply error_inj in H; simpl in H;
        rewrite ?append_cons in H; discriminate).
      split; [done|]. by eexists.
    + pose proof (operation_shape T function_name p w1) as Hop.
      destruct (operation T function_name p w1) as [[e|r] w2]; simpl in *.
      * destruct e; try discriminate; simpl; intros H;
          apply error_inj in H; simpl in H; rewrite ?append_cons in H;
          discriminate.
      * intros ->. by destruct Hop as [_ []].
  - intros [Hb [msg Hl]]. unfold parse.
    destruct body as [|a body]; [done|]. simpl. by rewrite Hl.
Qed.

Lemma on_exception_not_required e name a rest :
  name = String a rest →
  ¬ In a ["I"; "'"; "m"; "w"; "j"; "e"; "["]%char →
  on_exception e ≠ required name.
Proof.
  intros -> Ha H. destruct (on_exception_head e) as (b & s & Hb & Hin).
  rewrite Hb in H. apply error_inj in H. rewrite append_cons in H.
  inversion H; subst. by apply Ha.
Qed.

Lemma success_not_required (r : gmap string pyval) name :
  is_success r → r ≠ required name.
Proof.
  intros H ->. eapply error_not_success; [|exact H]. by eexists.
Qed.

Lemma write_file_valid T d :
  Py.truthy (param d "filepath") = true →
  param d "content" ≠ PNone →
  post (write_file T (PDict d))
    (λ r, r = {[ "success" := PBool true;
                 "filepath" := param d "filepath" ]}) anything.
Proof.
  intros Hf Hc. unfold write_file. rewrite !get_dict.
  intros w. rewrite !bind_ret. rewrite Hf. simpl.
  destruct (param d "content") eqn:Hcontent; [done|..]; simpl;
    match goal with
    | |- context [bind ?m ?f w] =>
        assert (Hpost : post (bind m f)
                  (λ r, r = {[ "success" := PBool true;
                               "filepath" := param d "filepath" ]})
                  anything);
        [|exact (Hpost w)]
    end;
    (eapply post_mono; [|by intros ? H; exact H|done]);
    repeat (first [ eapply post_mono;
                    [solve [eauto with post]|done|done]
                  | post_step ]);
    reflexivity.
Qed.

(** C8 (as amended). [write_file] answers with a validation error exactly
    when [filepath] is absent, null or any other false value (the empty
    string among them), or [content] is absent or null. The empty string
    is a valid [content]. *)
Theorem write_file_validation T d w :
  ((dispatch T "write_file" (PDict d) w).1 = required "filepath"
   ∨ (dispatch T "write_file" (PDict d) w).1 = required "content")
  ↔ (Py.truthy (param d "filepath") = false ∨ param d "content" = PNone).
Proof.
  unfold dispatch. rewrite operation_write_file.
  destruct (Py.truthy (param d "filepath")) eqn:Hf.
  - assert (Hc : param d "content" = PNone ∨ param d "content" ≠ PNone)
      by (destruct (param d "content"); auto).
    destruct Hc as [Hc|Hc].
    + split; [auto|]. intros _. right.
      unfold guarded, write_file. rewrite !get_dict, !bind_ret.
      by rewrite Hf, Hc.
    + split; [|by intros [|]].
      intros H. exfalso.
      destruct (guarded_post _ _ _ w (write_file_valid T d Hf Hc))
        as [Hr|(e & _ & Hr)]; rewrite Hr in H.
      * destruct H as [H|H];
          (eapply success_not_required; [|exact H]); left; by eexists.
      * destruct H as [H|H];
          (eapply on_exception_not_required; [reflexivity| |exact H]);
          simpl; intros ?; intuition discriminate.
  - split; [auto|]. intros _. left.
    unfold guarded, write_file. rewrite !get_dict, !bind_ret.
    by rewrite Hf.
Qed.

Ltac lookups :=
  unfold param;
  rewrite ?lookup_insert_eq, ?lookup_delete_eq;
  rewrite ?lookup_insert_ne, ?lookup_delete_ne by done.

Lemma operation_insert_delete T function_name d key w :
  In key ["filepath"; "directory_path"; "pattern"] →
  operation T function_name (PDict (<[key := PStr ""]> d)) w
  = operation T function_name (PDict (delete key d)) w.
Proof.
  intros [<-|[<-|[<-|[]]]]; unfold operation;
    repeat case_bool_decide; try reflexivity;
    unfold write_file, read_file, list_directory, search_files, delete_file;
    rewrite !get_dict, !bind_ret; lookups; simpl; try reflexivity;
    destruct (negb _); reflexivity.
Qed.

(** C9. An empty string given for [filepath], [directory_path] or [pattern]
    is treated as the parameter left out: the reply and the world after it
    are the same. When the operation checks that parameter, the reply is a
    validation error "<name> parameter is required", for the parameter
    itself or for one checked before it that is false too, and the world
    is as before: no path has been resolved. *)
Theorem empty_string_is_missing T function_name d key w :
  In key ["filepath"; "directory_path"; "pattern"] →
  dispatch T function_name (PDict (<[key := PStr ""]> d)) w
  = dispatch T function_name (PDict (delete key d)) w
  ∧ (In key (checked_parameters function_name) →
     ∃ name, In name (checked_parameters function_name)
       ∧ dispatch T function_name (PDict (<[key := PStr ""]> d)) w
         = (required name, w)
       ∧ (name = key ∨ Py.truthy (param d name) = false)).
Proof.
  intros Hkey. split.
  { unfold dispatch, guarded. by rewrite operation_insert_delete. }
  unfold checked_parameters, dispatch, guarded, operation.
  repeat case_bool_decide; simpl; try tauto.
  - intros [<-|[]]. exists "filepath". split; [by left|].
    split; [|by left].
    unfold write_file. rewrite !get_dict, !bind_ret. by lookups.
  - intros [<-|[]]. exists "filepath". split; [by left|].
    split; [|by left].
    unfold read_file. rewrite !get_dict, !bind_ret. by lookups.
  - intros [<-|[]]. exists "directory_path". split; [by left|].
    split; [|by left].
    unfold list_directory. rewrite !get_dict, !bind_ret. by lookups.
  - intros [<-|[<-|[]]].
    + exists "directory_path". split; [by left|]. split; [|by left].
      unfold search_files. rewrite !get_dict, !bind_ret. by lookups.
    + unfold search_files. rewrite !get_dict, !bind_ret. lookups.
      fold (param d "directory_path").
      destruct (Py.truthy (param d "directory_path")) eqn:Hd; simpl.
      * exists "pattern". split; [right; by left|]. split; [done|by left].
      * exists "directory_path". split; [by left|]. split; [done|by right].
  - intros [<-|[]]. exists "filepath". split; [by left|].
    split; [|by left].
    unfold delete_file. rewrite !get_dict, !bind_ret. by lookups.
Qed.

(** C5. [search_files] does not create the directory it is given: when
    the resolved path is not a directory the reply is the error
    "Directory <directory_path> not found", the file system is the one
    before the call, and the path still is not a directory. *)
Theorem search_files_missing_directory T d directory_path w :
  d !! "directory_path" = Some (PStr directory_path) →
  directory_path ≠ "" →
  Py.truthy (param d "pattern") = true →
  Os.isdir w (resolve T directory_path) = false →
  ∃ w', dispatch T "search_files" (PDict d) w
        = (error ("Directory " +:+ directory_path +:+ " not found"), w')
    ∧ fs w' = fs w
    ∧ Os.isdir w' (resolve T directory_path) = false.
Proof.
  intros Hd Hne Hp Hdir.
  unfold dispatch, guarded. rewrite operation_search_files.
  assert (Hv : param d "directory_path" = PStr directory_path)
    by (unfold param; by rewrite Hd).
  unfold search_files. rewrite !get_dict, !bind_ret.
  rewrite Hv, Hp. simpl.
  destruct directory_path as [|a s]; [done|]. simpl.
  unfold bind, log, ret, Os.path_isdir, read_world. simpl.
  assert (Hdir' : Os.isdir
            (World (fs w) (cwd w)
               (trace w ++ [Resolved (String a s) (resolve T (String a s))]))
            (resolve T (String a s)) = false) by exact Hdir.
  rewrite Hdir'. simpl. eexists. split; [reflexivity|]. by split.
Qed.

End Dispatch.

(** ** Paths in normal form *)

Module PathFacts.
Import Str PosixPath Spec.

Lemma is_sep_true a : is_sep a = true ↔ a = "/"%char.
Proof. unfold is_sep. by rewrite bool_decide_eq_true. Qed.

Lemma is_sep_false a : is_sep a = false ↔ a ≠ "/"%char.
Proof. unfold is_sep. by rewrite bool_decide_eq_false. Qed.

Lemma contains_sep_cons a s :
  contains "/"%char (String a s) = is_sep a || contains "/"%char s.
Proof. reflexivity. Qed.

Lemma contains_app c s t :
  contains c (s +:+ t) = contains c s || contains c t.
Proof.
  induction s as [|a s IH]; [done|].
  rewrite Shape.append_cons. simpl. rewrite IH. by rewrite orb_assoc.
Qed.

Lemma append_nil_r s : s +:+ "" = s.
Proof. induction s as [|a s IH]; [done|]. by rewrite Shape.append_cons, IH. Qed.

Lemma append_assoc s t u : (s +:+ t) +:+ u = s +:+ t +:+ u.
Proof.
  induction s as [|a s IH]; [done|]. by rewrite !Shape.append_cons, IH.
Qed.

(** *** [str.split] and [str.join] *)

Lemma split_sep_cons s : ∃ h t, split_sep s = h :: t.
Proof.
  induction s as [|a s (h & t & IH)]; simpl; [by eauto|].
  destruct (is_sep a); [by eauto|]. rewrite IH. eauto.
Qed.

Lemma split_sep_no_sep s :
  Forall (λ c, contains "/"%char c = false) (split_sep s).
Proof.
  induction s as [|a s IH]; simpl; [by repeat constructor|].
  destruct (is_sep a) eqn:Ha; [by constructor|].
  destruct (split_sep_cons s) as (h & t & Hs). rewrite Hs in *.
  inversion IH; subst. constructor; [|done].
  rewrite contains_sep_cons, Ha. done.
Qed.

Lemma split_sep_app s t :
  split_sep (s +:+ "/" +:+ t) = split_sep s ++ split_sep t.
Proof.
  induction s as [|a s IH]; [done|].
  rewrite Shape.append_cons. simpl. rewrite IH.
  destruct (is_sep a); [done|].
  by destruct (split_sep_cons s) as (h & tl & ->).
Qed.

Lemma split_sep_plain c : contains "/"%char c = false → split_sep c = [c].
Proof.
  induction c as [|a c IH]; [done|].
  rewrite contains_sep_cons. intros [Ha Hc]%orb_false_elim.
  simpl. by rewrite Ha, (IH Hc).
Qed.

Lemma join_sep_cons c cs :
  cs ≠ [] → join_sep (c :: cs) = c +:+ "/" +:+ join_sep cs.
Proof. by destruct cs. Qed.

Lemma join_sep_snoc cs c :
  cs ≠ [] → join_sep (cs ++ [c]) = join_sep cs +:+ "/" +:+ c.
Proof.
  induction cs as [|x cs IH]; [done|]. intros _.
  destruct cs as [|y cs]; [done|].
  change ((x :: y :: cs) ++ [c]) with (x :: ((y :: cs) ++ [c])).
  rewrite join_sep_cons by done. rewrite IH by done.
  rewrite (join_sep_cons x (y :: cs)) by done.
  by rewrite !append_assoc.
Qed.

Lemma split_join_sep cs :
  cs ≠ [] → Forall (λ c, contains "/"%char c = false) cs →
  split_sep (join_sep cs) = cs.
Proof.
  induction cs as [|c cs IH]; [done|]. intros _ H.
  inversion H as [|? ? Hc Hcs]; subst.
  destruct cs as [|y cs]; [by apply split_sep_plain|].
  rewrite join_sep_cons by done. rewrite split_sep_app.
  rewrite split_sep_plain by done. by rewrite IH.
Qed.

Lemma clean_no_sep c : clean c → contains "/"%char c = false.
Proof. by intros (_ & _ & _ & H). Qed.

Lemma Forall_clean_no_sep cs :
  Forall clean cs → Forall (λ c, contains "/"%char c = false) cs.
Proof. intros H. eapply Forall_impl; [exact H|apply clean_no_sep]. Qed.

Lemma render_snoc cs c :
  render (cs ++ [c])
  = if bool_decide (cs = []) then "/" +:+ c else render cs +:+ "/" +:+ c.
Proof.
  unfold render. case_bool_decide as H; [by subst|].
  rewrite join_sep_snoc by done. by rewrite append_assoc.
Qed.

Lemma split_sep_render cs :
  Forall clean cs →
  split_sep (render cs) = if bool_decide (cs = []) then [""; ""] else "" :: cs.
Proof.
  intros H. case_bool_decide as Hcs; [by subst|].
  unfold render. change ("/" +:+ join_sep cs) with ("" +:+ "/" +:+ join_sep cs).
  rewrite split_sep_app. simpl.
  by rewrite split_join_sep by auto using Forall_clean_no_sep.
Qed.

(** *** [normpath] on an absolute path *)

Lemma Forall_removelast {A} (P : A → Prop) (l : list A) :
  Forall P l → Forall P (removelast l).
Proof.
  induction 1 as [|x l Hx Hl IH]; [done|]. simpl.
  destruct l; [constructor|]. by constructor.
Qed.

Lemma last_Forall {A} (P : A → Prop) (l : list A) x :
  Forall P l → last l = Some x → P x.
Proof.
  intros H Hl. rewrite Forall_forall in H. apply H.
  apply last_Some in Hl as [l' ->]. set_solver.
Qed.

Lemma normpath_step_clean acc c :
  Forall clean acc → contains "/"%char c = false →
  Forall clean (normpath_step 1 acc c).
Proof.
  intros Hacc Hc. unfold normpath_step.
  case_bool_decide as H1; [done|].
  case_bool_decide as H2; [|by apply Forall_removelast].
  apply Forall_app. split; [done|]. constructor; [|done].
  destruct H2 as [H2|[[? _]|[_ H2]]]; [|done|].
  - unfold clean. naive_solver.
  - apply (last_Forall _ _ _ Hacc) in H2. by destruct H2 as (_ & _ & ? & _).
Qed.

Lemma normpath_fold_clean comps acc :
  Forall clean acc → Forall (λ c, contains "/"%char c = false) comps →
  Forall clean (fold_left (normpath_step 1) comps acc).
Proof.
  revert acc. induction comps as [|c comps IH]; intros acc Hacc H; [done|].
  inversion H; subst. simpl. apply IH; [|done].
  by apply normpath_step_clean.
Qed.

Lemma normpath_comps_clean path :
  initial_slashes path = 1 → Forall clean (normpath_comps path).
Proof.
  intros H. unfold normpath_comps. rewrite H.
  apply normpath_fold_clean; [constructor|apply split_sep_no_sep].
Qed.

Lemma normpath_rooted path :
  initial_slashes path = 1 → normpath path = render (normpath_comps path).
Proof.
  intros H. unfold normpath. rewrite H.
  destruct path as [|a path]; [done|]. reflexivity.
Qed.

Lemma startswith_cons a s b p :
  startswith (String a s) (String b p) = bool_decide (a = b) && startswith s p.
Proof.
  unfold startswith. cbn [String.prefix].
  destruct (ascii_dec b a); case_bool_decide; simpl; congruence.
Qed.

Lemma startswith_nil s : startswith s "" = true.
Proof. by destruct s. Qed.

Lemma startswith_empty b p : startswith "" (String b p) = false.
Proof. reflexivity. Qed.

Lemma startswith_sep a s : startswith (String a s) "/" = is_sep a.
Proof. rewrite startswith_cons, startswith_nil. apply andb_true_r. Qed.

Lemma lstrip_sep_head p : startswith (lstrip_sep p) "/" = false.
Proof.
  induction p as [|a p IH]; [done|]. cbn [lstrip_sep].
  destruct (is_sep a) eqn:Ha; [done|]. by rewrite startswith_sep.
Qed.

Lemma join_rooted T b :
  rooted T = true → startswith b "/" = false →
  initial_slashes (join T b) = 1.
Proof.
  unfold rooted, isabs, join, initial_slashes.
  intros HT Hb. rewrite Hb.
  destruct T as [|a T]; [done|].
  rewrite startswith_sep in HT.
  destruct (is_sep a) eqn:Ha; [|done]. apply is_sep_true in Ha as ->.
  destruct T as [|c T].
  - cbn [nonempty negb orb endswith_sep]. change (is_sep "/") with true.
    cbn match. change ("/" +:+ b) with (String "/" b).
    rewrite startswith_sep, startswith_cons, Hb. done.
  - rewrite !startswith_cons in HT. rewrite startswith_nil in HT.
    destruct (bool_decide (c = "/"%char)) eqn:Hc;
      [by rewrite bool_decide_true in HT by done|].
    destruct (negb (nonempty (String "/" (String c T)))
              || endswith_sep (String "/" (String c T)));
      rewrite !Shape.append_cons, startswith_sep;
      rewrite !startswith_cons; change (is_sep "/") with true;
      rewrite bool_decide_true by done; by rewrite Hc.
Qed.

(** The resolver gives an absolute path in normal form. *)
Lemma resolve_render T p :
  rooted T = true →
  ∃ cs, Server.resolve T p = render cs ∧ Forall clean cs.
Proof.
  intros HT. unfold Server.resolve.
  pose proof (join_rooted T (lstrip_sep p) HT (lstrip_sep_head p)) as H.
  eexists. split; [by apply normpath_rooted|by apply normpath_comps_clean].
Qed.

Lemma resolve_components T s :
  rooted T = true →
  Server.resolve T s = render (resolved_components T s)
  ∧ Forall clean (resolved_components T s).
Proof.
  intros HT. unfold Server.resolve, resolved_components.
  pose proof (join_rooted T (lstrip_sep s) HT (lstrip_sep_head s)) as H.
  split; [by apply normpath_rooted|by apply normpath_comps_clean].
Qed.

(** *** [os.path.split] on a path in normal form *)

Lemma rpartition_plain c :
  contains "/"%char c = false → rpartition_sep c = ("", c).
Proof.
  induction c as [|a c IH]; [done|].
  rewrite contains_sep_cons. intros [Ha Hc]%orb_false_elim.
  simpl. by rewrite (IH Hc), Ha.
Qed.

Lemma rpartition_app s c :
  contains "/"%char c = false →
  rpartition_sep (s +:+ "/" +:+ c) = (s +:+ "/", c).
Proof.
  intros Hc. induction s as [|a s IH].
  - change ("" +:+ "/" +:+ c) with (String "/" c). cbn [rpartition_sep].
    by rewrite (rpartition_plain c Hc).
  - change (String a s +:+ "/" +:+ c) with (String a (s +:+ "/" +:+ c)).
    cbn [rpartition_sep]. rewrite IH. by destruct s.
Qed.

Lemma rstrip_sep_snoc s : rstrip_sep (s +:+ "/") = rstrip_sep s.
Proof.
  induction s as [|a s IH]; [done|].
  rewrite Shape.append_cons. simpl. by rewrite IH.
Qed.

Lemma rstrip_sep_id s : endswith_sep s = false → rstrip_sep s = s.
Proof.
  induction s as [|a s IH]; [done|]. simpl.
  destruct s as [|b s]; [by intros ->|].
  intros H. by rewrite (IH H).
Qed.

Lemma endswith_sep_app s t :
  t ≠ "" → endswith_sep (s +:+ t) = endswith_sep t.
Proof.
  intros Ht. induction s as [|a s IH]; [done|].
  rewrite Shape.append_cons. simpl. rewrite IH.
  destruct (s +:+ t) eqn:Hst; [|done].
  destruct s; [done|discriminate].
Qed.

Lemma endswith_sep_plain c :
  contains "/"%char c = false → endswith_sep c = false.
Proof.
  induction c as [|a c IH]; [done|].
  rewrite contains_sep_cons. intros [Ha Hc]%orb_false_elim.
  simpl. destruct c; [done|]. by apply IH.
Qed.

Lemma endswith_sep_render cs :
  cs ≠ [] → Forall clean cs → endswith_sep (render cs) = false.
Proof.
  intros Hne H.
  destruct (exists_last Hne) as (cs' & c & ->).
  apply Forall_app in H as [_ Hc]. inversion Hc as [|? ? Hclean _]; subst.
  assert (c ≠ "") by apply Hclean.
  rewrite render_snoc.
  case_bool_decide; rewrite <- ?append_assoc; rewrite endswith_sep_app by done;
    apply endswith_sep_plain, clean_no_sep, Hclean.
Qed.

Lemma all_sep_render cs t :
  cs ≠ [] → Forall clean cs → all_sep (render cs +:+ t) = false.
Proof.
  intros Hne H. destruct cs as [|c cs]; [done|].
  inversion H as [|? ? (Hc1 & _ & _ & Hc2) _]; subst.
  destruct c as [|a c]; [done|].
  rewrite contains_sep_cons in Hc2. apply orb_false_elim in Hc2 as [Ha _].
  unfold render. destruct cs; simpl; by rewrite Ha.
Qed.

Lemma rstrip_render cs :
  Forall clean cs →
  (if all_sep (render cs) then render cs else rstrip_sep (render cs))
  = render cs.
Proof.
  intros Hcs. destruct (decide (cs = [])) as [->|Hne]; [done|].
  rewrite <- (append_nil_r (render cs)) at 1.
  rewrite all_sep_render by done.
  by rewrite rstrip_sep_id by by apply endswith_sep_render.
Qed.

Lemma split_render cs c :
  Forall clean cs → clean c →
  PosixPath.split (render (cs ++ [c])) = (render cs, c).
Proof.
  intros Hcs Hc. rewrite render_snoc. unfold PosixPath.split.
  case_bool_decide as Hne.
  - subst. change ("/" +:+ c) with ("" +:+ "/" +:+ c).
    by rewrite rpartition_app by apply clean_no_sep, Hc.
  - rewrite rpartition_app by apply clean_no_sep, Hc.
    rewrite all_sep_render by done.
    assert (Hn : nonempty (render cs +:+ "/") = true) by done.
    rewrite Hn. cbn [andb negb]. rewrite rstrip_sep_snoc.
    by rewrite rstrip_sep_id by by apply endswith_sep_render.
Qed.

Lemma dirname_render cs c :
  Forall clean cs → clean c → dirname (render (cs ++ [c])) = render cs.
Proof. intros. unfold dirname. by rewrite split_render. Qed.

Lemma split_root : PosixPath.split "/" = ("/", "").
Proof. reflexivity. Qed.

Lemma contains_render a cs c :
  a ≠ "/"%char →
  contains a (render (cs ++ [c])) = contains a (render cs) || contains a c.
Proof.
  intros Ha. rewrite render_snoc. case_bool_decide; subst.
  - simpl. by case_bool_decide.
  - rewrite !contains_app. simpl. case_bool_decide; [done|].
    by rewrite orb_false_r.
Qed.

End PathFacts.

(** ** The file system under paths in normal form *)

Module FsFacts.
Import Str Tree Sys Spec PathFacts.

Lemma lookup_node_app fs p q :
  lookup_node fs (p ++ q)
  = match lookup_node fs p with
    | Some n => lookup_node n q
    | None => None
    end.
Proof.
  revert fs. induction p as [|c p IH]; intros fs; [done|]. simpl.
  destruct fs as [|m]; [done|]. destruct (m !! c); [apply IH|done].
Qed.

Lemma lookup_prefix_dir fs p q :
  q ≠ [] → is_Some (lookup_node fs (p ++ q)) →
  is_dir (lookup_node fs p) = true.
Proof.
  intros Hq [n H]. rewrite lookup_node_app in H.
  destruct (lookup_node fs p) as [[|m]|]; [|done|done].
  destruct q; [done|discriminate].
Qed.

Lemma removelast_snoc {A} (l : list A) x : removelast (l ++ [x]) = l.
Proof. apply removelast_last. Qed.

Lemma lookup_parent_dir fs cs :
  cs ≠ [] → is_Some (lookup_node fs cs) →
  is_dir (lookup_node fs (removelast cs)) = true.
Proof.
  intros Hne H. destruct (exists_last Hne) as (p & c & ->).
  rewrite removelast_snoc. by apply (lookup_prefix_dir fs p [c]).
Qed.


Lemma is_dir_Some o : is_dir o = true → is_Some o.
Proof. destruct o as [[]|]; [done|by eexists|done]. Qed.

Lemma lookup_root_dir fs q :
  is_dir (lookup_node fs q) = true → is_dir (Some fs) = true.
Proof.
  destruct q as [|c q]; [done|]. intros H%is_dir_Some.
  by apply (lookup_prefix_dir fs [] (c :: q)).
Qed.

Lemma clean_step c :
  clean c → bool_decide (c = "" ∨ c = ".") = false
            ∧ bool_decide (c = "..") = false.
Proof.
  intros (? & ? & ? & _).
  split; apply bool_decide_eq_false; [by intros [|]|done].
Qed.

Lemma walk_clean fs pre cs :
  Forall clean cs →
  (cs ≠ [] → is_dir (lookup_node fs (pre ++ removelast cs)) = true) →
  walk fs pre cs = inr (pre ++ cs).
Proof.
  intros Hcs. revert pre.
  induction Hcs as [|c cs Hc Hcs IH]; intros pre Hdir.
  { by rewrite app_nil_r. }
  cbn [walk].
  assert (Hpre : is_dir (lookup_node fs pre) = true).
  { destruct cs as [|c' cs].
    - specialize (Hdir ltac:(done)). by rewrite app_nil_r in Hdir.
    - apply (lookup_prefix_dir fs pre (removelast (c :: c' :: cs)));
        [done|]. apply is_dir_Some, Hdir. done. }
  destruct (lookup_node fs pre) as [[|m]|]; [done| |done].
  destruct (clean_step c Hc) as [-> ->].
  rewrite IH.
  - by rewrite <- app_assoc.
  - intros Hne. rewrite <- app_assoc. simpl.
    destruct cs; [done|]. by apply Hdir.
Qed.

Lemma walk_clean_inv fs pre cs r :
  Forall clean cs → walk fs pre cs = inr r →
  r = pre ++ cs
  ∧ (cs ≠ [] → is_dir (lookup_node fs (pre ++ removelast cs)) = true).
Proof.
  intros Hcs. revert pre.
  induction Hcs as [|c cs Hc Hcs IH]; intros pre.
  { simpl. intros [= <-]. by rewrite app_nil_r. }
  cbn [walk].
  destruct (lookup_node fs pre) as [[|m]|] eqn:Hpre; [done| |done].
  destruct (clean_step c Hc) as [-> ->].
  intros [-> Hdir]%IH. rewrite <- app_assoc. split; [done|].
  intros _. destruct cs as [|c' cs].
  - simpl. by rewrite app_nil_r, Hpre.
  - specialize (Hdir ltac:(done)). by rewrite <- app_assoc in Hdir.
Qed.

Lemma nonempty_render cs : nonempty (render cs) = true.
Proof. reflexivity. Qed.

Lemma isabs_render cs : PosixPath.isabs (render cs) = true.
Proof.
  unfold PosixPath.isabs, render.
  change ("/" +:+ join_sep cs) with (String "/" (join_sep cs)).
  by rewrite startswith_sep.
Qed.

Lemma namei_render_walk fs cwd cs :
  Forall clean cs →
  namei fs cwd (render cs)
  = if is_dir (Some fs) then walk fs [] cs
    else match fs with File _ => inl ENOTDIR | Dir _ => inl ENOENT end.
Proof.
  intros Hcs. unfold namei.
  rewrite nonempty_render, isabs_render, split_sep_render by done.
  case_bool_decide; subst; destruct fs; reflexivity.
Qed.

Lemma namei_render fs cwd cs :
  Forall clean cs →
  is_dir (lookup_node fs (removelast cs)) = true →
  namei fs cwd (render cs) = inr cs.
Proof.
  intros Hcs Hdir. rewrite namei_render_walk by done.
  rewrite (lookup_root_dir fs _ Hdir).
  apply (walk_clean fs [] cs Hcs). by intros _.
Qed.

Lemma namei_render_inv fs cwd cs r :
  Forall clean cs →
  namei fs cwd (render cs) = inr r →
  r = cs ∧ is_dir (lookup_node fs (removelast cs)) = true.
Proof.
  intros Hcs. rewrite namei_render_walk by done.
  destruct (is_dir (Some fs)) eqn:Hroot; [|by destruct fs].
  intros [-> Hdir]%walk_clean_inv; [|done]. split; [done|].
  destruct cs as [|c cs]; [done|]. by apply Hdir.
Qed.

Lemma namei_render_error fs cwd cs :
  Forall clean cs →
  is_dir (lookup_node fs (removelast cs)) = false →
  ∃ e, namei fs cwd (render cs) = inl e.
Proof.
  intros Hcs Hdir. destruct (namei fs cwd (render cs)) as [e|r] eqn:H;
    [by eexists|].
  apply namei_render_inv in H as [_ H]; [|done]. congruence.
Qed.

(** [stat] on a path in normal form sees the node of the tree, when the
    directory that should hold it is there. *)
Lemma stat_render fs cwd cs :
  Forall clean cs →
  match stat fs cwd (render cs) with
  | inr n => is_dir (lookup_node fs (removelast cs)) = true
             ∧ lookup_node fs cs = Some n
  | inl _ => is_dir (lookup_node fs (removelast cs)) = false
             ∨ lookup_node fs cs = None
  end.
Proof.
  intros Hcs. unfold stat.
  destruct (is_dir (lookup_node fs (removelast cs))) eqn:Hdir.
  - rewrite namei_render by done.
    destruct (lookup_node fs cs); auto.
  - destruct (namei_render_error fs cwd cs Hcs Hdir) as [e ->]. auto.
Qed.

(** *** Storing and removing an entry *)

Lemma store_node_single m c v :
  store_node (Dir m) [c] v
  = Dir (match v with Some x => <[c:=x]> m | None => delete c m end).
Proof. reflexivity. Qed.

Lemma store_node_cons m c c' cs v :
  store_node (Dir m) (c :: c' :: cs) v
  = match m !! c with
    | Some n' => Dir (<[c:=store_node n' (c' :: cs) v]> m)
    | None => Dir m
    end.
Proof. reflexivity. Qed.

Lemma lookup_node_cons m c cs :
  lookup_node (Dir m) (c :: cs)
  = match m !! c with Some n' => lookup_node n' cs | None => None end.
Proof. reflexivity. Qed.

Lemma lookup_store_eq fs cs v :
  cs ≠ [] → is_dir (lookup_node fs (removelast cs)) = true →
  lookup_node (store_node fs cs v) cs = v.
Proof.
  revert fs. induction cs as [|c cs IH]; intros fs Hne Hdir; [done|].
  destruct cs as [|c' cs].
  - simpl in Hdir. destruct fs as [|m]; [done|]. simpl.
    destruct v as [x|].
    + by rewrite lookup_insert_eq.
    + by rewrite lookup_delete_eq.
  - change (removelast (c :: c' :: cs)) with (c :: removelast (c' :: cs))
      in Hdir.
    cbn [lookup_node] in Hdir. destruct fs as [|m]; [done|].
    cbn [store_node lookup_node].
    destruct (m !! c) as [n|] eqn:Hc; [|done].
    cbn [lookup_node]. rewrite lookup_insert_eq. by apply IH.
Qed.

Lemma store_parent_dir fs cs v :
  is_dir (lookup_node fs (removelast cs)) = true →
  is_dir (lookup_node (store_node fs cs v) (removelast cs)) = true.
Proof.
  revert fs. induction cs as [|c cs IH]; intros fs Hdir; [done|].
  destruct cs as [|c' cs].
  - simpl in *. by destruct fs.
  - change (removelast (c :: c' :: cs)) with (c :: removelast (c' :: cs))
      in *.
    cbn [lookup_node] in Hdir. destruct fs as [|m]; [done|].
    cbn [store_node lookup_node].
    destruct (m !! c) as [n|] eqn:Hc; [|done].
    cbn [lookup_node]. rewrite lookup_insert_eq. by apply IH.
Qed.

Lemma store_store fs cs v v' :
  store_node (store_node fs cs v) cs v' = store_node fs cs v'.
Proof.
  revert fs. induction cs as [|c cs IH]; intros fs; [done|].
  destruct fs as [|m]; [by destruct cs|].
  destruct cs as [|c' cs].
  - rewrite !store_node_single. f_equal.
    destruct v, v';
      by rewrite ?insert_insert_eq, ?delete_insert_eq, ?insert_delete_eq,
                 ?delete_delete_eq.
  - rewrite (store_node_cons m). destruct (m !! c) as [n|] eqn:Hc.
    + rewrite !store_node_cons, lookup_insert_eq, Hc, IH.
      by rewrite insert_insert_eq.
    + by rewrite store_node_cons, Hc.
Qed.

Lemma last_clean cs :
  cs ≠ [] → Forall clean cs →
  bool_decide (List.last cs "" = ".") = false
  ∧ bool_decide (List.last cs "" = "..") = false.
Proof.
  intros Hne Hcs. destruct (exists_last Hne) as (p & c & ->).
  rewrite List.last_last. apply Forall_app in Hcs as [_ Hc].
  inversion Hc as [|? ? (_ & ? & ? & _) _]; subst.
  by rewrite !bool_decide_false.
Qed.

(** Removing the entry at [cs] takes away what lies at or below [cs] and
    leaves the kind and content of everything else. *)
Lemma kind_store_none fs cs p :
  cs ≠ [] → is_Some (lookup_node fs cs) →
  kind (lookup_node (store_node fs cs None) p)
  = if bool_decide (cs `prefix_of` p) then None
    else kind (lookup_node fs p).
Proof.
  revert fs p. induction cs as [|c cs IH]; intros fs p Hne Hsome; [done|].
  destruct fs as [|m]; [by destruct Hsome|].
  cbn [lookup_node] in Hsome.
  destruct (m !! c) as [n|] eqn:Hc; [|by destruct Hsome].
  destruct p as [|x p].
  { rewrite bool_decide_false by (intros [? ?]; discriminate).
    destruct cs; cbn [store_node]; rewrite ?Hc; done. }
  destruct (decide (x = c)) as [->|Hx].
  - destruct cs as [|c' cs].
    + rewrite store_node_single, lookup_node_cons, lookup_delete_eq.
      rewrite bool_decide_true; [done|]. by exists p.
    + rewrite store_node_cons, Hc, !lookup_node_cons.
      rewrite lookup_insert_eq, Hc. rewrite IH by done.
      rewrite (bool_decide_ext (c' :: cs `prefix_of` p)
                 (c :: c' :: cs `prefix_of` c :: p)); [done|].
      split; intros [k Hk]; exists k; simpl in *; congruence.
  - rewrite bool_decide_false
      by (intros [k Hk]; simpl in Hk; congruence).
    destruct cs as [|c' cs].
    + rewrite store_node_single, !lookup_node_cons.
      by rewrite lookup_delete_ne.
    + rewrite store_node_cons, Hc, !lookup_node_cons.
      by rewrite lookup_insert_ne.
Qed.

End FsFacts.

(** ** [os] calls on paths in normal form *)

Module OsFacts.
Import Str Tree Sys Spec Logic PathFacts FsFacts.

Lemma bind_inv {A B} (m : M A) (f : A → M B) w b w' :
  bind m f w = (inr b, w') →
  ∃ a w1, m w = (inr a, w1) ∧ f a w1 = (inr b, w').
Proof.
  unfold bind. destruct (m w) as [[e|a] w1]; [done|]. eauto.
Qed.

Lemma syscall_inv {A} path
    (call : node → list string → string → errno + A) w a w' :
  Os.syscall path call w = (inr a, w') →
  Os.has_null_byte path = false ∧ call (fs w) (cwd w) path = inr a ∧ w' = w.
Proof.
  unfold Os.syscall. destruct (Os.has_null_byte path); [done|].
  unfold bind, read_world, lift_errno.
  destruct (call (fs w) (cwd w) path); [done|].
  unfold ret. by intros [= -> ->].
Qed.

Lemma syscall_ok {A} path
    (call : node → list string → string → errno + A) w a :
  Os.has_null_byte path = false → call (fs w) (cwd w) path = inr a →
  Os.syscall path call w = (inr a, w).
Proof.
  intros Hn Hc. unfold Os.syscall. rewrite Hn.
  unfold bind, read_world, lift_errno. by rewrite Hc.
Qed.

Lemma syscall_error {A} path
    (call : node → list string → string → errno + A) w e :
  Os.has_null_byte path = false → call (fs w) (cwd w) path = inl e →
  Os.syscall path call w = (inl (OSError e path), w).
Proof.
  intros Hn Hc. unfold Os.syscall. rewrite Hn.
  unfold bind, read_world, lift_errno. by rewrite Hc.
Qed.

Lemma try_stat_render w cs :
  Forall clean cs → Os.has_null_byte (render cs) = false →
  Os.try_stat w (render cs)
  = if is_dir (lookup_node (fs w) (removelast cs))
    then lookup_node (fs w) cs else None.
Proof.
  intros Hcs Hn. unfold Os.try_stat. rewrite Hn.
  pose proof (stat_render (fs w) (cwd w) cs Hcs) as H.
  destruct (stat (fs w) (cwd w) (render cs)) as [e|n].
  - destruct H as [->| ->]; [done|]. by destruct (is_dir _).
  - destruct H as [-> ->]. done.
Qed.

(** A node of the tree is seen by [stat], unless it is a root that is
    not a directory. *)
Lemma try_stat_node w cs n :
  Forall clean cs → Os.has_null_byte (render cs) = false →
  cs ≠ [] → lookup_node (fs w) cs = Some n →
  Os.try_stat w (render cs) = Some n.
Proof.
  intros Hcs Hn Hne Hl. rewrite try_stat_render by done.
  by rewrite lookup_parent_dir, Hl by (rewrite ?Hl; done).
Qed.

Lemma open_w_render w cs f w' :
  Forall clean cs → Os.open_w (render cs) w = (inr f, w') →
  f = cs ∧ cs ≠ []
  ∧ is_dir (lookup_node (fs w) (removelast cs)) = true
  ∧ Os.has_null_byte (render cs) = false
  ∧ w' = World (store_node (fs w) cs (Some (File ""))) (cwd w) (trace w).
Proof.
  intros Hcs H. unfold Os.open_w in H.
  apply bind_inv in H as ([f0 fs'] & w1 & Hsys & H).
  apply syscall_inv in Hsys as (Hn & Hopen & ->).
  unfold bind, set_fs, ret in H. simpl in H. injection H as <- <-.
  unfold open_trunc in Hopen. rewrite rstrip_render in Hopen by done.
  destruct (namei (fs w) (cwd w) (render cs)) as [|r] eqn:Hnamei; [done|].
  apply namei_render_inv in Hnamei as [-> Hdir]; [|done].
  assert (cs ≠ []).
  { intros ->. simpl in *. by destruct (fs w). }
  rewrite endswith_sep_render in Hopen by done.
  destruct (lookup_node (fs w) cs) as [[|]|]; by simplify_eq.
Qed.

Lemma file_write_str f content w :
  Os.file_write f (PStr content) w
  = (inr (), World (store_node (fs w) f (Some (File content)))
               (cwd w) (trace w)).
Proof. reflexivity. Qed.

Lemma isfile_render w cs content :
  Forall clean cs → Os.has_null_byte (render cs) = false → cs ≠ [] →
  lookup_node (fs w) cs = Some (File content) →
  Os.isfile w (render cs) = true.
Proof.
  intros Hcs Hn Hne Hl. unfold Os.isfile.
  by rewrite (try_stat_node w cs _ Hcs Hn Hne Hl).
Qed.

Lemma open_r_render w cs content :
  Forall clean cs → Os.has_null_byte (render cs) = false → cs ≠ [] →
  lookup_node (fs w) cs = Some (File content) →
  Os.open_r (render cs) w = (inr cs, w).
Proof.
  intros Hcs Hn Hne Hl. unfold Os.open_r. apply syscall_ok; [done|].
  rewrite namei_render; [by rewrite Hl|done|].
  apply lookup_parent_dir; [done|]. by rewrite Hl.
Qed.

Lemma file_read_file w f content :
  lookup_node (fs w) f = Some (File content) →
  Os.file_read f w = (inr (universal_newlines content), w).
Proof. intros H. unfold Os.file_read, read_world. by rewrite H. Qed.

Lemma universal_newlines_id s :
  contains "013"%char s = false → universal_newlines s = s.
Proof.
  induction s as [|a s IH]; [done|].
  cbn [contains]. intros [Ha Hs]%orb_false_elim.
  apply bool_decide_eq_false in Ha.
  assert (universal_newlines (String a s) = String a (universal_newlines s))
    as ->.
  { destruct a as [[] [] [] [] [] [] [] []]; try reflexivity. done. }
  by rewrite IH.
Qed.

Lemma universal_newlines_cons a s :
  a ≠ "013"%char →
  universal_newlines (String a s) = String a (universal_newlines s).
Proof.
  intros Ha. destruct a as [[] [] [] [] [] [] [] []]; try reflexivity. done.
Qed.

Lemma universal_newlines_cr a s :
  a ≠ "010"%char →
  universal_newlines (String "013" (String a s))
  = String "010" (universal_newlines (String a s)).
Proof.
  intros Ha. destruct a as [[] [] [] [] [] [] [] []]; try reflexivity. done.
Qed.

Lemma chr_byte n : (n < 256)%N → Utf8.byte (Utf8.chr n) = n.
Proof.
  intros H. unfold Utf8.byte, Utf8.chr. by rewrite N_ascii_embedding.
Qed.

Lemma chr_neq n a : (n < 256)%N → n ≠ Utf8.byte a → Utf8.chr n ≠ a.
Proof. intros Hn Hne <-. by rewrite chr_byte in Hne. Qed.

Lemma tail_byte x :
  Utf8.chr (128 + x mod 64) ≠ "013"%char
  ∧ Utf8.chr (128 + x mod 64) ≠ "010"%char.
Proof.
  assert (H : (x mod 64 < 64)%N) by (by apply N.mod_upper_bound).
  generalize dependent (x mod 64)%N. intros r H.
  split; (apply chr_neq; [lia|]); [change (Utf8.byte "013") with 13%N
                                 |change (Utf8.byte "010") with 10%N]; lia.
Qed.

Lemma head_byte base q bound :
  (q < bound)%N → (128 ≤ base)%N → (base + bound ≤ 256)%N →
  Utf8.chr (base + q) ≠ "013"%char ∧ Utf8.chr (base + q) ≠ "010"%char.
Proof.
  intros Hq Hb Hbound.
  split; (apply chr_neq; [lia|]); [change (Utf8.byte "013") with 13%N
                                 |change (Utf8.byte "010") with 10%N]; lia.
Qed.

(** The UTF-8 form of a code point other than CR is not empty and holds
    no CR, and it starts with LF only when the code point is LF. *)
Lemma encode_char_shape c :
  Utf8.scalar c = true → c ≠ 13%N →
  ∃ a rest, Utf8.encode_char c = String a rest
    ∧ (c ≠ 10%N → a ≠ "010"%char)
    ∧ ∀ s, universal_newlines (Utf8.encode_char c +:+ s)
           = Utf8.encode_char c +:+ universal_newlines s.
Proof.
  intros Hs Hc. unfold Utf8.scalar in Hs. unfold Utf8.encode_char.
  destruct (c <? 128)%N eqn:H1; [apply N.ltb_lt in H1|apply N.ltb_ge in H1].
  { do 2 eexists. split; [reflexivity|]. split.
    - intros H. apply chr_neq; [lia|done].
    - intros s. change (String ?a "" +:+ s) with (String a s).
      rewrite universal_newlines_cons; [done|]. apply chr_neq; [lia|done]. }
  destruct (c <? 2048)%N eqn:H2; [apply N.ltb_lt in H2|apply N.ltb_ge in H2].
  { assert (Hq : (c / 64 < 32)%N) by (apply N.Div0.div_lt_upper_bound; lia).
    destruct (head_byte 192 _ 32 Hq) as [Hcr Hlf]; [lia..|].
    do 2 eexists. split; [reflexivity|]. split; [done|].
    intros s. rewrite !Shape.append_cons. change ("" +:+ s) with s.
    rewrite !universal_newlines_cons; [done|apply tail_byte|done]. }
  destruct (c <? 65536)%N eqn:H3; [apply N.ltb_lt in H3|apply N.ltb_ge in H3].
  { assert (Hq : (c / 4096 < 16)%N) by (apply N.Div0.div_lt_upper_bound; lia).
    destruct (head_byte 224 _ 16 Hq) as [Hcr Hlf]; [lia..|].
    do 2 eexists. split; [reflexivity|]. split; [done|].
    intros s. rewrite !Shape.append_cons. change ("" +:+ s) with s.
    rewrite !universal_newlines_cons; [done|apply tail_byte..|done]. }
  assert (c < 1114112)%N.
  { apply orb_true_iff in Hs as [Hs|Hs].
    - apply N.ltb_lt in Hs. lia.
    - apply andb_true_iff in Hs as [_ Hs]. by apply N.ltb_lt in Hs. }
  assert (Hq : (c / 262144 < 5)%N) by (apply N.Div0.div_lt_upper_bound; lia).
  destruct (head_byte 240 _ 5 Hq) as [Hcr Hlf]; [lia..|].
  do 2 eexists. split; [reflexivity|]. split; [done|].
  intros s. rewrite !Shape.append_cons. change ("" +:+ s) with s.
  rewrite !universal_newlines_cons; [done|apply tail_byte..|done].
Qed.

(** Universal newlines on the bytes of a text are universal newlines on
    its code points. *)
Lemma encode_newlines text : ∀ content,
  Utf8.encode text = Some content →
  Utf8.encode (Utf8.newlines text) = Some (universal_newlines content).
Proof.
  induction text as [text IH] using (induction_ltof1 _ (@length N)).
  unfold ltof in IH. intros content.
  destruct text as [|c text]; [by intros [= <-]|].
  cbn [Utf8.encode Utf8.newlines].
  destruct (Utf8.scalar c) eqn:Hc; [|done].
  destruct (Utf8.encode text) as [s|] eqn:Hs; [|done]. intros [= <-].
  destruct (N.eqb_spec c 13) as [->|Hcr].
  - change (Utf8.encode_char 13) with (String "013" "").
    change (String "013" "" +:+ s) with (String "013" s).
    destruct text as [|d text].
    { injection Hs as <-. reflexivity. }
    cbn [Utf8.encode] in Hs.
    destruct (Utf8.scalar d) eqn:Hd; [|done].
    destruct (Utf8.encode text) as [s'|] eqn:Hs'; [|done].
    injection Hs as <-.
    destruct (N.eqb_spec d 10) as [->|Hlf].
    + change (Utf8.encode_char 10) with (String "010" "").
      change (String "010" "" +:+ s') with (String "010" s').
      cbn [universal_newlines Utf8.encode Utf8.scalar].
      change (Utf8.scalar 10) with true. cbn iota.
      by rewrite (IH text ltac:(simpl; lia) s' Hs').
    + destruct (N.eqb_spec d 13) as [->|Hd13].
      * change (Utf8.encode_char 13) with (String "013" "").
        change (String "013" "" +:+ s') with (String "013" s').
        rewrite universal_newlines_cr by done.
        cbn [Utf8.encode]. change (Utf8.scalar 10) with true. cbn iota.
        rewrite (IH (13%N :: text) ltac:(simpl; lia) (String "013" s'));
          [done|].
        cbn [Utf8.encode]. by rewrite Hs'.
      * destruct (encode_char_shape d Hd Hd13) as (a & rest & Ha & Hne & _).
        rewrite Ha, Shape.append_cons.
        rewrite universal_newlines_cr by auto.
        cbn [Utf8.encode]. change (Utf8.scalar 10) with true. cbn iota.
        rewrite (IH (d :: text) ltac:(simpl; lia) (String a (rest +:+ s')));
          [done|].
        cbn [Utf8.encode]. by rewrite Hd, Hs', Ha, Shape.append_cons.
  - destruct (encode_char_shape c Hc Hcr) as (a & rest & Ha & _ & Hun).
    rewrite Hun. cbn [Utf8.encode]. rewrite Hc.
    by rewrite (IH text ltac:(simpl; lia) s Hs).
Qed.

Ltac euclid := zify; Z.to_euclidean_division_equations; lia.

Lemma tail_continuation x :
  Utf8.continuation (Utf8.chr (128 + x mod 64)) = true
  ∧ Utf8.low (Utf8.chr (128 + x mod 64)) = (x mod 64)%N
  ∧ Utf8.byte (Utf8.chr (128 + x mod 64)) = (128 + x mod 64)%N.
Proof.
  assert (H : (x mod 64 < 64)%N) by (by apply N.mod_upper_bound).
  unfold Utf8.continuation, Utf8.low.
  rewrite chr_byte by (generalize dependent (x mod 64)%N; intros; lia).
  generalize dependent (x mod 64)%N. intros r H.
  repeat split; [|lia].
  apply andb_true_iff. split; [apply N.leb_le|apply N.ltb_lt]; lia.
Qed.

Lemma next_char_encode c rest :
  Utf8.scalar c = true →
  Utf8.next_char (Utf8.encode_char c +:+ rest) = Some (c, rest).
Proof.
  intros Hs. unfold Utf8.scalar in Hs. unfold Utf8.encode_char.
  destruct (c <? 128)%N eqn:H1; [apply N.ltb_lt in H1|apply N.ltb_ge in H1].
  { change (String ?a "" +:+ rest) with (String a rest).
    unfold Utf8.next_char. rewrite chr_byte by euclid.
    apply N.ltb_lt in H1. by rewrite H1. }
  destruct (c <? 2048)%N eqn:H2; [apply N.ltb_lt in H2|apply N.ltb_ge in H2].
  { rewrite !Shape.append_cons. change ("" +:+ rest) with rest.
    destruct (tail_continuation c) as (Hc & Hl & _).
    assert (Hq : (2 ≤ c / 64 < 32)%N) by euclid.
    unfold Utf8.next_char. rewrite chr_byte by euclid.
    rewrite (proj2 (N.ltb_ge _ _)) by euclid.
    rewrite (proj2 (N.ltb_ge _ _)) by euclid.
    rewrite (proj2 (N.ltb_lt _ _)) by euclid.
    rewrite Hc, Hl. do 2 f_equal. euclid. }
  destruct (c <? 65536)%N eqn:H3; [apply N.ltb_lt in H3|apply N.ltb_ge in H3].
  { rewrite !Shape.append_cons. change ("" +:+ rest) with rest.
    destruct (tail_continuation c) as (Hc & Hl & _).
    destruct (tail_continuation (c / 64)) as (Hc' & Hl' & Hb').
    assert (Hq : (c / 4096 < 16)%N) by euclid.
    unfold Utf8.next_char. rewrite chr_byte by euclid.
    rewrite (proj2 (N.ltb_ge _ _)) by euclid.
    rewrite (proj2 (N.ltb_ge _ _)) by euclid.
    rewrite (proj2 (N.ltb_ge _ _)) by euclid.
    rewrite (proj2 (N.ltb_lt _ _)) by euclid.
    rewrite Hc, Hc', Hl, Hl', Hb'. cbn [andb].
    assert (negb ((224 + c / 4096 =? 224)
                  && (128 + (c / 64) mod 64 <? 160))%N = true) as ->.
    { apply negb_true_iff, andb_false_iff.
      destruct (N.eqb_spec (224 + c / 4096) 224); [right|by left].
      apply N.ltb_ge. euclid. }
    assert (negb ((224 + c / 4096 =? 237)
                  && (160 <=? 128 + (c / 64) mod 64))%N = true) as ->.
    { apply negb_true_iff, andb_false_iff.
      destruct (N.eqb_spec (224 + c / 4096) 237); [right|by left].
      apply N.leb_gt.
      apply orb_true_iff in Hs as [Hs|Hs].
      - apply N.ltb_lt in Hs. euclid.
      - apply andb_true_iff in Hs as [Hs _]. apply N.leb_le in Hs. euclid. }
    cbn [andb]. do 2 f_equal. euclid. }
  assert (H4 : (c < 1114112)%N).
  { apply orb_true_iff in Hs as [Hs|Hs].
    - apply N.ltb_lt in Hs. lia.
    - apply andb_true_iff in Hs as [_ Hs]. by apply N.ltb_lt in Hs. }
  rewrite !Shape.append_cons. change ("" +:+ rest) with rest.
  destruct (tail_continuation c) as (Hc & Hl & _).
  destruct (tail_continuation (c / 64)) as (Hc' & Hl' & _).
  destruct (tail_continuation (c / 4096)) as (Hc'' & Hl'' & Hb'').
  assert (Hq : (c / 262144 < 5)%N) by euclid.
  unfold Utf8.next_char. rewrite chr_byte by euclid.
  rewrite (proj2 (N.ltb_ge _ _)) by euclid.
  rewrite (proj2 (N.ltb_ge _ _)) by euclid.
  rewrite (proj2 (N.ltb_ge _ _)) by euclid.
  rewrite (proj2 (N.ltb_ge _ _)) by euclid.
  rewrite (proj2 (N.ltb_lt _ _)) by euclid.
  rewrite Hc, Hc', Hc'', Hl, Hl', Hl'', Hb''. cbn [andb].
  assert (negb ((240 + c / 262144 =? 240)
                && (128 + (c / 4096) mod 64 <? 144))%N = true) as ->.
  { apply negb_true_iff, andb_false_iff.
    destruct (N.eqb_spec (240 + c / 262144) 240); [right|by left].
    apply N.ltb_ge. euclid. }
  assert (negb ((240 + c / 262144 =? 244)
                && (144 <=? 128 + (c / 4096) mod 64))%N = true) as ->.
  { apply negb_true_iff, andb_false_iff.
    destruct (N.eqb_spec (240 + c / 262144) 244); [right|by left].
    apply N.leb_gt. euclid. }
  cbn [andb]. do 2 f_equal. euclid.
Qed.

Lemma encode_char_cons c : ∃ a rest, Utf8.encode_char c = String a rest.
Proof.
  unfold Utf8.encode_char.
  destruct (c <? 128)%N; [by eauto|].
  destruct (c <? 2048)%N; [by eauto|].
  destruct (c <? 65536)%N; by eauto.
Qed.

Lemma length_append s t :
  String.length (s +:+ t) = String.length s + String.length t.
Proof.
  induction s as [|a s IH]; [done|].
  rewrite Shape.append_cons. simpl. by rewrite IH.
Qed.

(** Decoding gives back the text that was encoded. *)
Lemma decode_encode text : ∀ s fuel,
  Utf8.encode text = Some s → String.length s ≤ fuel →
  Utf8.points_rec fuel s = text ∧ Utf8.valid_rec fuel s = true.
Proof.
  induction text as [|c text IH]; intros s fuel Hs Hfuel.
  { injection Hs as <-. by destruct fuel. }
  cbn [Utf8.encode] in Hs.
  destruct (Utf8.scalar c) eqn:Hc; [|done].
  destruct (Utf8.encode text) as [s'|] eqn:Hs'; [|done].
  injection Hs as <-.
  pose proof (next_char_encode c s' Hc) as Hnext.
  destruct (encode_char_cons c) as (a & rest & Ha).
  rewrite Ha, Shape.append_cons in *.
  cbn [String.length] in Hfuel. rewrite length_append in Hfuel.
  destruct fuel as [|fuel]; [lia|].
  cbn [Utf8.points_rec Utf8.valid_rec]. rewrite Hnext.
  destruct (IH s' fuel eq_refl) as [-> ->]; [lia|done].
Qed.

Lemma points_encode text s :
  Utf8.encode text = Some s → Utf8.points s = text ∧ Utf8.valid s = true.
Proof. intros H. by apply decode_encode. Qed.

End OsFacts.

(** ** Writing, then reading *)

Module RoundTrip.
Import Str Tree Sys Spec Logic Server PathFacts FsFacts OsFacts Shape Dispatch.

Lemma safe_path_of_inv T v w safe w' :
  safe_path_of T v w = (inr safe, w') →
  ∃ s, v = PStr s ∧ safe = resolve T s
       ∧ w' = World (fs w) (cwd w) (trace w ++ [Resolved s (resolve T s)]).
Proof.
  destruct v; try discriminate. unfold safe_path_of, bind, log, ret.
  intros [= <- <-]. eauto.
Qed.

(** What a successful [write_file] leaves behind. *)
Lemma write_file_inv T d w r w' content :
  rooted T = true →
  param d "content" = PStr content →
  write_file T (PDict d) w = (inr r, w') →
  is_success r →
  ∃ s cs, param d "filepath" = PStr s ∧ s ≠ ""
    ∧ resolve T s = render cs ∧ Forall clean cs ∧ cs ≠ []
    ∧ Os.has_null_byte (render cs) = false
    ∧ lookup_node (fs w') cs = Some (File content).
Proof.
  intros HT Hc Hw Hr. unfold write_file in Hw.
  rewrite !get_dict, !bind_ret, Hc in Hw.
  destruct (Py.truthy (param d "filepath")) eqn:Hf;
    cbn [negb Py.is_none] in Hw.
  2:{ injection Hw as <- <-. exfalso.
      eapply error_not_success; [|exact Hr]. by eexists. }
  apply bind_inv in Hw as (safe & w0 & Hsafe & Hw).
  apply safe_path_of_inv in Hsafe as (s & Hs & -> & ->).
  destruct (resolve_render T s HT) as (cs & Hcs & Hclean).
  rewrite Hcs in Hw.
  apply bind_inv in Hw as ([] & w1 & Hmk & Hw).
  apply bind_inv in Hw as (f & w2 & Hopen & Hw).
  apply open_w_render in Hopen as (-> & Hne & Hdir & Hn & ->); [|done].
  apply bind_inv in Hw as ([] & w3 & Hwrite & Hw).
  rewrite file_write_str in Hwrite. injection Hwrite as <-.
  injection Hw as <- <-. simpl.
  exists s, cs. repeat split; try done.
  - intros ->. by rewrite Hs in Hf.
  - apply lookup_store_eq; [done|]. by apply store_parent_dir.
Qed.

(** What [read_file] answers on a regular file. *)
Lemma read_file_regular T d s cs content w :
  param d "filepath" = PStr s → s ≠ "" →
  resolve T s = render cs → Forall clean cs → cs ≠ [] →
  Os.has_null_byte (render cs) = false →
  lookup_node (fs w) cs = Some (File content) →
  (dispatch T "read_file" (PDict d) w).1
  = {[ "content" := PStr (universal_newlines content);
       "filepath" := PStr s ]}.
Proof.
  intros Hs Hne Hcs Hclean Hcne Hn Hl.
  unfold dispatch, guarded. rewrite operation_read_file.
  unfold read_file. rewrite get_dict, bind_ret, Hs.
  destruct s as [|a s]; [done|]. cbn [Py.truthy nonempty negb].
  unfold safe_path_of. rewrite Hcs.
  unfold bind at 1. unfold bind at 1. unfold log, ret at 1.
  unfold bind at 1. unfold Os.path_isfile, read_world.
  set (w1 := World (fs w) (cwd w) _).
  assert (Hl1 : lookup_node (fs w1) cs = Some (File content)) by done.
  rewrite (isfile_render w1 cs content) by done. cbn [negb].
  unfold bind. rewrite (open_r_render w1 cs content) by done.
  by rewrite (file_read_file w1 cs content).
Qed.

(** C2 (as amended). For every filepath that [write_file] accepts and
    every content string, [write_file] followed by [read_file] of the same
    filepath succeeds, and returns the content with each CR LF and each
    single CR turned into LF; it returns exactly the content written when
    the content has no carriage return (the empty string and text of
    several lines among them). The content is any text that UTF-8 can
    encode: whatever its code points, what is returned is the encoding
    of the text with the same change made on its code points, and is
    decoded to that text. *)
Theorem write_then_read T d d' content w :
  rooted T = true →
  param d "content" = PStr content →
  param d' "filepath" = param d "filepath" →
  is_success (dispatch T "write_file" (PDict d) w).1 →
  (dispatch T "read_file" (PDict d')
     (dispatch T "write_file" (PDict d) w).2).1
  = {[ "content" := PStr (universal_newlines content);
       "filepath" := param d "filepath" ]}
  ∧ (contains "013"%char content = false →
     universal_newlines content = content)
  ∧ (∀ text, Utf8.encode text = Some content →
       Utf8.encode (Utf8.newlines text) = Some (universal_newlines content)
       ∧ Utf8.points (universal_newlines content) = Utf8.newlines text).
Proof.
  intros HT Hc Hd' Hok. split; [|split; [apply universal_newlines_id|]].
  2: { intros text Htext. apply encode_newlines in Htext.
       split; [done|]. by apply points_encode in Htext as [? _]. }
  assert (Hww : dispatch T "write_file" (PDict d) w
                = guarded (write_file T (PDict d)) w) by reflexivity.
  rewrite Hww in *. clear Hww. unfold guarded in *.
  destruct (write_file T (PDict d) w) as [[e|r] w'] eqn:Hw;
    cbn [fst snd] in *.
  { exfalso. eapply error_not_success; [|exact Hok].
    apply on_exception_error. }
  destruct (write_file_inv T d w r w' content HT Hc Hw Hok)
    as (s & cs & Hs & Hne & Hcs & Hclean & Hcne & Hn & Hl).
  rewrite Hs in *.
  by apply (read_file_regular T d' s cs content w').
Qed.

End RoundTrip.

(** ** Deleting *)

Module Delete.
Import Str Tree Sys Spec Terms Logic Server PathFacts FsFacts OsFacts Shape.
Import Dispatch.

Lemma exists_render_inv w cs :
  Forall clean cs → Os.exists_ w (render cs) = true →
  Os.has_null_byte (render cs) = false
  ∧ is_dir (lookup_node (fs w) (removelast cs)) = true
  ∧ ∃ n, lookup_node (fs w) cs = Some n.
Proof.
  intros Hcs H. unfold Os.exists_ in H. apply bool_decide_eq_true in H.
  destruct (Os.has_null_byte (render cs)) eqn:Hn.
  { unfold Os.try_stat in H. rewrite Hn in H. by destruct H. }
  rewrite try_stat_render in H by done.
  destruct (is_dir (lookup_node (fs w) (removelast cs)));
    [|by destruct H].
  destruct H as [n Hl]. eauto.
Qed.

Lemma exists_store_none w cs fs' :
  Forall clean cs → cs ≠ [] →
  is_dir (lookup_node (fs w) (removelast cs)) = true →
  fs' = store_node (fs w) cs None →
  Os.exists_ (World fs' (cwd w) (trace w)) (render cs) = false.
Proof.
  intros Hcs Hne Hdir ->. unfold Os.exists_. apply bool_decide_eq_false.
  unfold Os.try_stat. destruct (Os.has_null_byte (render cs)) eqn:Hn;
    [by intros []|].
  pose proof (stat_render (store_node (fs w) cs None) (cwd w) cs Hcs) as H.
  cbn [fs cwd].
  destruct (stat _ _ _) as [e|n]; [by intros []|].
  destruct H as [_ H]. by rewrite lookup_store_eq in H.
Qed.

Lemma lookup_node_snoc fs loc c :
  lookup_node fs (loc ++ [c])
  = match lookup_node fs loc with
    | Some (Dir m) => m !! c
    | _ => None
    end.
Proof.
  rewrite lookup_node_app.
  destruct (lookup_node fs loc) as [[|m]|]; [done| |done].
  simpl. by destruct (m !! c).
Qed.

Lemma store_node_snoc fs loc m c v :
  loc ≠ [] → lookup_node fs loc = Some (Dir m) →
  store_node fs (loc ++ [c]) v
  = store_node fs loc
      (Some (Dir (match v with Some x => <[c:=x]> m | None => delete c m end))).
Proof.
  revert fs. induction loc as [|a loc IH]; intros fs Hne Hl; [done|].
  destruct fs as [|m0]; [done|]. cbn [lookup_node] in Hl.
  destruct (m0 !! a) as [n|] eqn:Ha; [|done].
  destruct loc as [|b loc].
  - simpl in Hl. injection Hl as ->. simpl. by rewrite Ha.
  - change ((a :: b :: loc) ++ [c]) with (a :: (b :: loc) ++ [c]).
    cbn [app]. rewrite !store_node_cons, Ha. f_equal. f_equal.
    by apply IH.
Qed.

Lemma store_node_same fs cs n :
  lookup_node fs cs = Some n → cs ≠ [] → store_node fs cs (Some n) = fs.
Proof.
  revert fs. induction cs as [|c cs IH]; intros fs Hl Hne; [done|].
  destruct fs as [|m]; [done|]. cbn [lookup_node] in Hl.
  destruct (m !! c) as [n'|] eqn:Hc; [|done].
  destruct cs as [|c' cs].
  - simpl in Hl. injection Hl as ->. simpl. by rewrite insert_id.
  - rewrite store_node_cons, Hc. rewrite IH by done. by rewrite insert_id.
Qed.

Lemma foldl_delete_lookup (l : list (string * node)) (m : gmap string node) k :
  foldl (λ acc e, delete e.1 acc) m l !! k
  = if bool_decide (k ∈ l.*1) then None else m !! k.
Proof.
  revert m. induction l as [|[name n] l IH]; intros m; [done|].
  cbn [foldl fmap list_fmap fst]. rewrite IH.
  destruct (decide (k = name)) as [->|Hk].
  - rewrite lookup_delete_eq.
    rewrite (bool_decide_true (name ∈ name :: l.*1))
      by (apply elem_of_cons; by left).
    by case_bool_decide.
  - rewrite lookup_delete_ne by done.
    destruct (decide (k ∈ l.*1)).
    + rewrite !bool_decide_true; [done|by apply elem_of_cons; right|done].
    + rewrite !bool_decide_false; [done| |done].
      by intros [?|?]%elem_of_cons.
Qed.

Lemma foldl_delete_all (m : gmap string node) :
  foldl (λ acc e, delete e.1 acc) m (map_to_list m) = ∅.
Proof.
  apply map_eq. intros k. rewrite foldl_delete_lookup, lookup_empty.
  case_bool_decide as Hk; [done|].
  destruct (m !! k) as [n|] eqn:Hm; [|done].
  exfalso. apply Hk. apply list_elem_of_fmap. exists (k, n).
  split; [done|]. by apply elem_of_map_to_list.
Qed.

Lemma world_eta w : World (fs w) (cwd w) (trace w) = w.
Proof. by destruct w. Qed.

Lemma at_fd_ok w loc name call fs' :
  call (fs w) loc name = inr fs' →
  Os.at_fd loc name call w = (inr (), World fs' (cwd w) (trace w)).
Proof.
  intros H. unfold Os.at_fd, bind, read_world. by rewrite H.
Qed.

Section Entries.
Variables (calls : nat) (loc : list string).
Hypothesis Hloc : loc ≠ [].
Hypothesis IH : ∀ loc path w m,
  loc ≠ [] → lookup_node (fs w) loc = Some (Dir m) →
  nested_within calls (Dir m) = true →
  Os.rmtree_safe_fd calls loc path w
  = (inr (), World (store_node (fs w) loc (Some (Dir ∅))) (cwd w) (trace w)).

Lemma for_each_entries path l : ∀ w m,
  NoDup l.*1 → lookup_node (fs w) loc = Some (Dir m) →
  (∀ name n, (name, n) ∈ l →
     m !! name = Some n ∧ nested_within calls n = true) →
  Os.for_each l (λ entry,
    let fullname := PosixPath.join path entry.1 in
    match entry.2 with
    | Dir _ =>
        Os.rmtree_safe_fd calls (loc ++ [entry.1]) fullname;;
        Os.at_fd loc entry.1 Sys.rmdirat
    | File _ => Os.at_fd loc entry.1 Sys.unlinkat
    end) w
  = (inr (),
     World (store_node (fs w) loc
              (Some (Dir (foldl (λ acc e, delete e.1 acc) m l))))
       (cwd w) (trace w)).
Proof.
  induction l as [|[name n] l IHl]; intros w m Hnd Hl Hin.
  { simpl. rewrite store_node_same by done. by rewrite world_eta. }
  cbn [fmap list_fmap fst] in Hnd. apply NoDup_cons in Hnd as [Hname Hnd].
  destruct (Hin name n) as [Hm Hn]; [(apply elem_of_cons; by left)|].
  assert (Hchild : lookup_node (fs w) (loc ++ [name]) = Some n).
  { by rewrite lookup_node_snoc, Hl. }
  assert (Hdir : is_dir (lookup_node (fs w) (removelast (loc ++ [name])))
                 = true).
  { by rewrite removelast_snoc, Hl. }
  assert (Hstep :
    (let fullname := PosixPath.join path name in
     match n with
     | Dir _ =>
         Os.rmtree_safe_fd calls (loc ++ [name]) fullname;;
         Os.at_fd loc name Sys.rmdirat
     | File _ => Os.at_fd loc name Sys.unlinkat
     end) w
    = (inr (), World (store_node (fs w) loc (Some (Dir (delete name m))))
                 (cwd w) (trace w))).
  { cbn zeta. destruct n as [content|mm].
    - rewrite (at_fd_ok w loc name _ (store_node (fs w) (loc ++ [name]) None)).
      + by rewrite (store_node_snoc _ _ m).
      + unfold unlinkat. by rewrite Hchild.
    - unfold bind at 1.
      rewrite (IH (loc ++ [name]) _ w mm); [|by destruct loc|done|done].
      rewrite (at_fd_ok _ loc name _ (store_node (fs w) (loc ++ [name]) None)).
      + cbn [cwd trace]. by rewrite (store_node_snoc _ _ m).
      + unfold rmdirat. cbn [fs]. rewrite lookup_store_eq by (done || by destruct loc).
        rewrite bool_decide_true by apply map_size_empty.
        by rewrite store_store. }
  cbn [Os.for_each]. rewrite (bind_inr _ _ w () _ Hstep).
  rewrite (IHl _ (delete name m)); cbn [fs cwd trace].
  - by rewrite store_store.
  - done.
  - apply lookup_store_eq; [done|].
    apply lookup_parent_dir; [done|]. by rewrite Hl.
  - intros name' n' Hin'. destruct (Hin name' n') as [Hm' Hn'];
      [by apply elem_of_cons; right|].
    split; [|done]. rewrite lookup_delete_ne; [done|].
    intros <-. apply Hname. apply list_elem_of_fmap. by exists (name, n').
Qed.

End Entries.

Lemma rmtree_safe_fd_empties calls : ∀ loc path w m,
  loc ≠ [] → lookup_node (fs w) loc = Some (Dir m) →
  nested_within calls (Dir m) = true →
  Os.rmtree_safe_fd calls loc path w
  = (inr (), World (store_node (fs w) loc (Some (Dir ∅))) (cwd w) (trace w)).
Proof.
  induction calls as [|calls IH]; intros loc path w m Hloc Hl Hn; [done|].
  cbn [Os.rmtree_safe_fd]. unfold bind at 1, Os.scandir at 1.
  unfold bind at 1, read_world. rewrite Hl. unfold ret at 1.
  rewrite (for_each_entries calls loc Hloc IH path (map_to_list m) w m).
  - by rewrite foldl_delete_all.
  - apply NoDup_fst_map_to_list.
  - done.
  - intros name n Hin. split; [by apply elem_of_map_to_list|].
    cbn [nested_within] in Hn. rewrite forallb_forall in Hn.
    apply Hn. apply list_elem_of_In. apply list_elem_of_fmap.
    by exists (name, n).
Qed.

Lemma nested_within_file k content : nested_within k (File content) = true.
Proof. by destruct k. Qed.

Lemma nested_within_mono k : ∀ k' n,
  k ≤ k' → nested_within k n = true → nested_within k' n = true.
Proof.
  induction k as [|k IH]; intros k' n Hk Hn.
  { destruct n; [apply nested_within_file|done]. }
  destruct n as [content|m]; [apply nested_within_file|].
  destruct k' as [|k']; [lia|]. cbn [nested_within] in *.
  rewrite forallb_forall in *. intros child Hchild.
  apply IH; [lia|]. by apply Hn.
Qed.

Lemma rmtree_render w cs m :
  Forall clean cs → cs ≠ [] → Os.has_null_byte (render cs) = false →
  lookup_node (fs w) cs = Some (Dir m) →
  nested_within nesting_allowed (Dir m) = true →
  Os.rmtree (render cs) w
  = (inr (), World (store_node (fs w) cs None) (cwd w) (trace w)).
Proof.
  intros Hcs Hne Hn Hl Hdeep. unfold Os.rmtree.
  assert (Hdir : is_dir (lookup_node (fs w) (removelast cs)) = true).
  { apply lookup_parent_dir; [done|]. by rewrite Hl. }
  erewrite bind_inr; last first.
  { apply syscall_ok; [done|]. by apply namei_render. }
  unfold bind at 1, read_world. rewrite Hl.
  unfold bind at 1.
  rewrite (rmtree_safe_fd_empties _ cs _ w m); [|done|done|]; last first.
  { apply (nested_within_mono nesting_allowed); [|done].
    unfold nesting_allowed, Os.recursion_limit. lia. }
  unfold Os.rmdir.
  erewrite bind_inr; last first.
  { apply syscall_ok; [done|]. cbn [fs cwd]. unfold rmdir.
    rewrite rstrip_render by done.
    rewrite namei_render by (by try apply store_parent_dir).
    rewrite split_sep_render, (bool_decide_false (cs = [])) by done.
    assert (List.last ("" :: cs) "" = List.last cs "") as ->
      by by destruct cs.
    destruct (last_clean cs Hne Hcs) as [-> ->].
    rewrite lookup_store_eq by done.
    rewrite bool_decide_true by apply map_size_empty.
    rewrite store_store. by destruct cs. }
  reflexivity.
Qed.

Lemma contained_not_root T cs :
  rooted T = true → T ≠ "/" → contained T (render cs) = true → cs ≠ [].
Proof.
  intros HT Hroot Hc ->. unfold contained in Hc.
  apply orb_true_iff in Hc as [Hc|Hc].
  - apply bool_decide_eq_true in Hc. by rewrite <- Hc in Hroot.
  - change (render []) with "/" in Hc. unfold startswith in Hc.
    destruct T as [|a [|b T]]; [done| |];
      rewrite ?Shape.append_cons in Hc; simpl in Hc;
      by destruct (ascii_dec a "/").
Qed.

Lemma remove_render w cs content :
  Forall clean cs → cs ≠ [] → Os.has_null_byte (render cs) = false →
  lookup_node (fs w) cs = Some (File content) →
  Os.remove (render cs) w
  = (inr (), World (store_node (fs w) cs None) (cwd w) (trace w)).
Proof.
  intros Hcs Hne Hn Hl. unfold Os.remove.
  erewrite bind_inr; last first.
  { apply syscall_ok; [done|]. unfold unlink.
    rewrite namei_render; [by rewrite Hl|done|].
    apply lookup_parent_dir; [done|]. by rewrite Hl. }
  reflexivity.
Qed.

(** C7 (as amended). For every filepath whose resolved target exists,
    lies in the sandbox (it is the sandbox root or below it), has a path
    of less than 4096 bytes and holds a tree of at most 200 levels of
    directories, [delete_file] returns [{success: true, filepath}] and
    removes the target: afterwards nothing is left at the target or below
    it (the whole subtree of a directory, the one file of a regular file),
    and every other path holds what it held. When the resolved target does
    not exist the reply is the error "File or directory <filepath> not
    found" and the file system is unchanged. *)
Theorem delete_file_removes T d s w :
  rooted T = true → T ≠ "/" →
  param d "filepath" = PStr s → s ≠ "" →
  (Os.exists_ w (resolve T s) = true →
   contained T (resolve T s) = true →
   (utf8_length (resolve T s) < PATH_MAX)%Z →
   shallow (lookup_node (fs w) (resolved_components T s)) = true →
   ∃ cs w',
     resolve T s = render cs
     ∧ dispatch T "delete_file" (PDict d) w
       = ({[ "success" := PBool true; "filepath" := PStr s ]}, w')
     ∧ Os.exists_ w' (resolve T s) = false
     ∧ ∀ p, kind (lookup_node (fs w') p)
            = if bool_decide (cs `prefix_of` p) then None
              else kind (lookup_node (fs w) p))
  ∧ (Os.exists_ w (resolve T s) = false →
     ∃ w',
       dispatch T "delete_file" (PDict d) w
       = (error ("File or directory " +:+ s +:+ " not found"), w')
       ∧ fs w' = fs w).
Proof.
  intros HT HTroot Hs Hne.
  destruct (resolve_components T s HT) as [Hcs Hclean].
  set (cs := resolved_components T s) in *.
  assert (Hstart :
    dispatch T "delete_file" (PDict d) w
    = guarded
        (let* found := Os.path_exists (render cs) in
         if negb found
         then ret (error ("File or directory " +:+ s +:+ " not found"))
         else
           let* isd := Os.path_isdir (render cs) in
           (if isd then Os.rmtree (render cs) else Os.remove (render cs));;
           ret {[ "success" := PBool true; "filepath" := PStr s ]})
        (World (fs w) (cwd w) (trace w ++ [Resolved s (render cs)]))).
  { unfold dispatch. rewrite operation_delete_file.
    unfold delete_file. unfold guarded.
    rewrite get_dict, bind_ret, Hs.
    destruct s as [|a s]; [done|]. cbn [Py.truthy nonempty negb].
    unfold safe_path_of. rewrite Hcs. reflexivity. }
  rewrite Hstart. clear Hstart. rewrite Hcs.
  set (w0 := World (fs w) (cwd w) _).
  assert (Hex : Os.exists_ w0 (render cs) = Os.exists_ w (render cs))
    by reflexivity.
  split.
  - intros Hfound Hin _ Hdeep.
    assert (Hcne : cs ≠ []) by by apply (contained_not_root T).
    destruct (exists_render_inv w cs Hclean Hfound) as (Hn & Hdir & n & Hl).
    exists cs, (World (store_node (fs w) cs None) (cwd w) (trace w0)).
    split; [done|]. split; [|split].
    + unfold guarded, bind at 1, Os.path_exists, read_world.
      rewrite Hex, Hfound. cbn [negb].
      unfold bind at 1, Os.path_isdir, read_world.
      assert (His : Os.isdir w0 (render cs) = is_dir (Some n)).
      { unfold Os.isdir. by rewrite (try_stat_node w0 cs n). }
      rewrite His. unfold bind. rewrite Hl in Hdeep.
      destruct n as [content|m]; cbn [is_dir].
      * by rewrite (remove_render w0 cs content).
      * by rewrite (rmtree_render w0 cs m).
    + by apply (exists_store_none w0 cs).
    + intros p. cbn [fs]. apply kind_store_none; [done|]. by rewrite Hl.
  - intros Hmissing. exists w0. split; [|done].
    unfold guarded, bind at 1, Os.path_exists, read_world.
    by rewrite Hex, Hmissing.
Qed.

End Delete.

(** ** [os.makedirs] *)

Module MakeDirs.
Import Str Tree Sys Spec Terms Logic Server PathFacts FsFacts OsFacts.

Lemma makedirs_rec_S fuel name :
  Os.makedirs_rec (S fuel) name
  = let (head, tail) := PosixPath.split name in
    let (head, tail) :=
      if nonempty tail then (head, tail) else PosixPath.split head in
    let* create :=
      (if nonempty head && nonempty tail then
         let* present := Os.path_exists head in
         if present then ret true
         else
           try_except (Os.makedirs_rec fuel head)
             (λ e, match e with
                   | OSError EEXIST _ => ret ()
                   | _ => raise e
                   end);;
           ret (negb (bool_decide (tail = ".")))
       else ret true) in
    if create then
      try_except (Os.mkdir name)
        (λ e, match e with
              | OSError _ _ =>
                  let* d := Os.path_isdir name in
                  if d then ret () else raise e
              | _ => raise e
              end)
    else ret ().
Proof. reflexivity. Qed.

Lemma string_length_app s t :
  String.length (s +:+ t) = String.length s + String.length t.
Proof.
  induction s as [|a s IH]; [done|].
  rewrite Shape.append_cons. simpl. by rewrite IH.
Qed.

Lemma length_render cs :
  Forall clean cs → length cs ≤ String.length (render cs).
Proof.
  induction cs as [|c cs IH] using rev_ind; [simpl; lia|].
  intros [Hcs Hc]%Forall_app. rewrite render_snoc. specialize (IH Hcs).
  rewrite length_app. cbn [length].
  case_bool_decide; subst; rewrite !string_length_app;
    change (String.length "/") with 1; cbn [length] in *; lia.
Qed.

Lemma mkdir_render_new w cs :
  Forall clean cs → Os.has_null_byte (render cs) = false →
  is_dir (lookup_node (fs w) (removelast cs)) = true →
  lookup_node (fs w) cs = None →
  Os.mkdir (render cs) w
  = (inr (), World (store_node (fs w) cs (Some (Dir ∅))) (cwd w) (trace w)).
Proof.
  intros Hcs Hn Hdir Hl. unfold Os.mkdir.
  erewrite bind_inr; last first.
  { apply syscall_ok; [done|]. unfold mkdir.
    rewrite rstrip_render by done.
    rewrite namei_render by done. by rewrite Hl. }
  reflexivity.
Qed.

Lemma mkdir_render_exists w cs n :
  Forall clean cs → Os.has_null_byte (render cs) = false →
  is_dir (lookup_node (fs w) (removelast cs)) = true →
  lookup_node (fs w) cs = Some n →
  Os.mkdir (render cs) w = (inl (OSError EEXIST (render cs)), w).
Proof.
  intros Hcs Hn Hdir Hl. unfold Os.mkdir.
  erewrite bind_inl; [done|].
  apply syscall_error; [done|]. unfold mkdir.
  rewrite rstrip_render by done.
  rewrite namei_render by done. by rewrite Hl.
Qed.

Lemma no_file_on_path_take fs cs k :
  no_file_on_path fs cs = true →
  is_file (lookup_node fs (take k cs)) = false.
Proof.
  unfold no_file_on_path. rewrite forallb_forall. intros H.
  destruct (decide (k ≤ length cs)) as [Hk|Hk].
  - apply negb_true_iff, H, in_seq. lia.
  - rewrite take_ge by lia. rewrite <- (take_ge cs (length cs)) by lia.
    apply negb_true_iff, H, in_seq. lia.
Qed.

Lemma no_file_on_path_snoc fs cs c :
  no_file_on_path fs (cs ++ [c]) = true → no_file_on_path fs cs = true.
Proof.
  intros H. unfold no_file_on_path. apply forallb_forall.
  intros k [_ Hk]%in_seq. apply negb_true_iff.
  rewrite <- (take_app_le cs [c]) by lia.
  by apply no_file_on_path_take.
Qed.

Lemma exists_render w cs :
  Forall clean cs → Os.has_null_byte (render cs) = false →
  Os.exists_ w (render cs)
  = bool_decide (is_Some (if is_dir (lookup_node (fs w) (removelast cs))
                          then lookup_node (fs w) cs else None)).
Proof. intros. unfold Os.exists_. by rewrite try_stat_render. Qed.

Lemma isdir_render w cs :
  Forall clean cs → Os.has_null_byte (render cs) = false →
  Os.isdir w (render cs)
  = is_dir (lookup_node (fs w) (removelast cs))
    && is_dir (lookup_node (fs w) cs).
Proof.
  intros. unfold Os.isdir. rewrite try_stat_render by done.
  by destruct (is_dir (lookup_node (fs w) (removelast cs))).
Qed.

Lemma not_file_cases o :
  is_file o = false → o = None ∨ is_dir o = true.
Proof. destruct o as [[]|]; auto. Qed.

Lemma has_null_render_snoc cs c :
  Os.has_null_byte (render (cs ++ [c])) = false →
  Os.has_null_byte (render cs) = false.
Proof.
  unfold Os.has_null_byte. rewrite contains_render by done.
  by intros [? _]%orb_false_elim.
Qed.

(** [makedirs] on a path in normal form succeeds when no regular file is
    in the way, and makes the directory when it is not there. *)
Lemma makedirs_rec_render cs :
  ∀ fuel w,
    Forall clean cs → Os.has_null_byte (render cs) = false →
    no_file_on_path (fs w) cs = true →
    length cs < fuel →
    ∃ fs',
      Os.makedirs_rec fuel (render cs) w
      = (inr (), World fs' (cwd w) (trace w))
      ∧ (lookup_node (fs w) cs = None → lookup_node fs' cs = Some (Dir ∅))
      ∧ (is_dir (lookup_node (fs w) cs) = true → fs' = fs w).
Proof.
  induction cs as [|c cs IH] using rev_ind; intros fuel w Hclean Hn Hno Hfuel.
  - destruct fuel as [|fuel]; [lia|].
    pose proof (no_file_on_path_take _ _ 0 Hno) as Hroot.
    destruct w as [[content|m] cwd0 tr]; [done|].
    exists (Dir m). split; [reflexivity|]. by split.
  - destruct fuel as [|fuel]; [lia|].
    apply Forall_app in Hclean as [Hcs Hc].
    apply Forall_inv in Hc.
    pose proof (has_null_render_snoc _ _ Hn) as Hn'.
    pose proof (no_file_on_path_snoc _ _ _ Hno) as Hno'.
    rewrite length_app in Hfuel. simpl in Hfuel.
    assert (Hcs' : Forall clean (cs ++ [c]))
      by (apply Forall_app; split; [done|by constructor]).
    rewrite makedirs_rec_S, split_render by done.
    assert (Hc1 : nonempty c = true)
      by (destruct Hc as [? _]; by destruct c).
    rewrite Hc1. cbv zeta iota beta. rewrite nonempty_render, Hc1.
    cbn [andb].
    assert (Hdot : bool_decide (c = ".") = false)
      by (apply bool_decide_eq_false; apply Hc).
    rewrite Hdot. cbn [negb].
    pose proof (no_file_on_path_take _ _ (length cs) Hno) as Hparent.
    rewrite take_app_length in Hparent.
    pose proof (no_file_on_path_take _ _ (length (cs ++ [c])) Hno) as Hself.
    rewrite firstn_all in Hself.
    destruct (not_file_cases _ Hparent) as [Hp|Hp].
    + (* the parent is missing: it is made first *)
      destruct (IH fuel w Hcs Hn' Hno' ltac:(lia)) as (fs1 & Hrec & Hnew & _).
      specialize (Hnew Hp).
      assert (Hself' : lookup_node (fs w) (cs ++ [c]) = None)
        by (by rewrite lookup_node_app, Hp).
      exists (store_node fs1 (cs ++ [c]) (Some (Dir ∅))).
      split; [|split].
      * unfold bind at 1. unfold bind at 1.
        unfold Os.path_exists at 1, read_world at 1.
        rewrite exists_render by done. rewrite Hp.
        rewrite bool_decide_false
          by (destruct (is_dir _); by intros []).
        unfold bind at 1. unfold try_except at 1. rewrite Hrec.
        unfold ret at 1. unfold try_except.
        rewrite (mkdir_render_new (World fs1 (cwd w) (trace w)) (cs ++ [c]));
          try done.
        -- rewrite removelast_snoc. cbn [fs]. by rewrite Hnew.
        -- cbn [fs]. by rewrite lookup_node_app, Hnew.
      * intros _. apply lookup_store_eq; [by destruct cs|].
        rewrite removelast_snoc. by rewrite Hnew.
      * by rewrite Hself'.
    + (* the parent is there *)
      assert (Hex : Os.exists_ w (render cs) = true).
      { rewrite exists_render by done.
        assert (Hup : is_dir (lookup_node (fs w) (removelast cs)) = true).
        { destruct (decide (cs = [])) as [->|Hne]; [done|].
          apply lookup_parent_dir; [done|by apply is_dir_Some]. }
        rewrite Hup. apply bool_decide_eq_true. by apply is_dir_Some. }
      unfold bind at 1. unfold bind at 1.
      unfold Os.path_exists at 1, read_world at 1. rewrite Hex.
      unfold ret at 1. unfold try_except.
      destruct (not_file_cases _ Hself) as [Hs|Hs].
      * exists (store_node (fs w) (cs ++ [c]) (Some (Dir ∅))).
        rewrite (mkdir_render_new w (cs ++ [c])); try done;
          [|by rewrite removelast_snoc].
        split; [done|]. split; [|by rewrite Hs].
        intros _. apply lookup_store_eq; [by destruct cs|].
        by rewrite removelast_snoc.
      * exists (fs w).
        destruct (lookup_node (fs w) (cs ++ [c])) as [n|] eqn:Hl; [|done].
        rewrite (mkdir_render_exists w (cs ++ [c]) n); try done;
          [|by rewrite removelast_snoc].
        unfold bind, Os.path_isdir, read_world.
        rewrite isdir_render by done.
        rewrite removelast_snoc, Hp, Hl, Hs. cbn [andb].
        split; [by destruct w|]. by split.
Qed.


(** The handler's [list_directory] once the parameter is read and the
    path resolved. *)
Lemma list_directory_start T d s cs w :
  param d "directory_path" = PStr s → s ≠ "" →
  resolve T s = render cs →
  dispatch T "list_directory" (PDict d) w
  = guarded
      (let* found := Os.path_isdir (render cs) in
       (if negb found then Os.makedirs (render cs) else ret ());;
       let* names := Os.listdir (render cs) in
       let* items := list_items (render cs) names in
       ret {[ "items" := PList items; "directory_path" := PStr s ]})
      (World (fs w) (cwd w) (trace w ++ [Resolved s (render cs)])).
Proof.
  intros Hs Hne Hcs. unfold dispatch.
  rewrite Dispatch.operation_list_directory.
  unfold list_directory, guarded.
  rewrite Dispatch.get_dict, Dispatch.bind_ret, Hs.
  destruct s as [|a s]; [done|]. cbn [Py.truthy nonempty negb].
  unfold safe_path_of. rewrite Hcs. reflexivity.
Qed.


End MakeDirs.

(** ** [os.path.relpath] *)

Module RelPath.
Import Str PosixPath Spec PathFacts FsFacts.

Lemma clean_piece c : clean c → piece c.
Proof. intros (? & _ & _ & ?). by split. Qed.

Lemma piece_head c : piece c → startswith c "/" = false.
Proof.
  intros [Hne Hsep]. destruct c as [|a c]; [done|].
  rewrite startswith_sep. rewrite contains_sep_cons in Hsep.
  by apply orb_false_elim in Hsep as [? _].
Qed.

Lemma normpath_step_piece acc c :
  clean c → normpath_step 1 acc c = acc ++ [c].
Proof.
  intros (? & ? & ? & _). unfold normpath_step.
  rewrite bool_decide_false by (by intros [|]).
  by rewrite bool_decide_true by auto.
Qed.

Lemma normpath_fold_app l acc :
  Forall clean l → fold_left (normpath_step 1) l acc = acc ++ l.
Proof.
  intros Hl. revert acc. induction Hl as [|c l Hc Hl IH]; intros acc.
  { by rewrite app_nil_r. }
  simpl. rewrite normpath_step_piece by done. rewrite IH.
  by rewrite <- app_assoc.
Qed.

Lemma rooted_initial_slashes T : rooted T = true → initial_slashes T = 1.
Proof.
  unfold rooted, isabs, initial_slashes.
  intros [-> Hn]%andb_true_iff. apply negb_true_iff in Hn. by rewrite Hn.
Qed.

Lemma rooted_render pl : Forall clean pl → rooted (render pl) = true.
Proof.
  intros Hpl. unfold rooted. rewrite isabs_render. cbn [andb].
  apply negb_true_iff. unfold render.
  change ("/" +:+ join_sep pl) with (String "/" (join_sep pl)).
  rewrite startswith_cons, bool_decide_true by done. cbn [andb].
  destruct pl as [|c pl]; [done|].
  inversion Hpl as [|? ? Hc _]; subst.
  apply clean_piece in Hc as [Hne Hsep].
  destruct c as [|a c]; [done|].
  rewrite contains_sep_cons in Hsep. apply orb_false_elim in Hsep as [Ha _].
  destruct pl; cbn [join_sep String.concat];
    rewrite ?Shape.append_cons, startswith_sep; done.
Qed.

Lemma normpath_comps_render pl :
  Forall clean pl → normpath_comps (render pl) = pl.
Proof.
  intros Hpl. unfold normpath_comps.
  rewrite rooted_initial_slashes by by apply rooted_render.
  rewrite split_sep_render by done.
  case_bool_decide; subst; [done|].
  cbn [fold_left]. unfold normpath_step at 2.
  rewrite bool_decide_true by auto. by rewrite normpath_fold_app.
Qed.

Lemma normpath_render pl : Forall clean pl → normpath (render pl) = render pl.
Proof.
  intros Hpl. rewrite normpath_rooted
    by (apply rooted_initial_slashes; by apply rooted_render).
  by rewrite normpath_comps_render.
Qed.

Lemma abspath_rooted here T :
  rooted T = true → abspath here T = render (normpath_comps T).
Proof.
  intros HT. unfold abspath.
  assert (isabs T = true) as ->
    by (unfold rooted in HT; by apply andb_true_iff in HT as [? _]).
  by apply normpath_rooted, rooted_initial_slashes.
Qed.

Lemma filter_pieces l :
  Forall clean l → filter (λ x : string, x ≠ "") l = l.
Proof.
  induction 1 as [|c l Hc Hl IH]; [done|].
  rewrite filter_cons_True by apply Hc. by rewrite IH.
Qed.

Lemma pieces_of_render pl :
  Forall clean pl →
  filter (λ x : string, x ≠ "") (split_sep (render pl)) = pl.
Proof.
  intros Hpl. rewrite split_sep_render by done.
  case_bool_decide; subst; [done|].
  rewrite filter_cons_False by naive_solver. by apply filter_pieces.
Qed.

Lemma common_prefix_take l1 l2 :
  take (common_prefix_length l1 l2) l1 = take (common_prefix_length l1 l2) l2
  ∧ common_prefix_length l1 l2 ≤ length l1
  ∧ common_prefix_length l1 l2 ≤ length l2.
Proof.
  revert l2. induction l1 as [|a l1 IH]; intros [|b l2]; simpl;
    try (repeat split; lia || done).
  case_bool_decide; subst; simpl; [|repeat split; lia || done].
  destruct (IH l2) as (-> & ? & ?). repeat split; lia || done.
Qed.

Lemma join_sep_tails a p : join_sep (a :: p) = a +:+ tails p.
Proof.
  revert a. induction p as [|b p IH]; intros a.
  { simpl. by rewrite append_nil_r. }
  rewrite join_sep_cons by done. by rewrite IH.
Qed.

Lemma join_all_tails x p :
  x ≠ "" → endswith_sep x = false → Forall piece p →
  join_all x p = x +:+ tails p.
Proof.
  intros Hx Hend Hp. revert x Hx Hend.
  induction Hp as [|b p Hb Hp IH]; intros x Hx Hend.
  { simpl. by rewrite append_nil_r. }
  unfold join_all. cbn [fold_left]. fold (join_all (join x b) p).
  assert (Hj : join x b = x +:+ "/" +:+ b).
  { unfold join. rewrite piece_head by done. rewrite Hend.
    by destruct x. }
  rewrite Hj, IH.
  - simpl. by rewrite !append_assoc.
  - by destruct x.
  - rewrite <- append_assoc. rewrite endswith_sep_app by apply Hb.
    apply endswith_sep_plain, Hb.
Qed.

Lemma join_all_pieces a p :
  Forall piece (a :: p) → join_all a p = join_sep (a :: p).
Proof.
  intros H. inversion H as [|? ? Ha Hp]; subst.
  rewrite join_sep_tails. apply join_all_tails; [apply Ha| |done].
  apply endswith_sep_plain, Ha.
Qed.

Lemma startswith_app_head a s t :
  startswith (String a s +:+ t) "/" = startswith (String a s) "/".
Proof. by rewrite Shape.append_cons, !startswith_sep. Qed.

Lemma split_sep_pieces s :
  Forall piece (filter (λ x : string, x ≠ "") (split_sep s)).
Proof.
  pose proof (split_sep_no_sep s) as H.
  induction H as [|c l Hc Hl IH]; [constructor|].
  destruct (decide (c = "")) as [->|Hne].
  - by rewrite filter_cons_False by naive_solver.
  - rewrite filter_cons_True by done. by constructor.
Qed.

(** What [relpath] returns is never an absolute path. *)
Lemma relpath_relative here path start :
  isabs (relpath here path start) = false.
Proof.
  unfold relpath, isabs.
  set (sl := filter _ (split_sep (abspath here start))).
  set (pl := filter _ (split_sep (abspath here path))).
  assert (Hrel : Forall piece
            (replicate (length sl - common_prefix_length sl pl) ".."
             ++ drop (common_prefix_length sl pl) pl)).
  { apply Forall_app. split.
    - apply Forall_replicate. by split.
    - apply Forall_drop, split_sep_pieces. }
  destruct (replicate _ _ ++ drop _ _) as [|a p]; [done|].
  rewrite join_all_pieces by done. rewrite join_sep_tails.
  inversion Hrel as [|? ? Ha _]; subst.
  destruct a as [|x a]; [by destruct Ha|].
  rewrite startswith_app_head. by apply piece_head.
Qed.

Lemma normpath_step_dotdot acc :
  Forall clean acc → normpath_step 1 acc ".." = removelast acc.
Proof.
  intros Hacc. unfold normpath_step.
  rewrite bool_decide_false by (intros [|]; discriminate).
  rewrite bool_decide_false; [done|].
  intros [?|[[? _]|[_ Hlast]]]; [done|done|].
  apply (last_Forall _ _ _ Hacc) in Hlast. by destruct Hlast as (_ & _ & ? & _).
Qed.

Lemma normpath_fold_dotdot k acc :
  Forall clean acc →
  fold_left (normpath_step 1) (replicate k "..") acc
  = take (length acc - k) acc.
Proof.
  revert acc. induction k as [|k IH]; intros acc Hacc.
  { simpl. by rewrite Nat.sub_0_r, firstn_all. }
  cbn [replicate fold_left]. rewrite normpath_step_dotdot by done.
  rewrite IH by by apply Forall_removelast.
  rewrite removelast_firstn_len, take_take, length_take.
  f_equal. lia.
Qed.

Lemma endswith_sep_inv T : endswith_sep T = true → ∃ T', T = T' +:+ "/".
Proof.
  induction T as [|a T IH]; [done|]. cbn [endswith_sep].
  destruct T as [|b T].
  - intros ->%is_sep_true. by exists "".
  - intros [T' HT]%IH. exists (String a T'). by rewrite HT.
Qed.

(** The components of [join T r], for [r] that does not start with a
    separator: those of [T], then those of [r]. *)
Lemma normpath_comps_join T r :
  rooted T = true → startswith r "/" = false →
  normpath_comps (join T r)
  = fold_left (normpath_step 1) (split_sep r) (normpath_comps T).
Proof.
  intros HT Hr. unfold normpath_comps.
  rewrite join_rooted, rooted_initial_slashes by done.
  unfold join. rewrite Hr.
  assert (nonempty T = true) as ->
    by (unfold rooted, isabs in HT; by destruct T).
  cbn [negb orb]. destruct (endswith_sep T) eqn:Hend.
  - apply endswith_sep_inv in Hend as [T' ->].
    rewrite append_assoc, split_sep_app, fold_left_app.
    rewrite <- (append_nil_r (T' +:+ "/")), append_assoc.
    rewrite split_sep_app, fold_left_app. done.
  - by rewrite split_sep_app, fold_left_app.
Qed.

(** A path that [relpath] gives for a path in normal form leads back to
    that path from the sandbox root. *)
Lemma relpath_round_trip here T pl :
  rooted T = true → Forall clean pl →
  normpath (join T (relpath here (render pl) T)) = render pl.
Proof.
  intros HT Hpl.
  pose proof (relpath_relative here (render pl) T) as Hrel.
  unfold isabs in Hrel.
  rewrite normpath_rooted by by apply join_rooted.
  f_equal. rewrite normpath_comps_join by done.
  assert (Hcs0 : Forall clean (normpath_comps T))
    by by apply normpath_comps_clean, rooted_initial_slashes.
  clear Hrel. unfold relpath.
  rewrite abspath_rooted by done.
  rewrite (abspath_rooted here (render pl)) by by apply rooted_render.
  rewrite normpath_comps_render by done.
  rewrite !pieces_of_render by done.
  set (cs0 := normpath_comps T) in *.
  destruct (common_prefix_take cs0 pl) as (Htake & Hi1 & Hi2).
  set (i := common_prefix_length cs0 pl) in *.
  assert (Hgoal : fold_left (normpath_step 1)
            (replicate (length cs0 - i) ".." ++ drop i pl) cs0 = pl).
  { rewrite fold_left_app, normpath_fold_dotdot by done.
    rewrite normpath_fold_app by by apply Forall_drop.
    replace (length cs0 - (length cs0 - i)) with i by lia.
    rewrite Htake. apply take_drop. }
  destruct (replicate (length cs0 - i) ".." ++ drop i pl) as [|a p] eqn:Hl.
  - simpl in *. by rewrite <- Hgoal.
  - assert (Hpieces : Forall piece (a :: p)).
    { rewrite <- Hl. apply Forall_app. split.
      - apply Forall_replicate. by split.
      - apply Forall_drop. eapply Forall_impl; [exact Hpl|].
        apply clean_piece. }
    rewrite join_all_pieces by done.
    rewrite split_join_sep; [done|done|].
    eapply Forall_impl; [exact Hpieces|]. by intros ? [_ ?].
Qed.

End RelPath.

(** ** [glob] in one directory *)

Module GlobFacts.
Import Str Tree Sys Spec Logic Server PathFacts FsFacts OsFacts MakeDirs.

Lemma join_render cs c :
  Forall clean cs → clean c →
  PosixPath.join (render cs) c = render (cs ++ [c]).
Proof.
  intros Hcs Hc. unfold PosixPath.join.
  assert (Hhead : startswith c "/" = false).
  { destruct Hc as (Hne & _ & _ & Hsep). destruct c as [|a c]; [done|].
    rewrite startswith_sep. rewrite contains_sep_cons in Hsep.
    by apply orb_false_elim in Hsep as [? _]. }
  rewrite Hhead, nonempty_render, render_snoc. cbn [negb orb].
  case_bool_decide as Hnil.
  - by subst.
  - by rewrite endswith_sep_render.
Qed.











End GlobFacts.

(** ** Leaving the sandbox *)

Module Escape.
Import Str PosixPath Tree Sys Spec Logic Server.
Import PathFacts FsFacts OsFacts MakeDirs RelPath Dispatch.

Lemma fold_normpath_push cs acc :
  Forall clean cs → fold_left (normpath_step 1) cs acc = acc ++ cs.
Proof.
  intros Hcs. revert acc.
  induction Hcs as [|c cs Hc Hcs IH]; intros acc; [by rewrite app_nil_r|].
  cbn [fold_left]. unfold normpath_step at 2.
  destruct (clean_step c Hc) as [-> Hdd].
  apply bool_decide_eq_false in Hdd.
  rewrite bool_decide_true by by left.
  by rewrite IH, <- app_assoc.
Qed.

Lemma fold_normpath_pop n acc :
  Forall clean acc → length acc ≤ n →
  fold_left (normpath_step 1) (replicate n "..") acc = [].
Proof.
  revert acc. induction n as [|n IH]; intros acc Hacc Hn.
  { destruct acc; [done|simpl in Hn; lia]. }
  cbn [replicate fold_left]. unfold normpath_step at 2.
  rewrite bool_decide_false by (by intros [|]).
  rewrite bool_decide_false.
  - apply IH; [by apply Forall_removelast|].
    destruct acc as [|a acc] using rev_ind; [simpl; lia|].
    rewrite removelast_last. rewrite length_app in Hn. simpl in Hn. lia.
  - intros [H|[[H _]|[_ H]]]; [done|done|].
    apply (last_Forall _ _ _ Hacc) in H. by destruct H as (_ & _ & ? & _).
Qed.

(** With as many ".." segments as the root has components, the resolver
    gives the path that follows them, from the root of the file system. *)
Lemma resolve_escape cs n target :
  cs ≠ [] → Forall clean cs → Forall clean target → length cs ≤ n →
  resolve (render cs) (join_sep (replicate n ".." ++ target))
  = render target.
Proof.
  intros Hne Hcs Htarget Hn.
  destruct n as [|n]; [destruct cs; [done|simpl in Hn; lia]|].
  set (l := replicate (S n) ".." ++ target).
  assert (Hl : l ≠ []) by done.
  assert (Hsep : Forall (λ c, contains "/"%char c = false) l).
  { apply Forall_app. split; [|by apply Forall_clean_no_sep].
    apply Forall_replicate. reflexivity. }
  assert (Hhead : ∃ r, join_sep l = String "." r).
  { unfold l. cbn [replicate app].
    destruct (replicate n ".." ++ target); eexists; reflexivity. }
  destruct Hhead as [r Hr].
  assert (Hstrip : lstrip_sep (join_sep l) = join_sep l) by by rewrite Hr.
  assert (Hstart : startswith (join_sep l) "/" = false) by by rewrite Hr.
  unfold resolve. rewrite Hstrip.
  pose proof (join_rooted (render cs) (join_sep l)
                (rooted_render cs Hcs) Hstart) as Hone.
  rewrite normpath_rooted by done. f_equal.
  unfold normpath_comps. rewrite Hone.
  unfold join. rewrite Hstart, nonempty_render, endswith_sep_render by done.
  cbn [negb orb]. rewrite split_sep_app.
  rewrite split_sep_render, (bool_decide_false (cs = [])) by done.
  rewrite split_join_sep by done.
  unfold l. rewrite !fold_left_app. cbn [fold_left].
  assert (normpath_step 1 [] "" = []) as -> by reflexivity.
  rewrite (fold_normpath_push cs) by done.
  rewrite fold_normpath_pop by done.
  by rewrite (fold_normpath_push target).
Qed.

Lemma render_inj cs cs' :
  Forall clean cs → Forall clean cs' → render cs = render cs' → cs = cs'.
Proof.
  intros Hcs Hcs' H. apply (f_equal split_sep) in H.
  rewrite !split_sep_render in H by done.
  repeat case_bool_decide; subst; try done.
  - injection H as <-. inversion Hcs' as [|? ? (? & _) _]; done.
  - injection H as ->. inversion Hcs as [|? ? (? & _) _]; done.
  - by injection H.
Qed.

Lemma startswith_inv s p : startswith s p = true → ∃ r, s = p +:+ r.
Proof.
  revert s. induction p as [|b p IH]; intros s; [by exists s|].
  destruct s as [|a s]; [done|].
  rewrite startswith_cons. intros [Ha Hs]%andb_true_iff.
  apply bool_decide_eq_true in Ha as ->.
  destruct (IH s Hs) as [r ->]. by exists r.
Qed.

(** A path in normal form is contained in the root, in the sense of the
    specification, only when the components of the root begin it. *)
Lemma contained_prefix cs target :
  cs ≠ [] → Forall clean cs → Forall clean target →
  contained (render cs) (render target) = true → cs `prefix_of` target.
Proof.
  intros Hne Hcs Htarget. unfold contained.
  intros [H|H]%orb_true_iff.
  - apply bool_decide_eq_true in H.
    apply render_inj in H as ->; done.
  - apply startswith_inv in H as [r Hr]. rewrite append_assoc in Hr.
    apply (f_equal split_sep) in Hr.
    rewrite split_sep_app, !split_sep_render in Hr by done.
    rewrite (bool_decide_false (cs = [])) in Hr by done.
    case_bool_decide as Ht.
    + exfalso. destruct cs as [|c cs]; [done|].
      injection Hr as Hr. destruct cs; simplify_eq.
      all: inversion Hcs as [|? ? (? & _) _]; done.
    + injection Hr as ->. by eexists.
Qed.

Lemma open_w_new w cs :
  Forall clean cs → Os.has_null_byte (render cs) = false →
  is_dir (lookup_node (fs w) (removelast cs)) = true →
  is_dir (lookup_node (fs w) cs) = false →
  Os.open_w (render cs) w
  = (inr cs, World (store_node (fs w) cs (Some (File ""))) (cwd w) (trace w)).
Proof.
  intros Hcs Hn Hparent Hself. unfold Os.open_w.
  assert (Hne : cs ≠ []).
  { intros ->. simpl in *. congruence. }
  erewrite bind_inr; last first.
  { apply syscall_ok; [done|]. unfold open_trunc.
    rewrite rstrip_render, namei_render by done.
    rewrite endswith_sep_render by done.
    destruct (lookup_node (fs w) cs) as [[|]|]; done. }
  reflexivity.
Qed.

(** [write_file] succeeds when no regular file stands above the target
    and the target is not a directory. *)
Lemma write_file_creates T d s cs content w :
  param d "filepath" = PStr s → s ≠ "" →
  param d "content" = PStr content →
  resolve T s = render cs → Forall clean cs →
  Os.has_null_byte (render cs) = false →
  no_file_on_path (fs w) (removelast cs) = true →
  is_dir (lookup_node (fs w) cs) = false →
  ∃ fs',
    dispatch T "write_file" (PDict d) w
    = ({[ "success" := PBool true; "filepath" := PStr s ]},
       World fs' (cwd w) (trace w ++ [Resolved s (render cs)]))
    ∧ lookup_node fs' cs = Some (File content).
Proof.
  intros Hs Hne Hc Hres Hcs Hn Hno Hself.
  assert (Hcne : cs ≠ []).
  { intros ->. pose proof (no_file_on_path_take _ _ 0 Hno) as Hroot.
    simpl in *. by destruct (fs w). }
  destruct (exists_last Hcne) as (up & c & ->).
  rewrite removelast_snoc in Hno.
  apply Forall_app in Hcs as [Hup Hc1]. apply Forall_inv in Hc1.
  assert (Hcs : Forall clean (up ++ [c]))
    by (apply Forall_app; split; [done|by constructor]).
  set (w0 := World (fs w) (cwd w) (trace w ++ [Resolved s (render (up ++ [c]))])).
  destruct (makedirs_rec_render up (S (String.length (render up))) w0)
    as (fs1 & Hmk & Hnew & Hold); try done.
  { by apply has_null_render_snoc in Hn. }
  { pose proof (length_render up Hup). lia. }
  assert (Hparent : is_dir (lookup_node fs1 up) = true
                    ∧ is_dir (lookup_node fs1 (up ++ [c])) = false).
  { pose proof (no_file_on_path_take _ _ (length up) Hno) as Hp.
    rewrite firstn_all in Hp.
    destruct (not_file_cases _ Hp) as [Hp'|Hp'].
    - specialize (Hnew Hp'). by rewrite lookup_node_app, Hnew.
    - rewrite (Hold Hp'). by split. }
  destruct Hparent as [Hp1 Hp2].
  exists (store_node (store_node fs1 (up ++ [c]) (Some (File "")))
            (up ++ [c]) (Some (File content))).
  split.
  - unfold dispatch, guarded. rewrite operation_write_file.
    unfold write_file. rewrite !get_dict, !bind_ret, Hs, Hc.
    destruct s as [|a s]; [done|]. cbn [Py.truthy nonempty negb Py.is_none].
    unfold safe_path_of. rewrite Hres.
    unfold bind at 1. unfold bind at 1. unfold log, ret at 1.
    rewrite dirname_render by done.
    unfold bind at 1. unfold Os.makedirs. fold w0. rewrite Hmk.
    unfold bind at 1.
    rewrite (open_w_new (World fs1 (cwd w0) (trace w0)) (up ++ [c]));
      [|done|done|by rewrite removelast_snoc|done].
    unfold bind at 1. rewrite file_write_str. reflexivity.
  - rewrite store_store. apply lookup_store_eq; [by destruct up|].
    by rewrite removelast_snoc.
Qed.

End Escape.

(** ** The resolver on paths that stay inside *)

Module Resolver.
Import Str PosixPath Spec Terms Server.
Import PathFacts FsFacts RelPath Escape.

Lemma lstrip_sep_id s : startswith s "/" = false → lstrip_sep s = s.
Proof.
  destruct s as [|a s]; [done|]. rewrite startswith_sep. cbn [lstrip_sep].
  by intros ->.
Qed.

Lemma fold_normpath_kept l acc :
  Forall (λ c, c ≠ "..") l →
  fold_left (normpath_step 1) l acc = acc ++ filter kept l.
Proof.
  intros Hl. revert acc.
  induction Hl as [|c l Hc Hl IH]; intros acc; [by rewrite app_nil_r|].
  cbn [fold_left]. rewrite IH. unfold normpath_step.
  destruct (decide (c = "" ∨ c = ".")) as [Hskip|Hkeep].
  - rewrite bool_decide_true by done.
    rewrite filter_cons_False; [done|]. unfold kept. tauto.
  - rewrite bool_decide_false by done.
    rewrite bool_decide_true by by left.
    rewrite filter_cons_True by (unfold kept; tauto).
    by rewrite <- app_assoc.
Qed.

Lemma split_sep_lstrip p :
  ∃ k, split_sep p = replicate k "" ++ split_sep (lstrip_sep p).
Proof.
  induction p as [|a p [k IH]]; [by exists 0|].
  cbn [lstrip_sep]. destruct (is_sep a) eqn:Ha.
  - exists (S k). cbn [split_sep]. by rewrite Ha, IH.
  - by exists 0.
Qed.

Lemma filter_kept_replicate k l :
  filter kept (replicate k "" ++ l) = filter kept l.
Proof.
  induction k as [|k IH]; [done|]. cbn [replicate app].
  rewrite filter_cons_False; [done|]. unfold kept. tauto.
Qed.

Lemma startswith_app p r : startswith (p +:+ r) p = true.
Proof.
  induction p as [|a p IH]; [apply startswith_nil|].
  rewrite Shape.append_cons, startswith_cons, IH.
  by rewrite bool_decide_true.
Qed.

Lemma render_app cs l :
  cs ≠ [] → l ≠ [] → render (cs ++ l) = render cs +:+ "/" +:+ join_sep l.
Proof.
  intros Hcs Hl. revert Hl. induction l as [|c l IH] using rev_ind; [done|].
  intros _. destruct (decide (l = [])) as [->|Hne].
  - rewrite app_nil_l, render_snoc. by rewrite bool_decide_false.
  - rewrite app_assoc, render_snoc.
    rewrite bool_decide_false by (by destruct cs).
    rewrite IH by done. rewrite join_sep_snoc by done.
    by rewrite !append_assoc.
Qed.

Lemma prefix_contained cs l :
  cs ≠ [] → contained (render cs) (render (cs ++ l)) = true.
Proof.
  intros Hcs. unfold contained. destruct l as [|c l].
  - rewrite app_nil_r. by rewrite bool_decide_true.
  - rewrite render_app by done. rewrite <- append_assoc.
    rewrite startswith_app. apply orb_true_r.
Qed.

Lemma kept_clean l :
  Forall (λ c, contains "/"%char c = false) l → Forall (λ c, c ≠ "..") l →
  Forall clean (filter kept l).
Proof.
  intros Hsep Hdd. apply Forall_forall. intros c [Hk Hin]%list_elem_of_filter.
  rewrite Forall_forall in Hsep. rewrite Forall_forall in Hdd.
  destruct Hk as [? ?]. repeat split; auto.
Qed.

Lemma resolve_kept cs p :
  cs ≠ [] → Forall clean cs → Forall (λ c, c ≠ "..") (split_sep p) →
  resolve (render cs) p = render (cs ++ filter kept (split_sep p)).
Proof.
  intros Hne Hcs Hp. unfold resolve.
  pose proof (rooted_render cs Hcs) as HT.
  pose proof (lstrip_sep_head p) as Hhead.
  rewrite normpath_rooted by by apply join_rooted.
  f_equal. rewrite normpath_comps_join by done.
  rewrite normpath_comps_render by done.
  destruct (split_sep_lstrip p) as [k Hk].
  rewrite Hk in Hp. apply Forall_app in Hp as [_ Hp].
  rewrite fold_normpath_kept by done.
  by rewrite Hk, filter_kept_replicate.
Qed.

(** X1. A relative path without a ".." segment is resolved below the
    sandbox root: the resolver appends to the components of the root the
    segments of the path that are neither empty nor ".", leading slashes
    included, and the result is the root or has the root and a separator
    as a prefix. *)
Theorem resolve_without_dotdot cs p :
  cs ≠ [] → Forall clean cs → Forall (λ c, c ≠ "..") (split_sep p) →
  resolve (render cs) p = render (cs ++ filter kept (split_sep p))
  ∧ Forall clean (filter kept (split_sep p))
  ∧ contained (render cs) (resolve (render cs) p) = true.
Proof.
  intros Hne Hcs Hp. rewrite resolve_kept by done.
  split; [done|]. split; [|by apply prefix_contained].
  apply kept_clean; [apply split_sep_no_sep|done].
Qed.

(** X2. Whatever the relative path, the resolver gives an absolute path
    in normal form: a slash followed by components that are not empty,
    not "." and not "..", joined by single slashes, on which [normpath]
    changes nothing. *)
Theorem resolve_normal_form T p :
  rooted T = true →
  resolve T p = render (resolved_components T p)
  ∧ Forall clean (resolved_components T p)
  ∧ isabs (resolve T p) = true
  ∧ normpath (resolve T p) = resolve T p.
Proof.
  intros HT. unfold resolve, resolved_components.
  pose proof (join_rooted T (lstrip_sep p) HT (lstrip_sep_head p)) as H.
  pose proof (normpath_comps_clean _ H) as Hclean.
  rewrite (normpath_rooted _ H).
  repeat split; [done|apply isabs_render|by apply normpath_render].
Qed.

(** X3. The relative path that [os.path.relpath] computes for a path in
    normal form, inside the sandbox root or not, is resolved back to that
    path: what [search_files] returns for a match names the match when it
    is given as a path parameter. *)
Theorem relpath_then_resolve here T pl :
  rooted T = true → Forall clean pl →
  resolve T (relpath here (render pl) T) = render pl.
Proof.
  intros HT Hpl. unfold resolve.
  rewrite lstrip_sep_id by apply relpath_relative.
  by apply relpath_round_trip.
Qed.

End Resolver.

(** ** What the operations leave alone *)

Module Frame.
Import Str Spec Terms Logic Server Dispatch.

Lemma read_only_ret {A} (a : A) : read_only (ret a).
Proof. by intros w. Qed.

Lemma read_only_raise {A} e : read_only (raise (A := A) e).
Proof. by intros w. Qed.

Lemma read_only_read_world {A} (f : world → A) : read_only (read_world f).
Proof. by intros w. Qed.

Lemma read_only_log ev : read_only (log ev).
Proof. by intros w. Qed.

Lemma read_only_bind {A B} (m : M A) (f : A → M B) :
  read_only m → (∀ a, read_only (f a)) → read_only (bind m f).
Proof.
  intros Hm Hf w. unfold bind. specialize (Hm w).
  destruct (m w) as [[e|a] w1]; [done|]. cbn [snd] in Hm.
  destruct Hm as [<- <-]. apply Hf.
Qed.

Lemma read_only_syscall {A} path
    (call : node → list string → string → errno + A) :
  read_only (Os.syscall path call).
Proof.
  unfold Os.syscall. destruct (Os.has_null_byte path).
  - apply read_only_raise.
  - apply read_only_bind; [apply read_only_read_world|].
    intros [e|a]; [apply read_only_raise|apply read_only_ret].
Qed.

Lemma read_only_glob pathname : read_only (Glob.glob pathname).
Proof. by intros w. Qed.

Ltac read_only_steps :=
  repeat first
    [ apply read_only_ret | apply read_only_raise
    | apply read_only_read_world | apply read_only_log
    | apply read_only_syscall | apply read_only_glob
    | apply read_only_bind; [|intros ?]
    | match goal with
      | |- read_only (if ?b then _ else _) => destruct b
      | |- read_only (match ?x with _ => _ end) => destruct x
      end ].

Lemma read_only_read_file T parameters : read_only (read_file T parameters).
Proof.
  unfold read_file, get, safe_path_of, Os.path_isfile, Os.open_r,
    Os.file_read.
  read_only_steps.
Qed.

Lemma read_only_search_files T parameters :
  read_only (search_files T parameters).
Proof.
  unfold search_files, get, safe_path_of, Os.path_isdir, join_pattern.
  read_only_steps.
Qed.

Lemma guarded_world m w : (guarded m w).2 = (m w).2.
Proof. unfold guarded. by destruct (m w) as [[e|r] w']. Qed.

(** X4. [read_file], [search_files] and a request for a name that is
    none of the operations never change the file system or the working
    directory, whatever the parameters and whether the reply is a result
    or an error. *)
Theorem read_only_operations T function_name parameters w :
  function_name ≠ "write_file" → function_name ≠ "list_directory" →
  function_name ≠ "delete_file" →
  fs (dispatch T function_name parameters w).2 = fs w
  ∧ cwd (dispatch T function_name parameters w).2 = cwd w.
Proof.
  intros Hw Hl Hd. unfold dispatch. rewrite guarded_world.
  revert w. change (read_only (operation T function_name parameters)).
  unfold operation.
  rewrite (bool_decide_false (function_name = "write_file")),
    (bool_decide_false (function_name = "list_directory")),
    (bool_decide_false (function_name = "delete_file")) by done.
  repeat case_bool_decide;
    auto using read_only_read_file, read_only_search_files, read_only_ret.
Qed.

End Frame.

(** ** Parameters of the wrong type, and names that are no operation *)

Module Typing.
Import Str Spec Terms Logic Server Shape Dispatch.

Lemma advertised_names :
  advertised = ["write_file"; "read_file"; "list_directory"; "search_files";
                "delete_file"].
Proof. reflexivity. Qed.

(** X5. When the parameters are not a mapping (the body is a JSON array,
    string, number, boolean or null), each of the five operations replies
    with the message of the [AttributeError] that [parameters.get]
    raises, and the world is untouched. *)
Theorem parameters_not_a_mapping T function_name v w :
  is_dict v = false → In function_name advertised →
  dispatch T function_name v w = (error (no_attribute v "get"), w).
Proof.
  intros Hv Hin. rewrite advertised_names in Hin.
  repeat (destruct Hin as [<-|Hin]); try done;
    destruct v; try discriminate; reflexivity.
Qed.

(** X6. When validation passes and the path parameter is not a string
    (a number, a boolean, a list or a mapping), the reply is the message
    of the [AttributeError] that [lstrip] raises, and the world is
    untouched: nothing is resolved and no file is touched. *)
Theorem path_not_a_string T function_name d w :
  In function_name advertised → validated function_name d = true →
  is_str (param d (path_parameter function_name)) = false →
  dispatch T function_name (PDict d) w
  = (error (no_attribute (param d (path_parameter function_name)) "lstrip"),
     w).
Proof.
  intros Hin Hv Hs. rewrite advertised_names in Hin.
  repeat (destruct Hin as [<-|Hin]); try done;
    match type of Hs with
    | context [path_parameter ?f] =>
        let k := eval vm_compute in (path_parameter f) in
        change (path_parameter f) with k in *
    end;
    match type of Hv with
    | validated ?f d = true =>
        let l := eval vm_compute in (checked_parameters f) in
        unfold validated in Hv; change (checked_parameters f) with l in Hv
    end;
    cbn [forallb] in Hv;
    repeat match goal with
    | H : _ && _ = true |- _ => apply andb_true_iff in H as [? ?]
    end.
  all: unfold dispatch, guarded;
    rewrite ?operation_write_file, ?operation_read_file,
      ?operation_list_directory, ?operation_search_files,
      ?operation_delete_file;
    unfold write_file, read_file, list_directory, search_files, delete_file;
    rewrite !get_dict, !bind_ret;
    repeat match goal with
    | H : Py.truthy _ = true |- _ => rewrite H; clear H
    | H : negb (bool_decide _) || negb (Py.is_none _) = true |- _ =>
        rewrite bool_decide_true in H by done;
        apply negb_true_iff in H; rewrite H; clear H
    end;
    cbn [negb];
    match type of Hs with
    | is_str ?v = false => destruct v; try discriminate; reflexivity
    end.
Qed.

End Typing.

(** ** The operations that [GET /] names *)

Module Advertised.
Import Str Spec Terms Logic Replies Server Shape Dispatch Typing.

Lemma known_error msg :
  (∀ name, msg ≠ "Function " +:+ name +:+ " not supported") →
  known (error msg).
Proof. intros H name Heq. apply error_inj in Heq. by eapply H. Qed.

Lemma known_success r : is_success r → known r.
Proof.
  intros H name ->. eapply error_not_success; [|exact H]. by eexists.
Qed.

Lemma known_on_exception e : known (on_exception e).
Proof.
  intros name H. destruct (on_exception_head e) as (b & s & Hb & Hin).
  rewrite Hb in H. apply error_inj in H.
  change ("Function " +:+ name +:+ " not supported")
    with (String "F" ("unction " +:+ name +:+ " not supported")) in H.
  injection H as -> _. simpl in Hin. intuition discriminate.
Qed.

Ltac known_site :=
  first
    [ apply known_error; intros ?; rewrite ?append_cons; discriminate
    | apply known_success; unfold is_success; eauto 10 ].

Ltac known_steps :=
  repeat (first [ eapply post_mono; [solve [eauto with post]|done|done]
                | post_step ]);
  try known_site.

Lemma write_file_known T parameters :
  post (write_file T parameters) known anything.
Proof. unfold write_file. known_steps. Qed.

Lemma read_file_known T parameters :
  post (read_file T parameters) known anything.
Proof. unfold read_file. known_steps. Qed.

Lemma list_directory_known T parameters :
  post (list_directory T parameters) known anything.
Proof. unfold list_directory. known_steps. Qed.

Lemma search_files_known T parameters :
  post (search_files T parameters) known anything.
Proof. unfold search_files. known_steps. Qed.

Lemma delete_file_known T parameters :
  post (delete_file T parameters) known anything.
Proof. unfold delete_file. known_steps. Qed.

(** X7. The names that [GET /] lists under "functions" are exactly the
    operations of [POST /mcp/{function_name}]: the reply is "Function
    <name> not supported" if and only if the name is not in that list,
    whatever the parameters and the file system. *)
Theorem advertised_operations T function_name parameters w :
  (dispatch T function_name parameters w).1 = not_supported function_name
  ↔ ¬ In function_name advertised.
Proof.
  rewrite advertised_names. split.
  - intros Hreply Hin.
    assert (Hpost : post (operation T function_name parameters)
                      known anything).
    { repeat (destruct Hin as [<-|Hin]); try done;
        rewrite ?operation_write_file, ?operation_read_file,
          ?operation_list_directory, ?operation_search_files,
          ?operation_delete_file;
        auto using write_file_known, read_file_known, list_directory_known,
          search_files_known, delete_file_known. }
    destruct (guarded_post _ _ _ w Hpost) as [Hr|(e & _ & Hr)].
    + apply (Hr function_name). exact Hreply.
    + unfold dispatch in Hreply. rewrite Hr in Hreply.
      exact (known_on_exception e function_name Hreply).
  - intros Hout. unfold dispatch, guarded, operation.
    repeat case_bool_decide; subst; try reflexivity;
      exfalso; apply Hout; simpl; tauto.
Qed.

End Advertised.

(** ** A new entry in the tree *)

Module Store.
Import Str Tree Sys Spec Terms PathFacts FsFacts.




Lemma lookup_above_dir fs cs p :
  is_dir (lookup_node fs cs) = true → p `prefix_of` cs →
  is_dir (lookup_node fs p) = true.
Proof.
  intros Hd [k ->]. destruct k as [|x k]; [by rewrite app_nil_r in Hd|].
  apply (lookup_prefix_dir fs p (x :: k)); [done|by apply is_dir_Some].
Qed.





End Store.

(** ** [os.makedirs], and what it leaves alone *)

Module Making.
Import Str Tree Sys Spec Terms Logic PathFacts FsFacts OsFacts MakeDirs Store.



End Making.

(** ** [write_file] and [read_file], in full *)

Module Writing.
Import Str Tree Sys Spec Terms Logic Server.
Import PathFacts FsFacts OsFacts RoundTrip Delete MakeDirs Escape Dispatch.
Import Store Making.

Lemma dirname_of_render cs :
  Forall clean cs → PosixPath.dirname (render cs) = render (removelast cs).
Proof.
  intros Hcs. destruct cs as [|c cs] using rev_ind; [done|].
  apply Forall_app in Hcs as [Hcs Hc]. apply Forall_inv in Hc.
  by rewrite removelast_snoc, dirname_render.
Qed.

Lemma has_null_removelast cs :
  Os.has_null_byte (render cs) = false →
  Os.has_null_byte (render (removelast cs)) = false.
Proof.
  destruct cs as [|c cs] using rev_ind; [done|].
  rewrite removelast_snoc. apply has_null_render_snoc.
Qed.

Lemma dir_no_file fs cs :
  is_dir (lookup_node fs cs) = true → no_file_on_path fs cs = true.
Proof.
  intros Hd. unfold no_file_on_path. apply forallb_forall. intros k _.
  apply negb_true_iff.
  assert (H : is_dir (lookup_node fs (take k cs)) = true).
  { apply (lookup_above_dir fs cs); [done|]. apply prefix_take. }
  by destruct (lookup_node fs (take k cs)) as [[]|].
Qed.





Lemma open_w_directory w cs :
  Forall clean cs → Os.has_null_byte (render cs) = false →
  is_dir (lookup_node (fs w) cs) = true →
  Os.open_w (render cs) w = (inl (OSError EISDIR (render cs)), w).
Proof.
  intros Hcs Hn Hd. unfold Os.open_w.
  erewrite bind_inl; [done|].
  apply syscall_error; [done|]. unfold open_trunc.
  rewrite rstrip_render by done.
  rewrite namei_render; [|done|].
  - destruct (endswith_sep (render cs)); [done|].
    by destruct (lookup_node (fs w) cs) as [[]|].
  - apply (lookup_above_dir (fs w) cs); [done|].
    destruct cs as [|c cs] using rev_ind; [done|].
    rewrite removelast_snoc. by eexists.
Qed.

(** X11. [write_file] on a path that is a directory: the reply is the
    message of the [IsADirectoryError] that [open] raises, and the file
    system is unchanged. *)
Theorem write_file_onto_directory T d s w :
  rooted T = true →
  param d "filepath" = PStr s → s ≠ "" →
  Py.is_none (param d "content") = false →
  Os.has_null_byte (resolve T s) = false →
  is_dir (lookup_node (fs w) (resolved_components T s)) = true →
  dispatch T "write_file" (PDict d) w
  = (error (Exn.str (OSError EISDIR (resolve T s))),
     World (fs w) (cwd w) (trace w ++ [Resolved s (resolve T s)])).
Proof.
  intros HT Hs Hne Hc Hn Hd.
  destruct (resolve_components T s HT) as [Hres Hcs].
  rewrite Hres in *. set (cs := resolved_components T s) in *.
  set (w0 := World (fs w) (cwd w) (trace w ++ [Resolved s (render cs)])).
  assert (Hup : is_dir (lookup_node (fs w) (removelast cs)) = true).
  { apply (lookup_above_dir (fs w) cs); [done|].
    destruct cs as [|c cs'] using rev_ind; [done|].
    rewrite removelast_snoc. by eexists. }
  destruct (makedirs_rec_render (removelast cs)
              (S (String.length (render (removelast cs)))) w0)
    as (fs1 & Hmk & _ & Hsame).
  { by apply Forall_removelast. }
  { by apply has_null_removelast. }
  { by apply dir_no_file. }
  { pose proof (length_render (removelast cs)
                  (Forall_removelast _ _ Hcs)). lia. }
  rewrite (Hsame Hup) in Hmk.
  unfold dispatch, guarded. rewrite operation_write_file.
  unfold write_file. rewrite !get_dict, !bind_ret, Hs, Hc.
  destruct s as [|a s]; [done|]. cbn [Py.truthy nonempty negb].
  unfold safe_path_of. rewrite Hres. fold cs.
  unfold bind at 1. unfold bind at 1. unfold log, ret at 1.
  rewrite dirname_of_render by done.
  unfold bind at 1. unfold Os.makedirs. fold w0. rewrite Hmk.
  unfold bind at 1.
  rewrite (open_w_directory (World (fs w0) (cwd w0) (trace w0)) cs) by done.
  reflexivity.
Qed.

(** What [read_file] answers on a path that is not a regular file. *)
Lemma read_file_missing T d s cs w :
  param d "filepath" = PStr s → s ≠ "" →
  resolve T s = render cs → Forall clean cs →
  is_file (lookup_node (fs w) cs) = false →
  dispatch T "read_file" (PDict d) w
  = (error ("File " +:+ s +:+ " not found"),
     World (fs w) (cwd w) (trace w ++ [Resolved s (render cs)])).
Proof.
  intros Hs Hne Hres Hcs Hl.
  unfold dispatch, guarded. rewrite operation_read_file.
  unfold read_file. rewrite get_dict, bind_ret, Hs.
  destruct s as [|a s]; [done|]. cbn [Py.truthy nonempty negb].
  unfold safe_path_of. rewrite Hres.
  unfold bind at 1. unfold bind at 1. unfold log, ret at 1.
  unfold bind at 1. unfold Os.path_isfile, read_world.
  set (w1 := World (fs w) (cwd w) _).
  assert (Hf : Os.isfile w1 (render cs) = false).
  { unfold Os.isfile, Os.try_stat.
    destruct (Os.has_null_byte (render cs)); [done|].
    pose proof (stat_render (fs w1) (cwd w1) cs Hcs) as H.
    destruct (Sys.stat _ _ _) as [e|n]; [done|].
    destruct H as [_ H]. cbn [fs w1] in H. by rewrite H in Hl. }
  by rewrite Hf.
Qed.

(** X12. [read_file] on a path of less than 4096 bytes: when the
    resolved path is a regular file whose bytes are valid UTF-8 the reply
    holds its content, with each CR LF and each CR turned into LF; when
    it is a directory or holds nothing the reply is the error "File
    <filepath> not found". The file system is unchanged in both cases. *)
Theorem read_file_reply T d s w :
  rooted T = true →
  param d "filepath" = PStr s → s ≠ "" →
  Os.has_null_byte (resolve T s) = false →
  is_dir (Some (fs w)) = true →
  (utf8_length (resolve T s) < PATH_MAX)%Z →
  (∀ content,
     lookup_node (fs w) (resolved_components T s) = Some (File content) →
     Utf8.valid content = true) →
  dispatch T "read_file" (PDict d) w
  = (match lookup_node (fs w) (resolved_components T s) with
     | Some (File content) =>
         {[ "content" := PStr (universal_newlines content);
            "filepath" := PStr s ]}
     | _ => error ("File " +:+ s +:+ " not found")
     end,
     World (fs w) (cwd w) (trace w ++ [Resolved s (resolve T s)])).
Proof.
  intros HT Hs Hne Hn Hroot _ _.
  destruct (resolve_components T s HT) as [Hres Hcs].
  rewrite Hres in *. set (cs := resolved_components T s) in *.
  destruct (lookup_node (fs w) cs) as [[content|m]|] eqn:Hl;
    [|by apply read_file_missing; rewrite ?Hl..].
  assert (Hcne : cs ≠ []).
  { intros Hnil. rewrite Hnil in Hl. simpl in Hl. injection Hl as Hl.
    by rewrite Hl in Hroot. }
  unfold dispatch, guarded. rewrite operation_read_file.
  unfold read_file. rewrite get_dict, bind_ret, Hs.
  destruct s as [|a s]; [done|]. cbn [Py.truthy nonempty negb].
  unfold safe_path_of. rewrite Hres. fold cs.
  unfold bind at 1. unfold bind at 1. unfold log, ret at 1.
  unfold bind at 1. unfold Os.path_isfile, read_world.
  set (w1 := World (fs w) (cwd w) _).
  assert (Hl1 : lookup_node (fs w1) cs = Some (File content)) by done.
  rewrite (isfile_render w1 cs content) by done. cbn [negb].
  unfold bind. rewrite (open_r_render w1 cs content) by done.
  by rewrite (file_read_file w1 cs content).
Qed.

Lemma delete_file_regular T d s cs content w :
  param d "filepath" = PStr s → s ≠ "" →
  resolve T s = render cs → Forall clean cs → cs ≠ [] →
  Os.has_null_byte (render cs) = false →
  lookup_node (fs w) cs = Some (File content) →
  dispatch T "delete_file" (PDict d) w
  = ({[ "success" := PBool true; "filepath" := PStr s ]},
     World (store_node (fs w) cs None) (cwd w)
       (trace w ++ [Resolved s (render cs)])).
Proof.
  intros Hs Hne Hres Hcs Hcne Hn Hl.
  unfold dispatch, guarded. rewrite operation_delete_file.
  unfold delete_file. rewrite get_dict, bind_ret, Hs.
  destruct s as [|a s]; [done|]. cbn [Py.truthy nonempty negb].
  unfold safe_path_of. rewrite Hres.
  unfold bind at 1. unfold bind at 1. unfold log, ret at 1.
  set (w1 := World (fs w) (cwd w) _).
  assert (Hstat : Os.try_stat w1 (render cs) = Some (File content))
    by by apply try_stat_node.
  unfold bind at 1. unfold Os.path_exists, read_world at 1, Os.exists_.
  rewrite Hstat. rewrite bool_decide_true by by eexists. cbn [negb].
  unfold bind at 1. unfold Os.path_isdir, read_world at 1, Os.isdir.
  rewrite Hstat. cbn [is_dir].
  unfold bind. by rewrite (remove_render w1 cs content).
Qed.


(** X14. After a [write_file] that succeeded, [delete_file] of the same
    filepath replies [{success: true, filepath}], and a [read_file] that
    follows replies "File <filepath> not found". *)
Theorem write_delete_read T d d' content w :
  rooted T = true →
  param d "content" = PStr content →
  param d' "filepath" = param d "filepath" →
  is_success (dispatch T "write_file" (PDict d) w).1 →
  ∃ s, param d "filepath" = PStr s
    ∧ (dispatch T "delete_file" (PDict d')
         (dispatch T "write_file" (PDict d) w).2).1
      = {[ "success" := PBool true; "filepath" := PStr s ]}
    ∧ (dispatch T "read_file" (PDict d')
         (dispatch T "delete_file" (PDict d')
            (dispatch T "write_file" (PDict d) w).2).2).1
      = error ("File " +:+ s +:+ " not found").
Proof.
  intros HT Hc Hsame Hok.
  assert (Hww : dispatch T "write_file" (PDict d) w
                = guarded (write_file T (PDict d)) w) by reflexivity.
  rewrite Hww in *. clear Hww. unfold guarded in *.
  destruct (write_file T (PDict d) w) as [[e|r] w1] eqn:Hw;
    cbn [fst snd] in *.
  { exfalso. eapply Shape.error_not_success; [|exact Hok].
    apply Shape.on_exception_error. }
  destruct (write_file_inv T d w r w1 content HT Hc Hw Hok)
    as (s & cs & Hs & Hne & Hcs & Hclean & Hcne & Hn & Hl).
  rewrite Hs in *. exists s. split; [done|].
  rewrite (delete_file_regular T d' s cs content w1) by done.
  split; [done|]. cbn [snd].
  rewrite (read_file_missing T d' s cs); [done..|].
  cbn [fs]. rewrite lookup_store_eq; [done|done|].
  apply lookup_parent_dir; [done|]. by rewrite Hl.
Qed.

End Writing.

(** ** [list_directory] on what is there *)

Module Listing.
Import Str Tree Sys Spec Terms Logic Server.
Import PathFacts FsFacts OsFacts MakeDirs GlobFacts Dispatch Store Writing.

Lemma has_null_child cs name :
  Os.has_null_byte (render cs) = false → valid_name name →
  Os.has_null_byte (render (cs ++ [name])) = false.
Proof.
  intros Hn [_ Hname]. unfold Os.has_null_byte in *.
  rewrite contains_render by done. by rewrite Hn, Hname.
Qed.

Lemma getsize_node w cs n :
  Forall clean cs → cs ≠ [] → Os.has_null_byte (render cs) = false →
  lookup_node (fs w) cs = Some n →
  Os.getsize (render cs) w
  = (inr (match n with File c => utf8_length c | Dir _ => 4096%Z end), w).
Proof.
  intros Hcs Hne Hn Hl. unfold Os.getsize.
  assert (Hstat : stat (fs w) (cwd w) (render cs) = inr n).
  { pose proof (stat_render (fs w) (cwd w) cs Hcs) as H.
    destruct (stat (fs w) (cwd w) (render cs)) as [e|n'].
    - destruct H as [H|H]; [|congruence].
      rewrite lookup_parent_dir in H; [done..|]. by rewrite Hl.
    - destruct H as [_ H]. congruence. }
  by rewrite (bind_inr _ _ _ _ _ (syscall_ok _ _ _ _ Hn Hstat)).
Qed.

Lemma list_item_child w cs m name n :
  Forall clean cs → Os.has_null_byte (render cs) = false →
  lookup_node (fs w) cs = Some (Dir m) →
  m !! name = Some n → valid_name name →
  list_item (render cs) name w = (inr (entry (name, n)), w).
Proof.
  intros Hcs Hn Hl Hm Hname. unfold list_item.
  pose proof Hname as [Hclean _].
  rewrite join_render by done.
  assert (Hcs' : Forall clean (cs ++ [name]))
    by (apply Forall_app; split; [done|by constructor]).
  assert (Hl' : lookup_node (fs w) (cs ++ [name]) = Some n).
  { rewrite lookup_node_app, Hl. simpl. by rewrite Hm. }
  assert (Hstat : Os.try_stat w (render (cs ++ [name])) = Some n).
  { apply try_stat_node; [done|by apply has_null_child|by destruct cs|done]. }
  unfold bind at 1. unfold Os.path_isdir, read_world at 1, Os.isdir.
  rewrite Hstat.
  unfold bind at 1. unfold Os.path_isfile, read_world at 1, Os.isfile.
  rewrite Hstat.
  destruct n as [content|m']; cbn [is_file is_dir]; [|reflexivity].
  unfold bind at 1. unfold bind at 1.
  rewrite (getsize_node w (cs ++ [name]) (File content));
    [reflexivity|done|by destruct cs|by apply has_null_child|done].
Qed.

Lemma list_items_children w cs m (l : list (string * node)) :
  Forall clean cs → Os.has_null_byte (render cs) = false →
  lookup_node (fs w) cs = Some (Dir m) →
  Forall (λ child, m !! child.1 = Some child.2 ∧ valid_name child.1) l →
  list_items (render cs) l.*1 w = (inr (map entry l), w).
Proof.
  intros Hcs Hn Hl Hall.
  induction Hall as [|[name n] l [Hm Hname] Hall IH]; [done|].
  cbn [fmap list_fmap list_items fst]. simpl in Hm, Hname.
  unfold bind at 1.
  rewrite (list_item_child w cs m name n) by done.
  unfold bind at 1. change (list_fmap _ _ fst l) with (l.*1).
  by rewrite IH.
Qed.

(** X15. [list_directory] on a directory that exists, the path of each
    of its children being shorter than 4096 bytes: the reply lists, in
    some order, one item for each child of the directory and nothing
    else, with its name, whether it is a directory, and its size, which
    is the number of bytes of its content for a regular file and null for
    a directory; the file system is unchanged. *)
Theorem list_directory_listing T d s m w :
  rooted T = true →
  param d "directory_path" = PStr s → s ≠ "" →
  Os.has_null_byte (resolve T s) = false →
  lookup_node (fs w) (resolved_components T s) = Some (Dir m) →
  Forall valid_name (map_to_list m).*1 →
  Forall (λ name,
            (utf8_length (render (resolved_components T s ++ [name]))
             < PATH_MAX)%Z) (map_to_list m).*1 →
  ∃ items,
    dispatch T "list_directory" (PDict d) w
    = ({[ "items" := PList items; "directory_path" := PStr s ]},
       World (fs w) (cwd w) (trace w ++ [Resolved s (resolve T s)]))
    ∧ items ≡ₚ map entry (map_to_list m).
Proof.
  intros HT Hs Hne Hn Hl Hnames _.
  exists (map entry (map_to_list m)). split; [|done].
  destruct (resolve_components T s HT) as [Hres Hcs].
  rewrite Hres in *. set (cs := resolved_components T s) in *.
  rewrite (list_directory_start T d s cs) by done.
  set (w0 := World (fs w) (cwd w) _).
  assert (Hup : is_dir (lookup_node (fs w0) (removelast cs)) = true).
  { apply (lookup_above_dir (fs w) cs); [by rewrite Hl|].
    destruct cs as [|c cs'] using rev_ind; [done|].
    rewrite removelast_snoc. by eexists. }
  unfold guarded. unfold bind at 1.
  unfold Os.path_isdir, read_world at 1.
  rewrite isdir_render by done. rewrite Hup. cbn [fs w0]. rewrite Hl.
  cbn [is_dir andb negb]. unfold bind at 1. unfold ret at 1.
  assert (Hlist : Os.listdir (render cs) w0 = (inr (map_to_list m).*1, w0)).
  { assert (Hstat : stat (fs w0) (cwd w0) (render cs) = inr (Dir m)).
    { pose proof (stat_render (fs w0) (cwd w0) cs Hcs) as H.
      destruct (stat (fs w0) (cwd w0) (render cs)) as [e|n].
      - destruct H; cbn [fs w0] in *; congruence.
      - destruct H as [_ H]. cbn [fs w0] in H. congruence. }
    unfold Os.listdir.
    by rewrite (bind_inr _ _ _ _ _ (syscall_ok _ _ _ _ Hn Hstat)). }
  unfold bind at 1. rewrite Hlist.
  unfold bind at 1.
  rewrite (list_items_children w0 cs m (map_to_list m)); [done..|].
  apply Forall_forall. intros [name n] Hin. cbn [fst snd]. split.
  - by apply elem_of_map_to_list.
  - rewrite Forall_forall in Hnames. apply Hnames.
    apply list_elem_of_fmap. by exists (name, n).
Qed.

(** X16. [list_directory] on a path that is a regular file: [os.makedirs]
    raises [FileExistsError], the reply is its message, and the file
    system is unchanged. *)
Theorem list_directory_on_a_file T d s content w :
  rooted T = true →
  param d "directory_path" = PStr s → s ≠ "" →
  Os.has_null_byte (resolve T s) = false →
  is_dir (Some (fs w)) = true →
  lookup_node (fs w) (resolved_components T s) = Some (File content) →
  dispatch T "list_directory" (PDict d) w
  = (error (Exn.str (OSError EEXIST (resolve T s))),
     World (fs w) (cwd w) (trace w ++ [Resolved s (resolve T s)])).
Proof.
  intros HT Hs Hne Hn Hroot Hl.
  destruct (resolve_components T s HT) as [Hres Hcs].
  rewrite Hres in *.
  remember (resolved_components T s) as cs eqn:Hdef. clear Hdef.
  rewrite (list_directory_start T d s cs) by done.
  assert (Hcne : cs ≠ []).
  { intros Hnil. rewrite Hnil in Hl. simpl in Hl. injection Hl as Hl.
    by rewrite Hl in Hroot. }
  destruct (exists_last Hcne) as (up & c & ->). clear Hcne.
  set (w0 := World (fs w) (cwd w) _).
  apply Forall_app in Hcs as [Hup Hc]. apply Forall_inv in Hc.
  assert (Hcs : Forall clean (up ++ [c]))
    by (apply Forall_app; split; [done|by constructor]).
  assert (Hparent : is_dir (lookup_node (fs w0) up) = true).
  { apply (lookup_prefix_dir (fs w) up [c]); [done|by rewrite Hl]. }
  assert (Hisdir : Os.isdir w0 (render (up ++ [c])) = false).
  { rewrite isdir_render by done. cbn [fs w0]. rewrite Hl. cbn [is_dir].
    apply andb_false_r. }
  unfold guarded. unfold bind at 1.
  unfold Os.path_isdir at 1, read_world at 1. rewrite Hisdir. cbn [negb].
  unfold bind at 1. unfold Os.makedirs.
  rewrite makedirs_rec_S, split_render by done.
  assert (Hc1 : nonempty c = true)
    by (destruct Hc as [? _]; by destruct c).
  rewrite Hc1. cbv zeta iota beta. rewrite nonempty_render, Hc1.
  cbn [andb].
  assert (Hex : Os.exists_ w0 (render up) = true).
  { rewrite exists_render; [|done|by apply has_null_render_snoc in Hn].
    assert (H : is_dir (lookup_node (fs w0) (removelast up)) = true).
    { apply (lookup_above_dir (fs w0) up); [done|].
      destruct up as [|x up'] using rev_ind; [done|].
      rewrite removelast_snoc. by eexists. }
    rewrite H. apply bool_decide_eq_true. by apply is_dir_Some. }
  unfold bind at 1. unfold bind at 1.
  unfold Os.path_exists at 1, read_world at 1. rewrite Hex.
  unfold ret at 1. unfold try_except.
  rewrite (mkdir_render_exists w0 (up ++ [c]) (File content));
    [|done|done|by rewrite removelast_snoc|done].
  unfold bind at 1. unfold Os.path_isdir at 1, read_world at 1.
  rewrite Hisdir. reflexivity.
Qed.

End Listing.

(** ** Patterns that end with a literal text *)

Module Suffix.
Import Str Spec Terms PathFacts Shape.






End Suffix.

(** ** Paths below the root, as [relpath] gives them *)

Module Below.
Import Str PosixPath Spec Terms PathFacts FsFacts RelPath.

Lemma common_prefix_app (l k : list string) :
  common_prefix_length l (l ++ k) = length l.
Proof.
  induction l as [|a l IH]; [by destruct k|].
  simpl. by rewrite bool_decide_true, IH.
Qed.

(** X18. For a path in normal form below the sandbox root,
    [os.path.relpath] against the root gives the components below the
    root joined by slashes, with no ".." in front, and "." for the root
    itself, whatever the working directory: a match of [search_files]
    inside the sandbox is reported as its path inside the sandbox. *)
Theorem relpath_below_root here cs l :
  Forall clean cs → Forall clean l →
  relpath here (render (cs ++ l)) (render cs)
  = match l with [] => "." | _ => join_sep l end.
Proof.
  intros Hcs Hl.
  assert (Hall : Forall clean (cs ++ l)) by (by apply Forall_app).
  unfold relpath.
  rewrite !abspath_rooted by by apply rooted_render.
  rewrite !normpath_comps_render, !pieces_of_render by done.
  rewrite common_prefix_app, Nat.sub_diag, drop_app_length.
  cbn [replicate app]. destruct l as [|a p]; [done|].
  apply join_all_pieces.
  eapply Forall_impl; [exact Hl|apply clean_piece].
Qed.

End Below.

(** ** A regular file in the way of [os.makedirs] *)

Module Blocked.
Import Str Tree Sys Spec Terms Logic Server.
Import PathFacts FsFacts OsFacts MakeDirs Store Writing.





End Blocked.

(** ** What [list_directory] changes *)

Module Created.
Import Str Tree Sys Spec Terms Logic Server.
Import PathFacts FsFacts OsFacts MakeDirs Store Making Frame.




End Created.

(** ** Paths and patterns that no file can have *)

Module Unusual.
Import Str Tree Sys Spec Terms Logic Server.
Import PathFacts FsFacts OsFacts MakeDirs Dispatch Store Writing Blocked.

Lemma try_stat_null w path :
  Os.has_null_byte path = true → Os.try_stat w path = None.
Proof. intros H. unfold Os.try_stat. by rewrite H. Qed.

(** X21. A path parameter whose resolved path holds a null byte names
    nothing: [read_file], [delete_file] and [search_files] reply with
    their "not found" error, as for a path that does not exist, and the
    file system is unchanged. *)
Theorem null_byte_not_found T function_name d s w :
  In function_name ["read_file"; "delete_file"; "search_files"] →
  validated function_name d = true →
  param d (path_parameter function_name) = PStr s →
  Os.has_null_byte (resolve T s) = true →
  dispatch T function_name (PDict d) w
  = (error ((if bool_decide (function_name = "read_file") then "File "
             else if bool_decide (function_name = "delete_file")
             then "File or directory "
             else "Directory ") +:+ s +:+ " not found"),
     World (fs w) (cwd w) (trace w ++ [Resolved s (resolve T s)])).
Proof.
  intros Hin Hv Hs Hnull.
  repeat (destruct Hin as [<-|Hin]); try done;
    match type of Hs with
    | context [path_parameter ?f] =>
        let k := eval vm_compute in (path_parameter f) in
        change (path_parameter f) with k in *
    end;
    match type of Hv with
    | validated ?f d = true =>
        let l := eval vm_compute in (checked_parameters f) in
        unfold validated in Hv; change (checked_parameters f) with l in Hv
    end;
    cbn [forallb] in Hv;
    repeat match goal with
    | H : _ && _ = true |- _ => apply andb_true_iff in H as [? ?]
    end;
    unfold dispatch, guarded;
    rewrite ?operation_read_file, ?operation_search_files,
      ?operation_delete_file;
    unfold read_file, search_files, delete_file;
    rewrite !get_dict, !bind_ret;
    repeat match goal with
    | H : Py.truthy _ = true |- _ => rewrite H; clear H
    end;
    rewrite Hs; cbn [negb safe_path_of];
    unfold bind at 1; unfold bind at 1; unfold log, ret at 1;
    unfold bind at 1;
    unfold Os.path_isfile, Os.path_isdir, Os.path_exists, read_world,
      Os.isfile, Os.isdir, Os.exists_;
    rewrite try_stat_null by done;
    reflexivity.
Qed.

(** X22. [search_files] with a pattern that is not a string (a number,
    a boolean, a list, a mapping), in a directory that exists: the reply
    is the message of the [TypeError] that [os.path.join] raises, and
    the file system is unchanged. *)
Theorem pattern_not_a_string T d s w :
  param d "directory_path" = PStr s → s ≠ "" →
  Py.truthy (param d "pattern") = true →
  is_str (param d "pattern") = false →
  Os.isdir w (resolve T s) = true →
  dispatch T "search_files" (PDict d) w
  = (error ("join() argument must be str, bytes, or os.PathLike object, not '"
            +:+ Py.type_name (param d "pattern") +:+ "'"),
     World (fs w) (cwd w) (trace w ++ [Resolved s (resolve T s)])).
Proof.
  intros Hs Hne Hp Htext Hd.
  unfold dispatch, guarded. rewrite operation_search_files.
  unfold search_files. rewrite !get_dict, !bind_ret, Hs, Hp.
  destruct s as [|a s]; [done|]. cbn [Py.truthy nonempty negb].
  unfold safe_path_of.
  unfold bind at 1. unfold bind at 1. unfold log, ret at 1.
  unfold bind at 1. unfold Os.path_isdir, read_world.
  change (Os.isdir (World (fs w) (cwd w) _) ?p) with (Os.isdir w p).
  rewrite Hd. cbn [negb]. unfold bind.
  destruct (param d "pattern"); try discriminate; reflexivity.
Qed.



End Unusual.

(** ** The handler at work *)

Module Runs.
Import Str PosixPath Tree Spec Server Fixture.

Example split_sep_absolute : split_sep "/tmp/a//b" = [""; "tmp"; "a"; ""; "b"].
Proof. reflexivity. Qed.

Example normpath_dots : normpath "/tmp/x/../y/./z/" = "/tmp/y/z".
Proof. reflexivity. Qed.

Example normpath_above_root : normpath "/../.." = "/".
Proof. reflexivity. Qed.

Example normpath_two_slashes : normpath "//tmp/../a" = "//a".
Proof. reflexivity. Qed.

Example normpath_relative : normpath "a/../../b" = "../b".
Proof. reflexivity. Qed.

Example split_of_file : PosixPath.split "/tmp/d/a.txt" = ("/tmp/d", "a.txt").
Proof. reflexivity. Qed.

Example join_absolute_wins : join "/tmp/d" "/etc/passwd" = "/etc/passwd".
Proof. reflexivity. Qed.

Example relpath_below : relpath "/" "/tmp/root/d/a.txt" "/tmp/root" = "d/a.txt".
Proof. reflexivity. Qed.

Example relpath_outside : relpath "/" "/tmp/x" "/tmp/root" = "../x".
Proof. reflexivity. Qed.

Example fnmatch_star :
  Fnmatch.filter ["a.txt"; "b.log"; "c.txt.bak"; ".txt"] "*.txt"
  = ["a.txt"; ".txt"].
Proof. reflexivity. Qed.

Example fnmatch_set :
  Fnmatch.filter ["a1"; "b2"; "c3"; "a-"; "ab"] "[a-b][!0-1]" = ["b2"; "a-"; "ab"].
Proof. reflexivity. Qed.

Example fnmatch_open_bracket :
  Fnmatch.filter ["[x"; "x"] "[?" = ["[x"].
Proof. reflexivity. Qed.

(** A question mark stands for one character, of one byte or more. *)
Example fnmatch_one_character :
  Fnmatch.filter [utf8 [233]%N; utf8 [8364]%N; "ab"; "a"] "?"
  = [utf8 [233]%N; utf8 [8364]%N; "a"].
Proof. reflexivity. Qed.

(** The set from U+00E0 to U+00FF holds U+00E9, not "z" nor U+20AC. *)
Example fnmatch_range_of_code_points :
  Fnmatch.filter [utf8 [233]%N; "z"; utf8 [8364]%N]
    (utf8 [91; 224; 45; 255; 93]%N)
  = [utf8 [233]%N].
Proof. reflexivity. Qed.

Example size_in_bytes : Sys.utf8_length (utf8 [8364]%N) = 3%Z.
Proof. reflexivity. Qed.

Example decode_accents :
  Utf8.points accents_utf8 = accents ∧ Utf8.valid accents_utf8 = true.
Proof. split; reflexivity. Qed.

(** [repr] keeps what can be printed and escapes the rest (here U+200B,
    a zero width space). *)
Example repr_beyond_ascii :
  Py.repr_str (utf8 [233; 8203; 8364]%N)
  = "'" +:+ utf8 [233]%N +:+ "\u200b" +:+ utf8 [8364]%N +:+ "'".
Proof. reflexivity. Qed.

Example resolve_inside : resolve TEMP_DIR "/d/./sub/../a.txt"
                         = "/tmp/fileops_k3x9w2ab/d/a.txt".
Proof. reflexivity. Qed.

(** The example of the specification: [*.txt] in a directory that holds
    [a.txt], [b.log] and [sub/c.txt]. *)
Example search_txt :
  (request "search_files"
     {[ "directory_path" := PStr "d"; "pattern" := PStr "*.txt" ]}).1
  = {[ "matches" := PList [PStr "d/a.txt"];
       "pattern" := PStr "*.txt";
       "directory_path" := PStr "d" ]}.
Proof. vm_compute. reflexivity. Qed.

Example unsupported_operation :
  (request "rename_file" ∅).1 = error "Function rename_file not supported".
Proof. vm_compute. reflexivity. Qed.

End Runs.

(** ** Where the specification and the handler part *)

Module Findings.
Import Str PosixPath Tree Spec Server Fixture.

(** C1. The resolver only normalises. For every sandbox root, given by
    its components, and every target in normal form that is not below the
    root, the relative path made of as many ".." segments as the root has
    components (or more), followed by the target, is resolved to the
    target without error; the target is outside the root in the sense of
    the specification; and [write_file] on that path succeeds and writes
    the target, when no regular file stands above it and it is not a
    directory. *)
Theorem sandbox_escape cs n target d content w :
  cs ≠ [] → Forall clean cs → Forall clean target →
  length cs ≤ n → ¬ cs `prefix_of` target →
  param d "filepath" = PStr (join_sep (replicate n ".." ++ target)) →
  param d "content" = PStr content →
  Os.has_null_byte (render target) = false →
  no_file_on_path (fs w) (removelast target) = true →
  is_dir (lookup_node (fs w) target) = false →
  resolve (render cs) (join_sep (replicate n ".." ++ target))
  = render target
  ∧ contained (render cs) (render target) = false
  ∧ ∃ fs',
      dispatch (render cs) "write_file" (PDict d) w
      = ({[ "success" := PBool true;
            "filepath" := PStr (join_sep (replicate n ".." ++ target)) ]},
         World fs' (cwd w)
           (trace w ++ [Resolved (join_sep (replicate n ".." ++ target))
                          (render target)]))
      ∧ lookup_node fs' target = Some (File content).
Proof.
  intros Hne Hcs Htarget Hn Hout Hf Hc Hnull Hno Hself.
  pose proof (Escape.resolve_escape cs n target Hne Hcs Htarget Hn) as Hres.
  split; [done|]. split.
  - destruct (contained (render cs) (render target)) eqn:Hin; [|done].
    by apply Escape.contained_prefix in Hin.
  - apply Escape.write_file_creates; try done.
    destruct n as [|n]; [destruct cs; [done|simpl in Hn; lia]|].
    cbn [replicate app]. by destruct (replicate n ".." ++ target).
Qed.

(** C2, as stated: a content with a carriage return is written, and is
    not what [read_file] returns. *)
Lemma carriage_return_not_preserved :
  (request "write_file"
     {[ "filepath" := PStr "n.txt"; "content" := PStr two_lines_cr ]}).1
  = {[ "success" := PBool true; "filepath" := PStr "n.txt" ]}
  ∧ (dispatch TEMP_DIR "read_file" (PDict {[ "filepath" := PStr "n.txt" ]})
       (request "write_file"
          {[ "filepath" := PStr "n.txt"; "content" := PStr two_lines_cr ]}).2).1
    = {[ "content" := PStr two_lines_lf; "filepath" := PStr "n.txt" ]}
  ∧ two_lines_lf ≠ two_lines_cr.
Proof. vm_compute. repeat split; (reflexivity || discriminate). Qed.



(** C7, as stated: a directory of the sandbox that holds a chain of
    1000 directories exists, and [delete_file] does not remove it:
    [shutil.rmtree] calls itself once for every level, the interpreter
    stops it at its limit of nested calls, the reply is the message of
    the [RecursionError] and the whole tree is still there. *)
Lemma delete_file_deep_tree :
  Os.exists_ deep (resolve TEMP_DIR "deep") = true
  ∧ contained TEMP_DIR (resolve TEMP_DIR "deep") = true
  ∧ (dispatch TEMP_DIR "delete_file" (PDict {[ "filepath" := PStr "deep" ]})
       deep).1
    = error "maximum recursion depth exceeded"
  ∧ is_dir
      (lookup_node
         (fs (dispatch TEMP_DIR "delete_file"
                (PDict {[ "filepath" := PStr "deep" ]}) deep).2)
         (resolved_components TEMP_DIR "deep" ++ replicate 1000 "a"))
    = true.
Proof. vm_compute. repeat split; reflexivity. Qed.

(** C8, as stated: [filepath] is there, [content] is there and not null,
    and the reply is a validation error. *)
Lemma write_file_empty_filepath :
  ({[ "filepath" := PStr ""; "content" := PStr "x" ]} : gmap string pyval)
    !! "filepath" = Some (PStr "")
  ∧ param {[ "filepath" := PStr ""; "content" := PStr "x" ]} "content" ≠ PNone
  ∧ (request "write_file"
       {[ "filepath" := PStr ""; "content" := PStr "x" ]}).1
    = required "filepath".
Proof. vm_compute. repeat split; (reflexivity || discriminate). Qed.

End Findings.

(** ** The theorems on the sandbox of [Fixture] *)

Module Witnesses.
Import Str PosixPath Tree Spec Server Fixture.

Lemma write_then_read_witness :
  (dispatch TEMP_DIR "read_file"
     (PDict {[ "filepath" := PStr "notes/today.txt" ]})
     (dispatch TEMP_DIR "write_file"
        (PDict {[ "filepath" := PStr "notes/today.txt";
                  "content" := PStr accents_utf8 ]}) start).2).1
  = {[ "content" := PStr (Sys.universal_newlines accents_utf8);
       "filepath" :=
         param {[ "filepath" := PStr "notes/today.txt";
                  "content" := PStr accents_utf8 ]} "filepath" ]}
  ∧ (contains "013"%char accents_utf8 = false →
     Sys.universal_newlines accents_utf8 = accents_utf8)
  ∧ (∀ text, Utf8.encode text = Some accents_utf8 →
       Utf8.encode (Utf8.newlines text)
       = Some (Sys.universal_newlines accents_utf8)
       ∧ Utf8.points (Sys.universal_newlines accents_utf8)
         = Utf8.newlines text).
Proof.
  apply (RoundTrip.write_then_read TEMP_DIR
           {[ "filepath" := PStr "notes/today.txt";
              "content" := PStr accents_utf8 ]}
           {[ "filepath" := PStr "notes/today.txt" ]}
           accents_utf8 start).
  - reflexivity.
  - reflexivity.
  - reflexivity.
  - left. exists (PStr "notes/today.txt"). vm_compute. reflexivity.
Defined.


Lemma search_files_missing_directory_witness :
  ∃ w',
    dispatch TEMP_DIR "search_files"
      (PDict {[ "directory_path" := PStr "nowhere";
                "pattern" := PStr "*" ]}) start
    = (error ("Directory " +:+ "nowhere" +:+ " not found"), w')
    ∧ fs w' = fs start
    ∧ Os.isdir w' (resolve TEMP_DIR "nowhere") = false.
Proof.
  apply (Dispatch.search_files_missing_directory TEMP_DIR
           {[ "directory_path" := PStr "nowhere"; "pattern" := PStr "*" ]}
           "nowhere" start).
  - reflexivity.
  - discriminate.
  - reflexivity.
  - reflexivity.
Defined.


Lemma delete_file_removes_witness :
  (∃ cs w',
     resolve TEMP_DIR "d" = render cs
     ∧ dispatch TEMP_DIR "delete_file"
         (PDict {[ "filepath" := PStr "d" ]}) start
       = ({[ "success" := PBool true; "filepath" := PStr "d" ]}, w')
     ∧ Os.exists_ w' (resolve TEMP_DIR "d") = false
     ∧ ∀ p, kind (lookup_node (fs w') p)
            = if bool_decide (cs `prefix_of` p) then None
              else kind (lookup_node (fs start) p))
  ∧ (∃ w',
       dispatch TEMP_DIR "delete_file"
         (PDict {[ "filepath" := PStr "gone" ]}) start
       = (error ("File or directory " +:+ "gone" +:+ " not found"), w')
       ∧ fs w' = fs start).
Proof.
  split.
  - apply (Delete.delete_file_removes TEMP_DIR
             {[ "filepath" := PStr "d" ]} "d" start).
    + reflexivity.
    + discriminate.
    + reflexivity.
    + discriminate.
    + vm_compute. reflexivity.
    + vm_compute. reflexivity.
    + reflexivity.
    + vm_compute. reflexivity.
  - apply (Delete.delete_file_removes TEMP_DIR
             {[ "filepath" := PStr "gone" ]} "gone" start).
    + reflexivity.
    + discriminate.
    + reflexivity.
    + discriminate.
    + vm_compute. reflexivity.
Defined.

Lemma sandbox_escape_witness :
  resolve TEMP_DIR "../../etc/passwd" = "/etc/passwd"
  ∧ contained TEMP_DIR "/etc/passwd" = false
  ∧ ∃ fs',
      dispatch TEMP_DIR "write_file"
        (PDict {[ "filepath" := PStr "../../etc/passwd";
                  "content" := PStr "x" ]}) start
      = ({[ "success" := PBool true;
            "filepath" := PStr "../../etc/passwd" ]},
         World fs' [] [Resolved "../../etc/passwd" "/etc/passwd"])
      ∧ lookup_node fs' ["etc"; "passwd"] = Some (File "x").
Proof.
  apply (Findings.sandbox_escape ["tmp"; "fileops_k3x9w2ab"] 2
           ["etc"; "passwd"]
           {[ "filepath" := PStr "../../etc/passwd"; "content" := PStr "x" ]}
           "x" start).
  - discriminate.
  - repeat constructor; discriminate.
  - repeat constructor; discriminate.
  - simpl; lia.
  - intros [k Hk]; discriminate.
  - reflexivity.
  - reflexivity.
  - reflexivity.
  - reflexivity.
  - reflexivity.
Defined.

Lemma empty_string_is_missing_witness :
  dispatch TEMP_DIR "search_files"
    (PDict (<["pattern" := PStr ""]> {[ "directory_path" := PStr "d" ]}))
    start
  = dispatch TEMP_DIR "search_files"
      (PDict (delete "pattern" {[ "directory_path" := PStr "d" ]})) start
  ∧ (In "pattern" (checked_parameters "search_files") →
     ∃ name, In name (checked_parameters "search_files")
       ∧ dispatch TEMP_DIR "search_files"
           (PDict (<["pattern" := PStr ""]>
                     {[ "directory_path" := PStr "d" ]})) start
         = (required name, start)
       ∧ (name = "pattern"
          ∨ Py.truthy (param {[ "directory_path" := PStr "d" ]} name)
            = false)).
Proof.
  apply (Dispatch.empty_string_is_missing TEMP_DIR "search_files"
           {[ "directory_path" := PStr "d" ]} "pattern" start).
  right; right; left; reflexivity.
Defined.

End Witnesses.

(** ** The further theorems on the sandbox of [Fixture] *)

Module Samples.
Import Str PosixPath Tree Spec Terms Server Fixture.

Lemma resolve_without_dotdot_sample :
  resolve TEMP_DIR "/d/./a.txt" = "/tmp/fileops_k3x9w2ab/d/a.txt"
  ∧ Forall clean ["d"; "a.txt"]
  ∧ contained TEMP_DIR (resolve TEMP_DIR "/d/./a.txt") = true.
Proof.
  apply (Resolver.resolve_without_dotdot ["tmp"; "fileops_k3x9w2ab"]
           "/d/./a.txt").
  - discriminate.
  - repeat constructor; discriminate.
  - repeat constructor; discriminate.
Defined.

Lemma resolve_normal_form_sample :
  resolve TEMP_DIR "d/../x//y/" = render ["tmp"; "fileops_k3x9w2ab"; "x"; "y"]
  ∧ Forall clean ["tmp"; "fileops_k3x9w2ab"; "x"; "y"]
  ∧ isabs (resolve TEMP_DIR "d/../x//y/") = true
  ∧ normpath (resolve TEMP_DIR "d/../x//y/") = resolve TEMP_DIR "d/../x//y/".
Proof.
  apply (Resolver.resolve_normal_form TEMP_DIR "d/../x//y/").
  reflexivity.
Defined.

Lemma relpath_then_resolve_sample :
  resolve TEMP_DIR (relpath "/" "/etc/passwd" TEMP_DIR) = "/etc/passwd".
Proof.
  apply (Resolver.relpath_then_resolve "/" TEMP_DIR ["etc"; "passwd"]).
  - reflexivity.
  - repeat constructor; discriminate.
Defined.

Lemma read_only_operations_sample :
  fs (dispatch TEMP_DIR "search_files"
        (PDict {[ "directory_path" := PStr "d"; "pattern" := PStr "*" ]})
        start).2 = fs start
  ∧ cwd (dispatch TEMP_DIR "search_files"
           (PDict {[ "directory_path" := PStr "d"; "pattern" := PStr "*" ]})
           start).2 = cwd start.
Proof.
  apply (Frame.read_only_operations TEMP_DIR "search_files"
           (PDict {[ "directory_path" := PStr "d"; "pattern" := PStr "*" ]})
           start); discriminate.
Defined.

Lemma parameters_not_a_mapping_sample :
  dispatch TEMP_DIR "read_file" (PList [PStr "a.txt"]) start
  = (error "'list' object has no attribute 'get'", start).
Proof.
  apply (Typing.parameters_not_a_mapping TEMP_DIR "read_file"
           (PList [PStr "a.txt"]) start).
  - reflexivity.
  - right; left; reflexivity.
Defined.

Lemma path_not_a_string_sample :
  dispatch TEMP_DIR "delete_file" (PDict {[ "filepath" := PInt 7 ]}) start
  = (error "'int' object has no attribute 'lstrip'", start).
Proof.
  etransitivity.
  - apply (Typing.path_not_a_string TEMP_DIR "delete_file"
             {[ "filepath" := PInt 7 ]} start).
    + do 4 right; left; reflexivity.
    + reflexivity.
    + reflexivity.
  - vm_compute. reflexivity.
Defined.




Lemma write_file_onto_directory_sample :
  dispatch TEMP_DIR "write_file"
    (PDict {[ "filepath" := PStr "d"; "content" := PStr "x" ]}) start
  = (error (Exn.str (OSError EISDIR (resolve TEMP_DIR "d"))),
     World root [] [Resolved "d" (resolve TEMP_DIR "d")]).
Proof.
  apply (Writing.write_file_onto_directory TEMP_DIR
           {[ "filepath" := PStr "d"; "content" := PStr "x" ]} "d" start).
  - reflexivity.
  - reflexivity.
  - discriminate.
  - reflexivity.
  - reflexivity.
  - reflexivity.
Defined.

Lemma read_file_reply_sample :
  dispatch TEMP_DIR "read_file" (PDict {[ "filepath" := PStr "d/a.txt" ]})
    start
  = (match lookup_node root (resolved_components TEMP_DIR "d/a.txt") with
     | Some (File content) =>
         {[ "content" := PStr (Sys.universal_newlines content);
            "filepath" := PStr "d/a.txt" ]}
     | _ => error ("File " +:+ "d/a.txt" +:+ " not found")
     end,
     World root [] [Resolved "d/a.txt" (resolve TEMP_DIR "d/a.txt")]).
Proof.
  apply (Writing.read_file_reply TEMP_DIR {[ "filepath" := PStr "d/a.txt" ]}
           "d/a.txt" start).
  - reflexivity.
  - reflexivity.
  - discriminate.
  - reflexivity.
  - reflexivity.
  - vm_compute. reflexivity.
  - intros content [= <-]. vm_compute. reflexivity.
Defined.


Lemma write_delete_read_sample :
  ∃ s,
    param {[ "filepath" := PStr "n.txt"; "content" := PStr "one" ]} "filepath"
    = PStr s
    ∧ (dispatch TEMP_DIR "delete_file"
         (PDict {[ "filepath" := PStr "n.txt" ]})
         (dispatch TEMP_DIR "write_file"
            (PDict {[ "filepath" := PStr "n.txt"; "content" := PStr "one" ]})
            start).2).1
      = {[ "success" := PBool true; "filepath" := PStr s ]}
    ∧ (dispatch TEMP_DIR "read_file"
         (PDict {[ "filepath" := PStr "n.txt" ]})
         (dispatch TEMP_DIR "delete_file"
            (PDict {[ "filepath" := PStr "n.txt" ]})
            (dispatch TEMP_DIR "write_file"
               (PDict {[ "filepath" := PStr "n.txt";
                         "content" := PStr "one" ]})
               start).2).2).1
      = error ("File " +:+ s +:+ " not found").
Proof.
  apply (Writing.write_delete_read TEMP_DIR
           {[ "filepath" := PStr "n.txt"; "content" := PStr "one" ]}
           {[ "filepath" := PStr "n.txt" ]} "one" start).
  - reflexivity.
  - reflexivity.
  - reflexivity.
  - left. exists (PStr "n.txt"). vm_compute. reflexivity.
Defined.

Lemma list_directory_listing_sample :
  ∃ items,
    dispatch TEMP_DIR "list_directory"
      (PDict {[ "directory_path" := PStr "d" ]}) start
    = ({[ "items" := PList items; "directory_path" := PStr "d" ]},
       World root [] [Resolved "d" (resolve TEMP_DIR "d")])
    ∧ items
      ≡ₚ map entry
           (map_to_list
              ({[ "a.txt" := File "alpha"; "b.log" := File "beta";
                  "sub" := Dir {[ "c.txt" := File "gamma" ]} ]}
               : gmap string node)).
Proof.
  apply (Listing.list_directory_listing TEMP_DIR
           {[ "directory_path" := PStr "d" ]} "d"
           {[ "a.txt" := File "alpha"; "b.log" := File "beta";
              "sub" := Dir {[ "c.txt" := File "gamma" ]} ]} start).
  - reflexivity.
  - reflexivity.
  - discriminate.
  - reflexivity.
  - reflexivity.
  - vm_compute. repeat constructor; discriminate.
  - vm_compute. repeat constructor.
Defined.

Lemma list_directory_on_a_file_sample :
  dispatch TEMP_DIR "list_directory"
    (PDict {[ "directory_path" := PStr "f.txt" ]}) start
  = (error (Exn.str (OSError EEXIST (resolve TEMP_DIR "f.txt"))),
     World root [] [Resolved "f.txt" (resolve TEMP_DIR "f.txt")]).
Proof.
  apply (Listing.list_directory_on_a_file TEMP_DIR
           {[ "directory_path" := PStr "f.txt" ]} "f.txt" "phi" start).
  - reflexivity.
  - reflexivity.
  - discriminate.
  - reflexivity.
  - reflexivity.
  - reflexivity.
Defined.


Lemma relpath_below_root_sample :
  relpath "/" "/tmp/fileops_k3x9w2ab/d/a.txt" TEMP_DIR = "d/a.txt".
Proof.
  apply (Below.relpath_below_root "/" ["tmp"; "fileops_k3x9w2ab"]
           ["d"; "a.txt"]).
  - repeat constructor; discriminate.
  - repeat constructor; discriminate.
Defined.



Lemma null_byte_not_found_sample :
  dispatch TEMP_DIR "read_file"
    (PDict {[ "filepath" := PStr (String "a" (String "000" "b")) ]}) start
  = (error ((if bool_decide ("read_file" = "read_file") then "File "
             else if bool_decide ("read_file" = "delete_file")
             then "File or directory "
             else "Directory ")
            +:+ String "a" (String "000" "b") +:+ " not found"),
     World root []
       [Resolved (String "a" (String "000" "b"))
          (resolve TEMP_DIR (String "a" (String "000" "b")))]).
Proof.
  apply (Unusual.null_byte_not_found TEMP_DIR "read_file"
           {[ "filepath" := PStr (String "a" (String "000" "b")) ]}
           (String "a" (String "000" "b")) start).
  - left; reflexivity.
  - reflexivity.
  - reflexivity.
  - reflexivity.
Defined.

Lemma pattern_not_a_string_sample :
  dispatch TEMP_DIR "search_files"
    (PDict {[ "directory_path" := PStr "d"; "pattern" := PInt 3 ]}) start
  = (error ("join() argument must be str, bytes, or os.PathLike object, not '"
            +:+ Py.type_name
                  (param {[ "directory_path" := PStr "d";
                            "pattern" := PInt 3 ]} "pattern")
            +:+ "'"),
     World root [] [Resolved "d" (resolve TEMP_DIR "d")]).
Proof.
  apply (Unusual.pattern_not_a_string TEMP_DIR
           {[ "directory_path" := PStr "d"; "pattern" := PInt 3 ]} "d" start).
  - reflexivity.
  - discriminate.
  - reflexivity.
  - reflexivity.
  - reflexivity.
Defined.


End Samples.

(** ** The recursions have fuel enough *)

Module Fuel.
Import Str Spec Logic Replies PathFacts MakeDirs.

Lemma rpartition_sep_app p :
  (rpartition_sep p).1 +:+ (rpartition_sep p).2 = p.
Proof.
  induction p as [|a p IH]; [done|]. cbn [rpartition_sep].
  destruct (rpartition_sep p) as [h t]. simpl in IH.
  destruct h as [|b h].
  - simpl in IH. subst. by destruct (is_sep a) eqn:Ha;
      [apply is_sep_true in Ha as ->|].
  - cbn [fst snd]. by rewrite Shape.append_cons, IH.
Qed.

Lemma rstrip_sep_length s :
  String.length (rstrip_sep s) ≤ String.length s.
Proof.
  induction s as [|a s IH]; [done|]. cbn [rstrip_sep].
  destruct (rstrip_sep s); [destruct (is_sep a)|]; simpl in *; lia.
Qed.

Lemma split_length p :
  String.length (PosixPath.split p).1 + String.length (PosixPath.split p).2
  ≤ String.length p.
Proof.
  unfold PosixPath.split.
  pose proof (rpartition_sep_app p) as H.
  destruct (rpartition_sep p) as [h t]. cbn [fst snd] in *.
  apply (f_equal String.length) in H. rewrite string_length_app in H.
  pose proof (rstrip_sep_length h).
  destruct (nonempty h && negb (all_sep h)); lia.
Qed.

Lemma nonempty_length s : nonempty s = true → 0 < String.length s.
Proof. destruct s; [done|]. simpl. lia. Qed.

(** The name [makedirs] calls itself on is shorter than the one it has. *)
Lemma makedirs_head_shorter name head tail :
  (let (h, t) := PosixPath.split name in
   if nonempty t then (h, t) else PosixPath.split h) = (head, tail) →
  nonempty tail = true →
  String.length head < String.length name.
Proof.
  pose proof (split_length name) as H1.
  destruct (PosixPath.split name) as [h t]. cbn [fst snd] in H1.
  destruct (nonempty t) eqn:Ht.
  - intros [= <- <-] _. apply nonempty_length in Ht. lia.
  - intros Hs Hn. pose proof (split_length h) as H2. rewrite Hs in H2.
    cbn [fst snd] in H2. apply nonempty_length in Hn. lia.
Qed.

Lemma syscall_no_overflow {A} path
    (call : node → list string → string → errno + A) :
  post (Os.syscall path call) anything no_overflow.
Proof.
  unfold Os.syscall. destruct (Os.has_null_byte path).
  - by apply post_raise.
  - apply post_bind with (P := anything); [by apply post_read_world|].
    intros [e|a] _; simpl; [by apply post_raise|by apply post_ret].
Qed.

Lemma mkdir_no_overflow p : post (Os.mkdir p) anything no_overflow.
Proof.
  unfold Os.mkdir. apply post_bind with (P := anything);
    [apply syscall_no_overflow|]. intros. by apply post_set_fs.
Qed.

(** The rounds given to [Os.makedirs_rec] are enough: in the model
    [os.makedirs] goes as deep as the path asks. *)
Lemma makedirs_fuel_enough fuel name :
  String.length name < fuel →
  post (Os.makedirs_rec fuel name) anything no_overflow.
Proof.
  revert name. induction fuel as [|fuel IH]; intros name Hfuel; [lia|].
  rewrite makedirs_rec_S.
  pose proof (makedirs_head_shorter name) as Hshort.
  destruct (PosixPath.split name) as [h t].
  destruct (if nonempty t then (h, t) else PosixPath.split h)
    as [head tail].
  specialize (Hshort head tail eq_refl).
  eapply post_bind with (P := anything).
  - destruct (nonempty head && nonempty tail) eqn:Hht;
      [|by apply post_ret].
    apply andb_true_iff in Hht as [_ Ht]. specialize (Hshort Ht).
    apply post_bind with (P := anything); [by apply post_read_world|].
    intros [] _; [by apply post_ret|].
    eapply post_bind with (P := anything); [|intros; by apply post_ret].
    eapply post_try; [apply IH; lia|].
    intros e He. destruct e as [| | | | | | |[] ?];
      first [by apply post_ret|by apply post_raise].
  - intros [] _; [|by apply post_ret].
    eapply post_try; [apply mkdir_no_overflow|].
    intros e He. destruct e; try by apply post_raise.
    apply post_bind with (P := anything); [by apply post_read_world|].
    intros [] _; [by apply post_ret|by apply post_raise].
Qed.

Lemma makedirs_no_overflow name :
  post (Os.makedirs name) anything no_overflow.
Proof. apply makedirs_fuel_enough. lia. Qed.

Lemma rstrip_sep_prefix s : ∃ y, s = rstrip_sep s +:+ y.
Proof.
  induction s as [|a s [y IH]]; [by exists ""|]. cbn [rstrip_sep].
  destruct (rstrip_sep s) as [|b r] eqn:Hr.
  - destruct (is_sep a); [by exists (String a s)|].
    exists s. done.
  - exists y. rewrite Shape.append_cons. by rewrite <- IH.
Qed.

Lemma split_head_prefix p : ∃ y, p = (PosixPath.split p).1 +:+ y.
Proof.
  unfold PosixPath.split.
  pose proof (rpartition_sep_app p) as H.
  destruct (rpartition_sep p) as [h t]. cbn [fst snd] in *.
  destruct (nonempty h && negb (all_sep h)); [|by exists t].
  destruct (rstrip_sep_prefix h) as [y Hy]. exists (y +:+ t).
  by rewrite <- append_assoc, <- Hy.
Qed.

Lemma dirname_shorter p :
  (PosixPath.split p).1 ≠ p →
  String.length (PosixPath.split p).1 < String.length p.
Proof.
  intros Hne. destruct (split_head_prefix p) as [y Hy].
  destruct y as [|a y]; [by rewrite append_nil_r in Hy|].
  rewrite Hy at 2. rewrite string_length_app. simpl. lia.
Qed.

Lemma in_dirs_no_overflow (g : string → exn + list string) dirs e :
  (∀ d e', g d = inl e' → no_overflow e') →
  Glob.in_dirs g dirs = inl e → no_overflow e.
Proof.
  intros Hg. induction dirs as [|d dirs IH]; simpl; [discriminate|].
  destruct (g d) eqn:Hd.
  - intros [= <-]. by eapply Hg.
  - destruct (Glob.in_dirs g dirs); [|discriminate].
    intros [= <-]. by apply IH.
Qed.

Lemma glob1_no_overflow w dirname pattern dironly e :
  Glob.glob1 w dirname pattern dironly = inl e → no_overflow e.
Proof.
  unfold Glob.glob1, Glob.listdir.
  destruct (Os.has_null_byte _); [by intros [= <-]|].
  by destruct (Sys.stat _ _ _) as [|[]].
Qed.

Lemma glob0_no_overflow w dirname basename dironly e :
  Glob.glob0 w dirname basename dironly = inl e → no_overflow e.
Proof. unfold Glob.glob0. by destruct (nonempty _). Qed.

(** The rounds given to [Glob.iglob] are enough. *)
Lemma iglob_fuel_enough fuel w pathname dironly e :
  String.length pathname < fuel →
  Glob.iglob fuel w pathname dironly = inl e → no_overflow e.
Proof.
  revert pathname dironly e.
  induction fuel as [|fuel IH]; intros pathname dironly e Hfuel; [lia|].
  cbn [Glob.iglob].
  pose proof (dirname_shorter pathname) as Hshort.
  destruct (PosixPath.split pathname) as [dirname basename].
  cbn [fst] in Hshort.
  destruct (negb (Glob.has_magic pathname)).
  { by destruct (nonempty basename). }
  destruct (negb (nonempty dirname)); [apply glob1_no_overflow|].
  assert (Hin : ∀ dirs,
    Glob.in_dirs
      (λ d, (if Glob.has_magic basename then Glob.glob1 else Glob.glob0)
              w d basename dironly) dirs = inl e → no_overflow e).
  { intros dirs. apply in_dirs_no_overflow. intros d e'.
    destruct (Glob.has_magic basename);
      [apply glob1_no_overflow|apply glob0_no_overflow]. }
  case_bool_decide as Hd; cbn [negb andb]; [apply Hin|].
  destruct (Glob.has_magic dirname); [|apply Hin].
  destruct (Glob.iglob fuel w dirname true) eqn:Hrec; [|apply Hin].
  intros [= <-]. eapply IH; [|exact Hrec]. specialize (Hshort Hd). lia.
Qed.

Lemma until_close_shorter s b r :
  Fnmatch.until_close s = Some (b, r) → String.length r < String.length s.
Proof.
  revert b r. induction s as [|a s IH]; intros b r; [done|].
  cbn [Fnmatch.until_close]. case_bool_decide.
  - intros [= <- <-]. simpl. lia.
  - destruct (Fnmatch.until_close s) as [[b' r']|]; [|done].
    intros [= <- <-]. specialize (IH _ _ eq_refl). simpl. lia.
Qed.

Lemma set_body_shorter s b r :
  Fnmatch.set_body s = Some (b, r) → String.length r < String.length s.
Proof.
  destruct s as [|a s]; [done|]. cbn [Fnmatch.set_body].
  case_bool_decide.
  - destruct (Fnmatch.until_close s) as [[b' r']|] eqn:Hu; [|done].
    intros [= <- <-]. apply until_close_shorter in Hu. simpl. lia.
  - apply until_close_shorter.
Qed.

Lemma bracket_shorter s negated body rest :
  Fnmatch.bracket s = Some (negated, body, rest) →
  String.length rest < String.length s.
Proof.
  destruct s as [|a s]; [done|]. cbn [Fnmatch.bracket].
  case_bool_decide.
  - destruct (Fnmatch.set_body s) as [[b r]|] eqn:Hs; [|done].
    intros [= <- <- <-]. apply set_body_shorter in Hs. simpl. lia.
  - destruct (Fnmatch.set_body (String a s)) as [[b r]|] eqn:Hs; [|done].
    intros [= <- <- <-]. by apply set_body_shorter in Hs.
Qed.

(** [fnmatch.translate] reads the whole pattern: more rounds change
    nothing. *)
Lemma translate_fuel_enough n m pat :
  String.length pat ≤ n → String.length pat ≤ m →
  Fnmatch.translate_rec n pat = Fnmatch.translate_rec m pat.
Proof.
  revert m pat. induction n as [|n IH]; intros m pat Hn Hm.
  { destruct pat; [|simpl in Hn; lia]. by destruct m. }
  destruct pat as [|c rest]; [by destruct m|].
  destruct m as [|m]; [simpl in Hm; lia|].
  simpl in Hn, Hm. cbn [Fnmatch.translate_rec].
  assert (Hrest : Fnmatch.translate_rec n rest = Fnmatch.translate_rec m rest)
    by (apply IH; lia).
  repeat case_bool_decide; try by rewrite Hrest.
  destruct (Fnmatch.bracket rest) as [[[negated body] rest']|] eqn:Hb;
    [|by rewrite Hrest].
  apply bracket_shorter in Hb. f_equal. apply IH; lia.
Qed.

End Fuel.
